(** * Roofline performance model for matrix multiplication on a TPU v5e and an H100

    A shallow embedding of the analysis engine: the classes [Matrix], [TPUv5e]
    and [H100].  Every quantity of the engine is a JavaScript [number].  The
    embedding is written once, over an interface [Number] that lists the
    operations the source applies to numbers, and is read at two instances:

    - [binary64]: IEEE 754 double precision (the kernel's primitive floats),
      which is what the engine computes with.  [Math.log2] and [Math.pow] are
      left to the host by ECMAScript and are parameters of the instance.
    - [exact]: the rationals.  This is the arithmetic in which the formulas of
      the specification are written.  It has no rounding, no infinity and no
      NaN, and a division by zero yields 0 there, so it speaks for the code
      only where no denominator vanishes, and up to the rounding and the
      range of doubles.  With nonnegative dimensions and at least one device
      the denominators that can vanish are the byte total (under the
      arithmetic intensity and the VMEM speedup) and the total time of a
      multi-device analysis; the theorems about those quantities state the
      hypothesis that excludes it.  Where a statement over [exact] does not
      carry over to doubles, a lemma over [binary64] shows the input at
      which they part.

    Theorems that hold by the shape of the code are proved for every instance
    at once; order and field reasoning is done over [exact]; what depends on
    rounding is evaluated over [binary64], or proved there from the
    specification of the primitive floats.

    Calls that the engine makes to the outside are arguments here: [rnd] is
    the identifier that [Math.random] yields for a new matrix, and [fuel]
    bounds the sampling loop of the roofline data. *)

From Stdlib Require Import ZArith QArith Qround Qminmax Lqa Lia.
From Stdlib Require Import Bool List String Ascii DecimalString.
From Stdlib Require Import Floats.
From Stdlib Require Qabs.
Import ListNotations.

Close Scope Q_scope.
Open Scope string_scope.
Open Scope list_scope.

Set Implicit Arguments.

(* ================================================================== *)
(** * The numbers of the engine                                        *)
(* ================================================================== *)

(** The operations of JavaScript numbers that the source uses. *)
Class Number : Type := {
  number : Type;
  of_Z : Z -> number;                       (* an integer literal *)
  add : number -> number -> number;         (* x + y *)
  mul : number -> number -> number;         (* x * y *)
  div : number -> number -> number;         (* x / y *)
  rem : number -> number -> number;         (* x % y *)
  eqb : number -> number -> bool;           (* x === y *)
  ltb : number -> number -> bool;           (* x < y *)
  leb : number -> number -> bool;           (* x <= y *)
  Math_max : number -> number -> number;
  Math_min : number -> number -> number;
  Math_ceil : number -> number;
  Math_floor : number -> number;
  Math_log2 : number -> number;
  Math_pow : number -> number -> number
}.

Declare Scope js_scope.
Delimit Scope js_scope with js.
Bind Scope js_scope with number.

Notation "$ z" := (of_Z z%Z) (at level 1, z at level 0, format "$ z") : js_scope.
Infix "+" := add : js_scope.
Infix "*" := mul : js_scope.
Infix "/" := div : js_scope.
Infix "mod" := rem (at level 40, no associativity) : js_scope.
Infix "===" := eqb (at level 70, no associativity) : js_scope.
Infix "<?" := ltb : js_scope.
Infix "<=?" := leb : js_scope.
Notation "x >? y" := (ltb y x) (at level 70, no associativity, only parsing) : js_scope.

Section Literals.
Context {N : Number}.
Local Open Scope js_scope.

(** The decimal literal [m]e[e], e.g. [lit 197 12] for [1.97e14] and
    [lit 5 (-1)] for [0.5].  With a negative exponent it is the quotient of
    two integers; over [binary64] that is the correctly rounded value of the
    literal as long as both integers are below 2^53, which holds for every
    literal of the source (checked in [binary64_literals]). *)
Definition lit (m e : Z) : number :=
  if (0 <=? e)%Z then of_Z (m * 10 ^ e) else of_Z m / of_Z (10 ^ (- e)).

(** What arithmetic makes of [undefined] (a read past the end of an
    array): NaN, the value of [0 / 0]. *)
Definition NaN : number := $0 / $0.

(** [JSON.parse(JSON.stringify(x))] on a number, as arithmetic sees it
    afterwards: a finite nonzero number comes back unchanged; NaN and the
    infinities are written as [null] and -0 as [0], and both act as 0.
    [x * 0 === 0] holds exactly for the finite [x]. *)
Definition JSON_number (x : number) : number :=
  if (x * $0 === $0) && negb (x === $0) then x else $0.
End Literals.

(* ================================================================== *)
(** * Errors                                                           *)
(* ================================================================== *)

(** The three conditions under which the engine throws.  The source throws
    a plain [Error]; [message] gives its text. *)
Inductive Error : Type :=
| NotFound (id : string)
| MissingConfiguration
| UnsupportedOperation.

Definition message (e : Error) : string :=
  match e with
  | NotFound id => ("Matrix with ID " ++ id ++ " not found")%string
  | MissingConfiguration => "Sharding configuration required for multi-node analysis"
  | UnsupportedOperation => "Only matrix multiplication is supported currently"
  end.

Inductive result (A : Type) : Type :=
| Ok (a : A)
| Throw (e : Error).
Arguments Ok {A} a.
Arguments Throw {A} e.

Definition bind {A B : Type} (r : result A) (k : A -> result B) : result B :=
  match r with
  | Ok a => k a
  | Throw e => Throw e
  end.

Notation "x <- r ;; k" := (bind r (fun x => k))
  (at level 61, r at next level, right associativity).

(* ================================================================== *)
(** * types.ts                                                         *)
(* ================================================================== *)

Inductive dtype : Type := fp8 | bf16 | fp32 | int8 | int4.

Definition dtype_eqb (a b : dtype) : bool :=
  match a, b with
  | fp8, fp8 | bf16, bf16 | fp32, fp32 | int8, int8 | int4, int4 => true
  | _, _ => false
  end.

(** [operation] is a string enumeration with the single member ["matmul"];
    at run time it is a string, and [calculateFLOPs] tests it. *)
Definition operation : Type := string.
Definition matmul : operation := "matmul".

Section Types.
Context {N : Number}.
Local Open Scope js_scope.

(** [shape] is the JavaScript array behind the tuple type
    [[number, number]]. *)
Record matinfo : Type := {
  shape : list number;
  mat_dtype : dtype
}.

Record outinfo : Type := { out_dtype : dtype }.

Record MatrixBytes : Type := {
  LHSBytes : number;
  RHSBytes : number;
  outputBytes : number;
  totalBytes : number
}.

(** [lhsShardDim] and [rhsShardDim] are array keys, or [null]. *)
Record ShardingConfig : Type := {
  numDevices : number;
  lhsShardDim : option Z;
  rhsShardDim : option Z
}.

(** [a[k]] in arithmetic position. *)
Definition array_get (a : list number) (k : Z) : number :=
  if (k <? 0)%Z then NaN else nth (Z.to_nat k) a NaN.

Fixpoint update (a : list number) (k : nat) (v : number) : list number :=
  match a, k with
  | [], _ => [v]
  | _ :: t, O => v :: t
  | x :: t, S k' => x :: update t k' v
  end.

(** [a[k] = v].  A negative key is not an index: it adds a property and
    leaves the elements alone.  An index past the end extends the array;
    the holes it leaves are skipped by [reduce], so only the new element is
    kept here. *)
Definition array_set (a : list number) (k : Z) (v : number) : list number :=
  if (k <? 0)%Z then a else update a (Z.to_nat k) v.

(* ---------------------------------------------------------------- *)
(** ** class Matrix *)

Record Matrix : Type := {
  id : string;
  lhs : matinfo;
  rhs : matinfo;
  type : operation;
  output : outinfo
}.

(** [new Matrix(type, lhs, rhs, output)]; [rnd] is the token that
    [Math.random().toString(36).substr(2, 9)] yields at this call. *)
Definition new_Matrix (rnd : string) (ty : operation) (l r : matinfo)
    (o : outinfo) : Matrix :=
  {| id := rnd; lhs := l; rhs := r; type := ty; output := o |}.

Definition calculateFLOPs (this : Matrix) : result number :=
  if negb (String.eqb (type this) "matmul") then Throw UnsupportedOperation
  else
    let B := array_get (shape (lhs this)) 0 in
    let D := array_get (shape (lhs this)) 1 in
    let F := array_get (shape (rhs this)) 1 in
    Ok ($2 * B * D * F).

Definition bytesPerElement (d : dtype) : number :=
  match d with
  | bf16 => $2
  | fp32 => $4
  | int8 => $1
  | int4 => lit 5 (-1)
  | fp8 => $1
  end.

(** [shape.reduce((acc, dim) => acc * dim, 1)] *)
Definition reduce_mul (a : list number) : number :=
  fold_left (fun acc dim => acc * dim) a $1.

Definition calculateBytes (this : Matrix) : MatrixBytes :=
  let lhsBytes := reduce_mul (shape (lhs this)) * bytesPerElement (mat_dtype (lhs this)) in
  let rhsBytes := reduce_mul (shape (rhs this)) * bytesPerElement (mat_dtype (rhs this)) in
  let B := array_get (shape (lhs this)) 0 in
  let F := array_get (shape (rhs this)) 1 in
  let outBytes := B * F * bytesPerElement (out_dtype (output this)) in
  {| LHSBytes := lhsBytes;
     RHSBytes := rhsBytes;
     outputBytes := outBytes;
     totalBytes := lhsBytes + rhsBytes + outBytes |}.

Definition calculateArithmeticIntensity (this : Matrix) : result number :=
  let bytes := calculateBytes this in
  flops <- calculateFLOPs this ;;
  Ok (flops / totalBytes bytes).

(** The deep copies [JSON.parse(JSON.stringify(...))] of the operands. *)
Definition JSON_matinfo (m : matinfo) : matinfo :=
  {| shape := map JSON_number (shape m); mat_dtype := mat_dtype m |}.

Definition JSON_outinfo (o : outinfo) : outinfo :=
  {| out_dtype := out_dtype o |}.

(** [Math.ceil(a[k] / n)], the per-device size of dimension [k]. *)
Definition shard (a : list number) (k : Z) (n : number) : number :=
  Math_ceil (array_get a k / n).

(** [this.matrices.find(m => m.id === Id)] *)
Definition find_matrix (ms : list Matrix) (Id : string) : option Matrix :=
  find (fun m => String.eqb (id m) Id) ms.
End Types.

Section Roofline.
Context {N : Number}.
Local Open Scope js_scope.

Record IntensityPoint : Type := {
  intensity : number;
  achievableFlops : number;
  peakFlops : number;
  memoryBound : bool
}.

Record MatrixPoint : Type := {
  mp_intensity : number;
  mp_achievableFlops : number;
  isCurrentMatrix : bool
}.

Record RooflineData : Type := {
  intensityPoints : list IntensityPoint;
  matrixPoint : MatrixPoint;
  rd_peakHardwareIntensity : number;
  rd_peakFlops : number
}.

(** The sampling loop of [_generateRooflineData], the same in both classes:
    [for (let i = -1; i <= 4; i += 0.1) { ...; intensityPoints.push(...) }].
    [pk] is the peak throughput, [bw] is [this.hbmBandwidth] and [ridge] is
    [metrics.peakHardwareIntensity].  The loop runs on [fuel]; [None] means
    the fuel ran out before the loop condition failed. *)
Fixpoint sample (fuel : nat) (pk bw ridge : number) (i : number)
    (points : list IntensityPoint) : option (list IntensityPoint) :=
  match fuel with
  | O => None
  | S fuel' =>
      if i <=? $4 then
        let x := Math_pow $10 i in
        let achievable := Math_min pk (bw * x) in
        sample fuel' pk bw ridge (i + lit 1 (-1))
          (points ++ [{| intensity := x;
                         achievableFlops := achievable;
                         peakFlops := pk;
                         memoryBound := x <? ridge |}])
      else Some points
  end.

(** The loop variable [i] of [sample] after [n] passes through the body. *)
Fixpoint loop_variable (n : nat) : number :=
  match n with
  | O => $(-1)
  | S n' => loop_variable n' + lit 1 (-1)
  end.
End Roofline.

(* ================================================================== *)
(** * Code that both classes write out identically                     *)
(* ================================================================== *)

Section Shared.
Context {N : Number}.
Local Open Scope js_scope.

(** [(x % unit === 0) ? 1.0 : (x / Math.ceil(x / unit) / unit)], the
    expression the source writes out for each of the three axes. *)
Definition utilization (x unit : number) : number :=
  if x mod unit === $0 then $1 else x / Math_ceil (x / unit) / unit.

(** The sharded copy that [_calculateMultiNodeMetrics] builds: a deep copy
    of the operation whose configured dimensions are replaced by their
    per-device sizes.  [rnd] is the id drawn by its [new Matrix]. *)
Definition shardedMatrix (rnd : string) (matrix : Matrix)
    (shardingConfig : ShardingConfig) : Matrix :=
  let copy := new_Matrix rnd (type matrix) (JSON_matinfo (lhs matrix))
                (JSON_matinfo (rhs matrix)) (JSON_outinfo (output matrix)) in
  let l :=
    match lhsShardDim shardingConfig with
    | Some k =>
        {| shape := array_set (shape (lhs copy)) k
                      (shard (shape (lhs matrix)) k (numDevices shardingConfig));
           mat_dtype := mat_dtype (lhs copy) |}
    | None => lhs copy
    end in
  let r :=
    match rhsShardDim shardingConfig with
    | Some k =>
        {| shape := array_set (shape (rhs copy)) k
                      (shard (shape (rhs matrix)) k (numDevices shardingConfig));
           mat_dtype := mat_dtype (rhs copy) |}
    | None => rhs copy
    end in
  {| id := id copy; lhs := l; rhs := r; type := type copy; output := output copy |}.

(** [lhsShardDim === 1 || rhsShardDim === 0] *)
Definition reduction_sharded (shardingConfig : ShardingConfig) : bool :=
  match lhsShardDim shardingConfig with Some 1%Z => true | _ => false end
  || match rhsShardDim shardingConfig with Some 0%Z => true | _ => false end.

(** The constant [outputBytes] local to the communication branch, with its
    inline table of element widths. *)
Definition comm_outputBytes (matrix : Matrix) : number :=
  let B := array_get (shape (lhs matrix)) 0 in
  let F := array_get (shape (rhs matrix)) 1 in
  B * F * (if dtype_eqb (out_dtype (output matrix)) bf16 then $2
           else if dtype_eqb (out_dtype (output matrix)) fp32 then $4 else $1).

(** [push c s rs]: [if (c) { rs.push(s) }] *)
Definition push (c : bool) (s : string) (rs : list string) : list string :=
  if c then (rs ++ [s])%list else rs.
End Shared.

(** Decimal rendering of an integer, for the template strings. *)
Definition show (z : Z) : string := NilZero.string_of_int (Z.to_int z).

(* ================================================================== *)
(** * class TPUv5e                                                     *)
(* ================================================================== *)

Module TPUv5e.
Section TPUv5e.
Context {N : Number}.
Local Open Scope js_scope.

Record MxuUtilization : Type := {
  lhsUtilization : number;
  rhsUtilizationRows : number;
  rhsUtilizationCols : number
}.

Record VmemMetrics : Type := {
  fitsInVMEM : bool;
  vmemComputeTime : number;
  vmemMemoryTime : number;
  vmemTotalTime : number;
  vmemSpeedup : number
}.

Record TPUNodeMetrics : Type := {
  totalFLOPs : number;
  bytes : MatrixBytes;
  arithmeticIntensity : number;
  peakHardwareIntensity : number;
  isComputeBound : bool;
  computeTime : number;
  memoryTime : number;
  lowerBoundTime : number;
  upperBoundTime : number;
  mxuUtilization : MxuUtilization;
  vmemMetrics : VmemMetrics
}.

Record TPUMultiNodeMetrics : Type := {
  perDeviceMetrics : TPUNodeMetrics;
  communicationCost : number;
  totalTime : number;
  speedupOverSingleDevice : number;
  shardingEfficiency : number
}.

Record Metrics : Type := {
  singleNode : TPUNodeMetrics;
  multiNode : option TPUMultiNodeMetrics
}.

Record Analysis : Type := {
  m : TPUNodeMetrics;
  r : list string;
  d : RooflineData
}.

(** The fields of the class.  The tile dimensions are integer constants
    and are kept as integers, so that the template string of the padding
    advice can print them; [$] injects them where the source computes with
    them.  The unused field [models] is left out. *)
Record t : Type := {
  name : string;
  type_ : string;
  flopsPerSecondBF16 : number;
  flopsPerSecondINT8 : number;
  hbmCapacity : number;
  hbmBandwidth : number;
  vmemCapacity : number;
  vmemBandwidth : number;
  iciOnewayBandwidth : number;
  iciBidiBandwidth : number;
  pcieBandwidth : number;
  dcnBandwidth : number;
  mxuDimensions : Z * Z;
  coresPerChip : number;
  iciTopology : string;
  maxPodSize : Z * Z;
  iciHopLatency : number;
  matrices : list Matrix
}.

Definition constructor : t :=
  {| name := "TPU v5e";
     type_ := "TPU";
     flopsPerSecondBF16 := lit 197 12;       (* 1.97e14 *)
     flopsPerSecondINT8 := lit 394 12;       (* 3.94e14 *)
     hbmCapacity := lit 16 9;                (* 16e9 *)
     hbmBandwidth := lit 81 10;              (* 8.1e11 *)
     vmemCapacity := lit 128 6;              (* 128e6 *)
     vmemBandwidth := lit 178 11;            (* 1.78e13 *)
     iciOnewayBandwidth := lit 45 9;         (* 4.5e10 *)
     iciBidiBandwidth := lit 9 10;           (* 9e10 *)
     pcieBandwidth := lit 15 9;              (* 1.5e10 *)
     dcnBandwidth := lit 25 9;               (* 2.5e10 *)
     mxuDimensions := (128, 128)%Z;
     coresPerChip := $1;
     iciTopology := "2D";
     maxPodSize := (16, 16)%Z;
     iciHopLatency := lit 1 (-6);            (* 1e-6 *)
     matrices := [] |}.

Definition with_matrices (this : t) (ms : list Matrix) : t :=
  {| name := name this; type_ := type_ this;
     flopsPerSecondBF16 := flopsPerSecondBF16 this;
     flopsPerSecondINT8 := flopsPerSecondINT8 this;
     hbmCapacity := hbmCapacity this; hbmBandwidth := hbmBandwidth this;
     vmemCapacity := vmemCapacity this; vmemBandwidth := vmemBandwidth this;
     iciOnewayBandwidth := iciOnewayBandwidth this;
     iciBidiBandwidth := iciBidiBandwidth this;
     pcieBandwidth := pcieBandwidth this; dcnBandwidth := dcnBandwidth this;
     mxuDimensions := mxuDimensions this; coresPerChip := coresPerChip this;
     iciTopology := iciTopology this; maxPodSize := maxPodSize this;
     iciHopLatency := iciHopLatency this;
     matrices := ms |}.

(** [addMatrix] pushes the new matrix and returns its id; the updated
    object comes back with it. *)
Definition addMatrix (this : t) (rnd : string) (ty : operation)
    (l r : matinfo) (o : outinfo) : t * string :=
  let matrix := new_Matrix rnd ty l r o in
  (with_matrices this (matrices this ++ [matrix]), id matrix).

Definition _calculateSingleNodeMetrics (this : t) (matrix : Matrix)
    : result TPUNodeMetrics :=
  let B := array_get (shape (lhs matrix)) 0 in
  let D := array_get (shape (lhs matrix)) 1 in
  let F := array_get (shape (rhs matrix)) 1 in
  let bytes := calculateBytes matrix in
  totalFLOPs <- calculateFLOPs matrix ;;
  arithmeticIntensity <- calculateArithmeticIntensity matrix ;;
  let flopsPerSecond :=
    if dtype_eqb (mat_dtype (lhs matrix)) int8
    then flopsPerSecondINT8 this else flopsPerSecondBF16 this in
  let peakHardwareIntensity := flopsPerSecond / hbmBandwidth this in
  let isComputeBound := arithmeticIntensity >? peakHardwareIntensity in
  let computeTime := totalFLOPs / flopsPerSecond in
  let memoryTime := totalBytes bytes / hbmBandwidth this in
  let mxuUtilization :=
    {| lhsUtilization := utilization B $(fst (mxuDimensions this));
       rhsUtilizationRows := utilization D $(fst (mxuDimensions this));
       rhsUtilizationCols := utilization F $(snd (mxuDimensions this)) |} in
  let fitsInVMEM := LHSBytes bytes + RHSBytes bytes <=? vmemCapacity this in
  let vmemComputeTime := computeTime in
  let vmemMemoryTime := totalBytes bytes / vmemBandwidth this in
  let vmemTotalTime := Math_max vmemComputeTime vmemMemoryTime in
  let vmemMetrics :=
    {| fitsInVMEM := fitsInVMEM;
       vmemComputeTime := vmemComputeTime;
       vmemMemoryTime := vmemMemoryTime;
       vmemTotalTime := vmemTotalTime;
       vmemSpeedup := memoryTime / vmemMemoryTime |} in
  let lowerBoundTime := Math_max computeTime memoryTime in
  let upperBoundTime := computeTime + memoryTime in
  Ok {| totalFLOPs := totalFLOPs;
        bytes := bytes;
        arithmeticIntensity := arithmeticIntensity;
        peakHardwareIntensity := peakHardwareIntensity;
        isComputeBound := isComputeBound;
        computeTime := computeTime;
        memoryTime := memoryTime;
        lowerBoundTime := lowerBoundTime;
        upperBoundTime := upperBoundTime;
        mxuUtilization := mxuUtilization;
        vmemMetrics := vmemMetrics |}.

(** The variable [communicationCost] of [_calculateMultiNodeMetrics]:
    it starts at 0 and is assigned in the branch of the reduction axis. *)
Definition comm_cost (this : t) (matrix : Matrix)
    (shardingConfig : ShardingConfig) : number :=
  if reduction_sharded shardingConfig then
    let outputBytes := comm_outputBytes matrix in
    let steps := Math_log2 (numDevices shardingConfig) in
    (outputBytes / $2) * steps / iciBidiBandwidth this
  else $0.

Definition _calculateMultiNodeMetrics (this : t) (rnd : string)
    (matrix : Matrix) (shardingConfig : ShardingConfig)
    : result TPUMultiNodeMetrics :=
  let sharded := shardedMatrix rnd matrix shardingConfig in
  perDeviceMetrics <- _calculateSingleNodeMetrics this sharded ;;
  let communicationCost := comm_cost this matrix shardingConfig in
  whole <- _calculateSingleNodeMetrics this matrix ;;
  Ok {| perDeviceMetrics := perDeviceMetrics;
        communicationCost := communicationCost;
        totalTime := Math_max (lowerBoundTime perDeviceMetrics) communicationCost;
        speedupOverSingleDevice :=
          lowerBoundTime whole /
          Math_max (lowerBoundTime perDeviceMetrics) communicationCost;
        shardingEfficiency :=
          lowerBoundTime perDeviceMetrics /
          Math_max (lowerBoundTime perDeviceMetrics) communicationCost |}.

Definition performanceMetrics (this : t) (rnd : string) (Id : string)
    (mN : bool) (sC : option ShardingConfig) : result Metrics :=
  match find_matrix (matrices this) Id with
  | None => Throw (NotFound Id)
  | Some matrix =>
      if mN && match sC with None => true | Some _ => false end
      then Throw MissingConfiguration
      else
        singleNodeMetrics <- _calculateSingleNodeMetrics this matrix ;;
        match mN, sC with
        | true, Some sC' =>
            multiNodeMetrics <- _calculateMultiNodeMetrics this rnd matrix sC' ;;
            Ok {| singleNode := singleNodeMetrics;
                  multiNode := Some multiNodeMetrics |}
        | _, _ =>
            Ok {| singleNode := singleNodeMetrics; multiNode := None |}
        end
  end.

Definition padding_advice (this : t) : string :=
  "Consider padding matrix dimensions to multiples of MXU dimensions ("
  ++ show (fst (mxuDimensions this)) ++ "x" ++ show (snd (mxuDimensions this))
  ++ ") to improve hardware utilization.".

Definition _generateRecommendations (this : t) (matrix : Matrix)
    (metrics : TPUNodeMetrics) : list string :=
  let recommendations := [] in
  let recommendations :=
    if negb (isComputeBound metrics) then
      let rs := push true
        "Operation is memory-bound. Consider increasing batch size to improve arithmetic intensity."
        recommendations in
      let rs := push (dtype_eqb (mat_dtype (lhs matrix)) bf16
                      && dtype_eqb (mat_dtype (rhs matrix)) bf16)
        "Consider using int8 quantization for weights to reduce memory bandwidth requirements."
        rs in
      push (fitsInVMEM (vmemMetrics metrics))
        "Consider using VMEM to store weights for higher bandwidth access."
        rs
    else recommendations in
  let recommendations :=
    push ((lhsUtilization (mxuUtilization metrics) <? lit 9 (-1))
          || (rhsUtilizationRows (mxuUtilization metrics) <? lit 9 (-1))
          || (rhsUtilizationCols (mxuUtilization metrics) <? lit 9 (-1)))
      (padding_advice this) recommendations in
  let B := array_get (shape (lhs matrix)) 0 in
  let recommendations :=
    push ((B <? $240) && dtype_eqb (mat_dtype (lhs matrix)) bf16)
      "For bf16 matmul on TPU, batch size should be at least 240 to be compute-bound."
      recommendations in
  push (List.length recommendations =? 0)%nat "No recommendations!" recommendations.

Definition _generateRooflineData (fuel : nat) (this : t) (matrix : Matrix)
    (metrics : TPUNodeMetrics) : option RooflineData :=
  let peakFlops :=
    if dtype_eqb (mat_dtype (lhs matrix)) int8
    then flopsPerSecondINT8 this else flopsPerSecondBF16 this in
  match sample fuel peakFlops (hbmBandwidth this)
          (peakHardwareIntensity metrics) $(-1) [] with
  | None => None
  | Some intensityPoints =>
      let matrixPoint :=
        {| mp_intensity := arithmeticIntensity metrics;
           mp_achievableFlops :=
             if isComputeBound metrics then peakFlops
             else hbmBandwidth this * arithmeticIntensity metrics;
           isCurrentMatrix := true |} in
      Some {| intensityPoints := intensityPoints;
              matrixPoint := matrixPoint;
              rd_peakHardwareIntensity := peakHardwareIntensity metrics;
              rd_peakFlops := peakFlops |}
  end.

(** [analyze]; [None] when the sampling loop runs out of [fuel]. *)
Definition analyze (fuel : nat) (this : t) (matrixId : string)
    : option (result Analysis) :=
  match find_matrix (matrices this) matrixId with
  | None => Some (Throw (NotFound matrixId))
  | Some matrix =>
      match _calculateSingleNodeMetrics this matrix with
      | Throw e => Some (Throw e)
      | Ok m =>
          let r := _generateRecommendations this matrix m in
          match _generateRooflineData fuel this matrix m with
          | None => None
          | Some d => Some (Ok {| m := m; r := r; d := d |})
          end
      end
  end.
End TPUv5e.
End TPUv5e.

(* ================================================================== *)
(** * class H100                                                       *)
(* ================================================================== *)

Module H100.
Section H100.
Context {N : Number}.
Local Open Scope js_scope.

Record TensorCoreUtilization : Type := {
  mUtilization : number;
  nUtilization : number;
  kUtilization : number
}.

Record GPUNodeMetrics : Type := {
  totalFLOPs : number;
  bytes : MatrixBytes;
  arithmeticIntensity : number;
  peakHardwareIntensity : number;
  isComputeBound : bool;
  computeTime : number;
  memoryTime : number;
  effectiveMemoryTime : number;
  lowerBoundTime : number;
  upperBoundTime : number;
  tensorCoreUtilization : TensorCoreUtilization;
  smOccupancy : number;
  canFitWeightsInL2 : bool;
  l2CacheBenefit : number
}.

Record GPUMultiNodeMetrics : Type := {
  perDeviceMetrics : GPUNodeMetrics;
  communicationCost : number;
  totalTime : number;
  speedupOverSingleDevice : number;
  shardingEfficiency : number;
  scalingEfficiency : number
}.

Record Metrics : Type := {
  singleNode : GPUNodeMetrics;
  multiNode : option GPUMultiNodeMetrics
}.

Record Analysis : Type := {
  m : GPUNodeMetrics;
  r : list string;
  d : RooflineData
}.

(** The fields of the class; the tensor-core tile is kept as integers, as
    the MXU tile of [TPUv5e.t] is, and [models] is left out. *)
Record t : Type := {
  name : string;
  type_ : string;
  flopsPerSecondBF16 : number;
  flopsPerSecondINT8 : number;
  flopsPerSecondBF16Sparse : number;
  flopsPerSecondFP32 : number;
  flopsPerSecondFP8 : number;
  hbmCapacity : number;
  hbmBandwidth : number;
  l2CacheSize : number;
  sharedMemoryPerSM : number;
  nvlinkBandwidth : number;
  pcieBandwidth : number;
  tensorCoreConfig : Z * Z * Z;
  smCount : number;
  maxGpusPerNode : number;
  nvlinkTopology : string;
  nvlinkLatency : number;
  pcieLatency : number;
  matrices : list Matrix
}.

Definition constructor : t :=
  {| name := "NVIDIA H100 SXM5";
     type_ := "GPU";
     flopsPerSecondBF16 := lit 989 12;          (* 9.89e14 *)
     flopsPerSecondBF16Sparse := lit 1979 12;   (* 1.979e15 *)
     flopsPerSecondFP32 := lit 67 12;           (* 6.7e13 *)
     flopsPerSecondINT8 := lit 1979 12;         (* 1.979e15 *)
     flopsPerSecondFP8 := lit 3958 12;          (* 3.958e15 *)
     hbmCapacity := lit 80 9;                   (* 80e9 *)
     hbmBandwidth := lit 335 10;                (* 3.35e12 *)
     l2CacheSize := lit 50 6;                   (* 50e6 *)
     sharedMemoryPerSM := lit 228 3;            (* 228e3 *)
     nvlinkBandwidth := lit 9 10 * $18;         (* 9e10 * 18 *)
     pcieBandwidth := lit 8 10;                 (* 8e10 *)
     tensorCoreConfig := (4, 4, 16)%Z;
     smCount := $132;
     maxGpusPerNode := $256;
     nvlinkTopology := "all-to-all";
     nvlinkLatency := lit 5 (-7);               (* 0.5e-6 *)
     pcieLatency := lit 2 (-6);                 (* 2e-6 *)
     matrices := [] |}.

Definition with_matrices (this : t) (ms : list Matrix) : t :=
  {| name := name this; type_ := type_ this;
     flopsPerSecondBF16 := flopsPerSecondBF16 this;
     flopsPerSecondINT8 := flopsPerSecondINT8 this;
     flopsPerSecondBF16Sparse := flopsPerSecondBF16Sparse this;
     flopsPerSecondFP32 := flopsPerSecondFP32 this;
     flopsPerSecondFP8 := flopsPerSecondFP8 this;
     hbmCapacity := hbmCapacity this; hbmBandwidth := hbmBandwidth this;
     l2CacheSize := l2CacheSize this;
     sharedMemoryPerSM := sharedMemoryPerSM this;
     nvlinkBandwidth := nvlinkBandwidth this;
     pcieBandwidth := pcieBandwidth this;
     tensorCoreConfig := tensorCoreConfig this;
     smCount := smCount this; maxGpusPerNode := maxGpusPerNode this;
     nvlinkTopology := nvlinkTopology this;
     nvlinkLatency := nvlinkLatency this; pcieLatency := pcieLatency this;
     matrices := ms |}.

Definition addMatrix (this : t) (rnd : string) (ty : operation)
    (l r : matinfo) (o : outinfo) : t * string :=
  let matrix := new_Matrix rnd ty l r o in
  (with_matrices this (matrices this ++ [matrix]), id matrix).

(** The [switch (matrix.lhs.dtype)] of the single-device metrics and of the
    roofline data. *)
Definition flopsPerSecond_of (this : t) (dt : dtype) : number :=
  match dt with
  | bf16 => flopsPerSecondBF16 this
  | fp32 => flopsPerSecondFP32 this
  | int8 => flopsPerSecondINT8 this
  | fp8 => flopsPerSecondFP8 this
  | _ => flopsPerSecondBF16 this
  end.

Definition _calculateSingleNodeMetrics (this : t) (matrix : Matrix)
    : result GPUNodeMetrics :=
  let B := array_get (shape (lhs matrix)) 0 in
  let D := array_get (shape (lhs matrix)) 1 in
  let F := array_get (shape (rhs matrix)) 1 in
  let bytes := calculateBytes matrix in
  totalFLOPs <- calculateFLOPs matrix ;;
  arithmeticIntensity <- calculateArithmeticIntensity matrix ;;
  let flopsPerSecond := flopsPerSecond_of this (mat_dtype (lhs matrix)) in
  let peakHardwareIntensity := flopsPerSecond / hbmBandwidth this in
  let isComputeBound := arithmeticIntensity >? peakHardwareIntensity in
  let computeTime := totalFLOPs / flopsPerSecond in
  let memoryTime := totalBytes bytes / hbmBandwidth this in
  let tcM := $(fst (fst (tensorCoreConfig this))) in
  let tcN := $(snd (fst (tensorCoreConfig this))) in
  let tcK := $(snd (tensorCoreConfig this)) in
  let tensorCoreUtilization :=
    {| mUtilization := utilization B tcM;
       nUtilization := utilization F tcN;
       kUtilization := utilization D tcK |} in
  let warpsPerSM := $64 in
  let threadsPerWarp := $32 in
  let threadsPerBlock := $256 in
  let blocksPerSM :=
    Math_min $16 (Math_floor (warpsPerSM * threadsPerWarp / threadsPerBlock)) in
  let blocksNeeded := Math_ceil (B / $32) * Math_ceil (F / $32) in
  let smOccupancy := Math_min $1 (blocksNeeded / (blocksPerSM * smCount this)) in
  let canFitWeightsInL2 := RHSBytes bytes <=? l2CacheSize this in
  let l2CacheBenefit := if canFitWeightsInL2 then lit 15 (-1) else $1 in
  let effectiveMemoryTime := memoryTime / l2CacheBenefit in
  let lowerBoundTime := Math_max computeTime effectiveMemoryTime in
  let upperBoundTime := computeTime + effectiveMemoryTime in
  Ok {| totalFLOPs := totalFLOPs;
        bytes := bytes;
        arithmeticIntensity := arithmeticIntensity;
        peakHardwareIntensity := peakHardwareIntensity;
        isComputeBound := isComputeBound;
        computeTime := computeTime;
        memoryTime := memoryTime;
        effectiveMemoryTime := effectiveMemoryTime;
        lowerBoundTime := lowerBoundTime;
        upperBoundTime := upperBoundTime;
        tensorCoreUtilization := tensorCoreUtilization;
        smOccupancy := smOccupancy;
        canFitWeightsInL2 := canFitWeightsInL2;
        l2CacheBenefit := l2CacheBenefit |}.

(** The variable [communicationCost] of [_calculateMultiNodeMetrics]. *)
Definition comm_cost (this : t) (matrix : Matrix)
    (shardingConfig : ShardingConfig) : number :=
  if reduction_sharded shardingConfig then
    let outputBytes := comm_outputBytes matrix in
    if numDevices shardingConfig <=? maxGpusPerNode this then
      let steps := Math_log2 (numDevices shardingConfig) in
      (outputBytes / $2) * steps / nvlinkBandwidth this
    else
      let nodesNeeded :=
        Math_ceil (numDevices shardingConfig / maxGpusPerNode this) in
      let intraNodeSteps := Math_log2 (maxGpusPerNode this) in
      let interNodeSteps := Math_log2 nodesNeeded in
      let intraNodeCost :=
        (outputBytes / $2) * intraNodeSteps / nvlinkBandwidth this in
      let interNodeCost :=
        (outputBytes / nodesNeeded) * interNodeSteps / pcieBandwidth this in
      intraNodeCost + interNodeCost
  else $0.

Definition _calculateMultiNodeMetrics (this : t) (rnd : string)
    (matrix : Matrix) (shardingConfig : ShardingConfig)
    : result GPUMultiNodeMetrics :=
  let sharded := shardedMatrix rnd matrix shardingConfig in
  perDeviceMetrics <- _calculateSingleNodeMetrics this sharded ;;
  let communicationCost := comm_cost this matrix shardingConfig in
  whole <- _calculateSingleNodeMetrics this matrix ;;
  whole' <- _calculateSingleNodeMetrics this matrix ;;
  Ok {| perDeviceMetrics := perDeviceMetrics;
        communicationCost := communicationCost;
        totalTime := Math_max (lowerBoundTime perDeviceMetrics) communicationCost;
        speedupOverSingleDevice :=
          lowerBoundTime whole /
          Math_max (lowerBoundTime perDeviceMetrics) communicationCost;
        shardingEfficiency :=
          lowerBoundTime perDeviceMetrics /
          Math_max (lowerBoundTime perDeviceMetrics) communicationCost;
        scalingEfficiency :=
          (lowerBoundTime whole' /
           Math_max (lowerBoundTime perDeviceMetrics) communicationCost) /
          numDevices shardingConfig |}.

Definition performanceMetrics (this : t) (rnd : string) (matrixId : string)
    (multiNode : bool) (shardingConfig : option ShardingConfig)
    : result Metrics :=
  match find_matrix (matrices this) matrixId with
  | None => Throw (NotFound matrixId)
  | Some matrix =>
      if multiNode && match shardingConfig with None => true | Some _ => false end
      then Throw MissingConfiguration
      else
        singleNodeMetrics <- _calculateSingleNodeMetrics this matrix ;;
        match multiNode, shardingConfig with
        | true, Some sC =>
            multiNodeMetrics <- _calculateMultiNodeMetrics this rnd matrix sC ;;
            Ok {| singleNode := singleNodeMetrics;
                  multiNode := Some multiNodeMetrics |}
        | _, _ =>
            Ok {| singleNode := singleNodeMetrics; multiNode := None |}
        end
  end.

Definition padding_advice (this : t) : string :=
  "Consider padding matrix dimensions to multiples of tensor core dimensions ("
  ++ show (fst (fst (tensorCoreConfig this))) ++ "x"
  ++ show (snd (fst (tensorCoreConfig this))) ++ "x"
  ++ show (snd (tensorCoreConfig this))
  ++ ") to improve hardware utilization.".

Definition _generateRecommendations (this : t) (matrix : Matrix)
    (metrics : GPUNodeMetrics) : list string :=
  let recommendations := [] in
  let recommendations :=
    if negb (isComputeBound metrics) then
      let rs := push true
        "Operation is memory-bound. Consider increasing batch size to improve arithmetic intensity."
        recommendations in
      let rs := push (dtype_eqb (mat_dtype (lhs matrix)) bf16
                             && dtype_eqb (mat_dtype (rhs matrix)) bf16)
        "Consider using FP8 precision to reduce memory bandwidth requirements and increase compute throughput."
        rs in
      push true
        "Consider using structured sparsity to potentially double compute throughput."
        rs
    else recommendations in
  let recommendations :=
    push
      ((mUtilization (tensorCoreUtilization metrics) <? lit 9 (-1))
       || (nUtilization (tensorCoreUtilization metrics) <? lit 9 (-1))
       || (kUtilization (tensorCoreUtilization metrics) <? lit 9 (-1)))
      (padding_advice this) recommendations in
  let B := array_get (shape (lhs matrix)) 0 in
  let recommendations :=
    push ((B <? $300) && dtype_eqb (mat_dtype (lhs matrix)) bf16)
      "For bf16 matmul on H100, batch size should be at least 300 to be compute-bound."
      recommendations in
  let recommendations :=
    push
      (negb (B mod $32 === $0)
       || negb (array_get (shape (rhs matrix)) 1 mod $32 === $0)
       || negb (array_get (shape (lhs matrix)) 1 mod $16 === $0))
      "For optimal CUDA kernel performance, consider using dimensions that are multiples of 32 for M and N, and 16 for K."
      recommendations in
  push (List.length recommendations =? 0)%nat "No recommendations!"
    recommendations.

Definition _generateRooflineData (fuel : nat) (this : t) (matrix : Matrix)
    (metrics : GPUNodeMetrics) : option RooflineData :=
  let flopsPerSecond := flopsPerSecond_of this (mat_dtype (lhs matrix)) in
  match sample fuel flopsPerSecond (hbmBandwidth this)
          (peakHardwareIntensity metrics) $(-1) [] with
  | None => None
  | Some intensityPoints =>
      let matrixPoint :=
        {| mp_intensity := arithmeticIntensity metrics;
           mp_achievableFlops :=
             if isComputeBound metrics then flopsPerSecond
             else hbmBandwidth this * arithmeticIntensity metrics;
           isCurrentMatrix := true |} in
      Some {| intensityPoints := intensityPoints;
              matrixPoint := matrixPoint;
              rd_peakHardwareIntensity := peakHardwareIntensity metrics;
              rd_peakFlops := flopsPerSecond |}
  end.

Definition analyze (fuel : nat) (this : t) (matrixId : string)
    : option (result Analysis) :=
  match find_matrix (matrices this) matrixId with
  | None => Some (Throw (NotFound matrixId))
  | Some matrix =>
      match _calculateSingleNodeMetrics this matrix with
      | Throw e => Some (Throw e)
      | Ok m =>
          let r := _generateRecommendations this matrix m in
          match _generateRooflineData fuel this matrix m with
          | None => None
          | Some d => Some (Ok {| m := m; r := r; d := d |})
          end
      end
  end.
End H100.
End H100.

(* ================================================================== *)
(** * The instance [binary64]                                          *)
(* ================================================================== *)

(** The operations of [Number] on IEEE 754 double-precision floats.
    [+], [*], [/] and the comparisons are the kernel's primitives; the rest
    is computed exactly on the integer mantissa and exponent of the
    argument, and converted back without rounding. *)
Module B64.

(** An integer, rounded to nearest-even when it has more than 53 bits. *)
Definition of_Z (z : Z) : float :=
  SF2Prim (binary_normalize prec emax z 0 false).

(** [Math.ceil]: a float with a nonnegative exponent is an integer already;
    otherwise the ceiling of [±m·2^e] is taken in [Z].  The sign of the
    argument is kept when the result is zero ([Math.ceil(-0.5)] is [-0]). *)
Definition ceil (x : float) : float :=
  match Prim2SF x with
  | S754_finite s m e =>
      if (0 <=? e)%Z then x
      else SF2Prim (binary_normalize prec emax
                      (- ((- cond_Zopp s (Zpos m)) / 2 ^ (- e)))%Z 0 s)
  | _ => x
  end.

Definition floor (x : float) : float :=
  match Prim2SF x with
  | S754_finite s m e =>
      if (0 <=? e)%Z then x
      else SF2Prim (binary_normalize prec emax
                      (cond_Zopp s (Zpos m) / 2 ^ (- e))%Z 0 s)
  | _ => x
  end.

(** [n % d]: the remainder of the truncating division, with the sign of the
    dividend; it is exact.  NaN when the dividend is infinite or the divisor
    is zero. *)
Definition rem (n d : float) : float :=
  match Prim2SF n, Prim2SF d with
  | S754_nan, _ | _, S754_nan => nan
  | S754_infinity _, _ => nan
  | _, S754_zero _ => nan
  | S754_zero _, _ => n
  | S754_finite _ _ _, S754_infinity _ => n
  | S754_finite sn mn en, S754_finite _ md ed =>
      let e := Z.min en ed in
      let a := (Zpos mn * 2 ^ (en - e))%Z in
      let b := (Zpos md * 2 ^ (ed - e))%Z in
      SF2Prim (binary_normalize prec emax (cond_Zopp sn (Z.rem a b)) e sn)
  end.

(** [Math.max] and [Math.min]: NaN when an argument is NaN, and -0 is below
    +0. *)
Definition max (a b : float) : float :=
  if (is_nan a || is_nan b)%bool then nan
  else if PrimFloat.ltb a b then b
  else if PrimFloat.ltb b a then a
  else if (is_zero a && get_sign a)%bool then b else a.

Definition min (a b : float) : float :=
  if (is_nan a || is_nan b)%bool then nan
  else if PrimFloat.ltb a b then a
  else if PrimFloat.ltb b a then b
  else if (is_zero a && get_sign a)%bool then a else b.

End B64.

(** [log2] and [pow] stand for the host's [Math.log2] and [Math.pow]. *)
Definition binary64 (log2 : float -> float) (pow : float -> float -> float)
    : Number :=
  {| number := float;
     of_Z := B64.of_Z;
     add := PrimFloat.add;
     mul := PrimFloat.mul;
     div := PrimFloat.div;
     rem := B64.rem;
     eqb := PrimFloat.eqb;
     ltb := PrimFloat.ltb;
     leb := PrimFloat.leb;
     Math_max := B64.max;
     Math_min := B64.min;
     Math_ceil := B64.ceil;
     Math_floor := B64.floor;
     Math_log2 := log2;
     Math_pow := pow |}.

(* ================================================================== *)
(** * The instance [exact]                                             *)
(* ================================================================== *)

(** Truncation toward zero. *)
Definition Qtrunc (q : Q) : Z := Z.quot (Qnum q) (Zpos (Qden q)).

Definition Qrem (x y : Q) : Q := (x - y * inject_Z (Qtrunc (x / y)))%Q.

(** The rationals.  [/] is [Qdiv], which yields 0 on a zero divisor.
    [log2] and [pow] stand for the real functions, which leave the
    rationals. *)
Definition exact (log2 : Q -> Q) (pow : Q -> Q -> Q) : Number :=
  {| number := Q;
     of_Z := inject_Z;
     add := Qplus;
     mul := Qmult;
     div := Qdiv;
     rem := Qrem;
     eqb := Qeq_bool;
     ltb := fun x y => negb (Qle_bool y x);
     leb := Qle_bool;
     Math_max := Qmax;
     Math_min := Qmin;
     Math_ceil := fun x => inject_Z (Qceiling x);
     Math_floor := fun x => inject_Z (Qfloor x);
     Math_log2 := log2;
     Math_pow := pow |}.

(** A closed choice of the two host functions, for the worked examples over
    [exact]: [Qlog2] is exact on the powers of two (where the step count of
    the communication model is a whole number) and [Qpow] on the integer
    exponents. *)
Definition Qlog2 (q : Q) : Q :=
  (inject_Z (Z.log2 (Qnum q)) - inject_Z (Z.log2 (Zpos (Qden q))))%Q.

Definition Qpow (b i : Q) : Q := Qpower b (Qfloor i).

Definition exact0 : Number := exact Qlog2 Qpow.

(** A closed choice of the two host functions for the worked examples on
    doubles.  The paths evaluated there call neither [Math.log2] nor
    [Math.pow], so the choice does not show in their results. *)
Definition binary64_0 : Number := binary64 (fun x => x) (fun x _ => x).

(** The operation [B x D] times [D' x F] with the given element types. *)
Definition operation_of {N : Number} (rnd : string) (ty : operation)
    (B D D' F : number) (dl dr dout : dtype) : Matrix :=
  new_Matrix rnd ty {| shape := [B; D]; mat_dtype := dl |}
    {| shape := [D'; F]; mat_dtype := dr |} {| out_dtype := dout |}.

(** The two classes as constructed, holding the matrices [ms]. *)
Definition tpu_of {N : Number} (ms : list Matrix) : TPUv5e.t :=
  TPUv5e.with_matrices TPUv5e.constructor ms.

Definition gpu_of {N : Number} (ms : list Matrix) : H100.t :=
  H100.with_matrices H100.constructor ms.

(** Inputs of the worked examples: three bf16 operations, a TPU and an
    H100 that registered them in this order, and a configuration of four
    devices that shards the reduction axis of both operands. *)
Definition square {N : Number} : Matrix :=
  operation_of "m1" matmul $256 $256 $256 $256 bf16 bf16 bf16.

Definition ragged {N : Number} : Matrix :=
  operation_of "m2" matmul $100 $256 $256 $256 bf16 bf16 bf16.

Definition tiny {N : Number} : Matrix :=
  operation_of "m3" matmul $1 $1 $1 $1 bf16 bf16 bf16.

(** The bf16 multiplication of two [n x n] matrices. *)
Definition cube {N : Number} (n : number) : Matrix :=
  operation_of "m0" matmul n n n n bf16 bf16 bf16.

Definition example_ops {N : Number} : list Matrix := [square; ragged; tiny].

Definition example_tpu {N : Number} : TPUv5e.t :=
  let register (this : TPUv5e.t) (op : Matrix) :=
    fst (TPUv5e.addMatrix this (id op) (type op) (lhs op) (rhs op) (output op)) in
  register (register (register TPUv5e.constructor square) ragged) tiny.

Definition example_gpu {N : Number} : H100.t :=
  let register (this : H100.t) (op : Matrix) :=
    fst (H100.addMatrix this (id op) (type op) (lhs op) (rhs op) (output op)) in
  register (register (register H100.constructor square) ragged) tiny.

Definition example_sharding {N : Number} : ShardingConfig :=
  {| numDevices := $4; lhsShardDim := Some 1%Z; rhsShardDim := Some 0%Z |}.

(** [x] is an exact multiple of the tiling unit. *)
Definition multiple (x unit : Q) : Prop :=
  exists k : Z, (x == inject_Z k * unit)%Q.

(** What the specification says of a tiling-utilization fraction [u] of the
    dimension [x]: 1 on an exact multiple of the unit, and otherwise
    [x / (ceil(x / unit) * unit)]. *)
Definition tiling_law (x unit u : Q) : Prop :=
  (multiple x unit -> (u == 1)%Q) /\
  (~ multiple x unit -> (u == x / (inject_Z (Qceiling (x / unit)) * unit))%Q).

(** A shard dimension of a configuration names a dimension of its operand,
    or none. *)
Definition names_dimension (k : option Z) : Prop :=
  k = None \/ k = Some 0%Z \/ k = Some 1%Z.

(** An identifier is registered when some stored matrix carries it. *)
Definition registered {N : Number} (ms : list Matrix) (Id : string) : Prop :=
  exists mx, In mx ms /\ id mx = Id.

(* ================================================================== *)
(** * The page and its chart                                           *)
(* ================================================================== *)

(** The operations on numbers that the page ([+page.svelte]) and the chart
    component ([form.svelte]) use beyond those of the engine. *)
Class Number_ui (N : Number) : Type := {
  sub : number -> number -> number;         (* x - y *)
  Math_abs : number -> number;
  Math_round : number -> number
}.

Infix "-" := sub : js_scope.
Notation "x >=? y" := (leb y x) (at level 70, no associativity, only parsing) : js_scope.

Module B64_ui.

(** [Math.round]: the nearest integer, a tie going toward +infinity.  A
    float with a nonnegative exponent is an integer already; otherwise
    [floor(x + 1/2)] is taken in [Z], on the mantissa.  The sign of the
    argument is kept when the result is zero ([Math.round(-0.2)] is [-0]). *)
Definition round (x : float) : float :=
  match Prim2SF x with
  | S754_finite s m e =>
      if (0 <=? e)%Z then x
      else SF2Prim (binary_normalize prec emax
                      ((2 * cond_Zopp s (Zpos m) + 2 ^ (- e)) / 2 ^ (1 - e))%Z 0 s)
  | _ => x
  end.

End B64_ui.

Definition binary64_ui (log2 : float -> float) (pow : float -> float -> float)
    : Number_ui (binary64 log2 pow) :=
  @Build_Number_ui (binary64 log2 pow) PrimFloat.sub PrimFloat.abs
    B64_ui.round.

Definition exact_ui (log2 : Q -> Q) (pow : Q -> Q -> Q)
    : Number_ui (exact log2 pow) :=
  @Build_Number_ui (exact log2 pow) Qminus Qabs.Qabs
    (fun x => inject_Z (Qfloor (x + (1 # 2)))).

Definition exact0_ui : Number_ui exact0 := exact_ui Qlog2 Qpow.

(* ---------------------------------------------------------------- *)
(** ** +page.svelte *)

Module Page.
Section Page.
Context {N : Number} {U : Number_ui N}.
Local Open Scope js_scope.

(** The pair [[value, unit]] under which a duration is displayed. *)
Definition convertSecondsToSmallerOrLargerUnits (seconds : number)
    : number * string :=
  if Math_abs seconds >=? $86400 then (Math_round (seconds / $86400), "days")
  else if Math_abs seconds >=? $3600 then (Math_round (seconds / $3600), "hrs")
  else if Math_abs seconds >=? $60 then (Math_round (seconds / $60), "min")
  else if Math_abs seconds >=? $1 then (Math_round seconds, "s")
  else
    let nanoseconds := seconds * lit 1 9 in
    let microseconds := seconds * lit 1 6 in
    let milliseconds := seconds * lit 1 3 in
    if negb (Math_round milliseconds === $0) then (Math_round milliseconds, "ms")
    else if negb (Math_round microseconds === $0)
         then (Math_round microseconds, "μs")
         else (Math_round nanoseconds, "ns").

(** The variables of the page's script. *)
Record state : Type := {
  totalFLOPs : number;
  numdevices : number;
  machine : string;
  format : dtype;
  hardwareIntensity : number;
  arithmeticIntensity : number;
  recommendations : list string;
  analyseIspressed : bool;
  aShape : list number;
  bShape : list number;
  sharddim : list number;
  memoryTime : number * string;
  computeTime : number * string
}.

(** Their initial values. *)
Definition initial : state :=
  {| totalFLOPs := $0;
     numdevices := $1;
     machine := "H100";
     format := bf16;
     hardwareIntensity := $0;
     arithmeticIntensity := $0;
     recommendations := [""];
     analyseIspressed := false;
     aShape := [$0; $0];
     bShape := [$0; $0];
     sharddim := [$0; $0];
     memoryTime := ($0, "s");
     computeTime := ($0, "s") |}.

(** The handler of the Analyse button.  [rnd] is the id drawn for the
    registered operation and [fuel] bounds the sampling loop of the
    roofline data, as in [H100.analyze]. *)
Definition analyse (fuel : nat) (rnd : string) (st : state)
    : option (result state) :=
  let lhs := {| shape := aShape st; mat_dtype := format st |} in
  let rhs := {| shape := bShape st; mat_dtype := format st |} in
  if String.eqb (machine st) "H100" then
    let h100 := H100.constructor in
    let (h100, id) :=
      H100.addMatrix h100 rnd matmul lhs rhs {| out_dtype := format st |} in
    match H100.analyze fuel h100 id with
    | None => None
    | Some (Throw e) => Some (Throw e)
    | Some (Ok a) =>
        Some (Ok
          {| totalFLOPs := H100.totalFLOPs (H100.m a);
             numdevices := numdevices st;
             machine := machine st;
             format := format st;
             hardwareIntensity :=
               Math_round (H100.peakHardwareIntensity (H100.m a));
             arithmeticIntensity :=
               Math_round (H100.arithmeticIntensity (H100.m a));
             recommendations := H100.r a;
             analyseIspressed := true;
             aShape := aShape st;
             bShape := bShape st;
             sharddim := sharddim st;
             memoryTime :=
               convertSecondsToSmallerOrLargerUnits (H100.memoryTime (H100.m a));
             computeTime :=
               convertSecondsToSmallerOrLargerUnits (H100.computeTime (H100.m a)) |})
    end
  else Some (Ok st).
End Page.
End Page.

(* ---------------------------------------------------------------- *)
(** ** form.svelte: the chart *)

Module Chart.
Section Chart.
Context {N : Number} {U : Number_ui N}.
Local Open Scope js_scope.

(** The exported properties [width], [height] and [padding]. *)
Record props : Type := {
  width : number;
  height : number;
  padding : number
}.

(** Their default values. *)
Definition default : props :=
  {| width := $400; height := $300; padding := $40 |}.

Definition graphWidth (p : props) : number := width p - padding p * $2.
Definition graphHeight (p : props) : number := height p - padding p * $2.

(** [Math.max(...array)]: -Infinity on no argument; with arguments, the
    largest, and NaN if one of them is NaN.  [Math.max(-Infinity, x)] is
    [x], so the fold starts at the first argument. *)
Definition Math_max_spread (array : list number) : number :=
  match array with
  | [] => $(-1) / $0
  | x :: rest => fold_left Math_max rest x
  end.

Definition Math_min_spread (array : list number) : number :=
  match array with
  | [] => $1 / $0
  | x :: rest => fold_left Math_min rest x
  end.

(** [x || 1]: a number is falsy when it is 0, -0 or NaN. *)
Definition or_1 (x : number) : number :=
  if (x === $0) || negb (x === x) then $1 else x.

Definition getMaxValue (array : list number) : number :=
  or_1 (Math_max_spread array).

Definition getMinValue (array : list number) : number :=
  Math_min_spread array.

Definition scaleY (p : props) (value max min : number) : number :=
  graphHeight p - ((value - min) / (max - min)) * graphHeight p.

Definition scaleX (p : props) (index length : number) : number :=
  (index / (length - $1)) * graphWidth p.

Record circle : Type := {
  cx : number;
  cy : number;
  r : number;
  fill : string
}.

(** [data.map((value, i) => f(value, i))], from the index [i] on. *)
Fixpoint map_index {A B : Type} (f : A -> nat -> B) (i : nat) (data : list A)
    : list B :=
  match data with
  | [] => []
  | value :: rest => f value i :: map_index f (S i) rest
  end.

Definition createCircles (p : props) (data : list number) (color : string)
    : list circle :=
  if (List.length data =? 0)%nat then []
  else
    let max := getMaxValue data in
    let min := getMinValue data in
    map_index
      (fun value i =>
         let x := padding p + scaleX p $(Z.of_nat i) $(Z.of_nat (List.length data)) in
         let y := padding p + scaleY p value max min in
         {| cx := x; cy := y; r := $4; fill := color |})
      0 data.
End Chart.
End Chart.


(** What the sampling loop stores in a point: the peak [pk], the roof
    [min(pk, bw * intensity)] and the flag [intensity < ridge]. *)
Definition sampled {N : Number} (pk bw ridge : number) (p : IntensityPoint)
    : Prop :=
  peakFlops p = pk /\
  achievableFlops p = Math_min pk (bw * intensity p)%js /\
  memoryBound p = (intensity p <? ridge)%js.

(** Roofline data over the rationals are consistent when: the ridge is the
    peak over the memory bandwidth [bw]; the point of the operation is on
    the roof; so is every sample, which carries the peak of the data and is
    flagged memory-bound exactly when it lies below that peak. *)
Definition consistent (log2 : Q -> Q) (pow : Q -> Q -> Q) (bw : Q)
    (rd : @RooflineData (exact log2 pow)) : Prop :=
  (rd_peakHardwareIntensity rd == rd_peakFlops rd / bw)%Q /\
  (mp_achievableFlops (matrixPoint rd)
   == Qmin (rd_peakFlops rd) (bw * mp_intensity (matrixPoint rd)))%Q /\
  Forall (fun p =>
            peakFlops p = rd_peakFlops rd /\
            (achievableFlops p == Qmin (peakFlops p) (bw * intensity p))%Q /\
            (memoryBound p = true <-> (achievableFlops p < peakFlops p)%Q) /\
            (memoryBound p = true ->
             (achievableFlops p == bw * intensity p)%Q) /\
            (memoryBound p = false -> (achievableFlops p == peakFlops p)%Q))
         (intensityPoints rd).

(** A configuration that names no dimension. *)
Definition unsharded {N : Number} (n : number) : ShardingConfig :=
  {| numDevices := n; lhsShardDim := None; rhsShardDim := None |}.

(** The length in seconds of the units in which the page displays a
    duration. *)
Definition seconds_in (unit : string) : Q :=
  if String.eqb unit "days" then 86400
  else if String.eqb unit "hrs" then 3600
  else if String.eqb unit "min" then 60
  else if String.eqb unit "s" then 1
  else if String.eqb unit "ms" then 1 # 1000
  else if String.eqb unit "μs" then 1 # 1000000
  else if String.eqb unit "ns" then 1 # 1000000000
  else 0.

(** The whole number nearest to [q], a tie going up. *)
Definition nearest (q : Q) : Z := Qfloor (q + (1 # 2)).

(* ================================================================== *)
(** * Theorems: FLOP count and error conditions                        *)
(* ================================================================== *)

Lemma find_matrix_unregistered {N : Number} (ms : list Matrix) (Id : string) :
  ~ registered ms Id -> find_matrix ms Id = None.
Proof.
  intros Hno. unfold find_matrix.
  destruct (find (fun mx => String.eqb (id mx) Id) ms) as [mx|] eqn:Hfind; [|reflexivity].
  apply find_some in Hfind. destruct Hfind as [Hin Heq].
  apply String.eqb_eq in Heq. exfalso. apply Hno. exists mx. split; assumption.
Qed.

Lemma find_matrix_registered {N : Number} (ms : list Matrix) (Id : string) :
  registered ms Id -> exists mx, find_matrix ms Id = Some mx /\ id mx = Id.
Proof.
  intros [mx [Hin Hid]]. unfold find_matrix.
  destruct (find (fun mx => String.eqb (id mx) Id) ms) as [mx'|] eqn:Hfind.
  - exists mx'. split; [reflexivity|].
    apply find_some in Hfind. apply String.eqb_eq. apply Hfind.
  - exfalso. apply (find_none _ _ Hfind) in Hin.
    rewrite Hid, String.eqb_refl in Hin. discriminate.
Qed.

(** Registration: [addMatrix] on a freshly constructed or already filled
    object appends the operation, returns the id drawn for it, and that id
    is registered afterwards. *)
Lemma TPU_addMatrix {N : Number} (ms : list Matrix) (rnd : string)
    (ty : operation) (l r : matinfo) (o : outinfo) :
  TPUv5e.addMatrix (tpu_of ms) rnd ty l r o
  = (tpu_of (ms ++ [new_Matrix rnd ty l r o]), rnd)
  /\ registered (ms ++ [new_Matrix rnd ty l r o]) rnd.
Proof.
  split; [reflexivity|].
  exists (new_Matrix rnd ty l r o). split; [|reflexivity].
  apply in_or_app. right. left. reflexivity.
Qed.

Lemma H100_addMatrix {N : Number} (ms : list Matrix) (rnd : string)
    (ty : operation) (l r : matinfo) (o : outinfo) :
  H100.addMatrix (gpu_of ms) rnd ty l r o
  = (gpu_of (ms ++ [new_Matrix rnd ty l r o]), rnd)
  /\ registered (ms ++ [new_Matrix rnd ty l r o]) rnd.
Proof.
  split; [reflexivity|].
  exists (new_Matrix rnd ty l r o). split; [|reflexivity].
  apply in_or_app. right. left. reflexivity.
Qed.

(** C1. A matrix multiplication of a [B x D] by a [D' x F] operand has
    [calculateFLOPs() = 2*B*D*F]; an operation of any other kind makes
    [calculateFLOPs] throw the unsupported-operation error, and no value is
    returned.  This holds over every number system. *)
Theorem calculateFLOPs_matmul_only :
  forall (N : Number) (rnd : string) (ty : operation) (B D D' F : number)
         (dl dr dout : dtype),
    (ty = matmul ->
     calculateFLOPs (operation_of rnd ty B D D' F dl dr dout)
     = Ok ($2 * B * D * F)%js) /\
    (ty <> matmul ->
     calculateFLOPs (operation_of rnd ty B D D' F dl dr dout)
     = Throw UnsupportedOperation).
Proof.
  intros N rnd ty B D D' F dl dr dout. unfold calculateFLOPs. cbn.
  split; intros Hty.
  - subst ty. reflexivity.
  - destruct (String.eqb ty "matmul") eqn:E; [|reflexivity].
    apply String.eqb_eq in E. contradiction.
Qed.

Lemma calculateFLOPs_matmul_only_witness :
  @calculateFLOPs exact0
    (@operation_of exact0 "m1" matmul 256%Q 256%Q 256%Q 256%Q bf16 bf16 bf16)
  = Ok (2 * 256 * 256 * 256)%Q.
Proof.
  apply (proj1 (calculateFLOPs_matmul_only exact0 "m1" matmul
                  256%Q 256%Q 256%Q 256%Q bf16 bf16 bf16)).
  reflexivity.
Defined.

(** C8. In both classes [performanceMetrics] and [analyze] throw the
    not-found error when the identifier is not registered, whatever the other
    arguments are; and [performanceMetrics] throws the missing-configuration
    error when a registered operation is analysed for several devices without
    a sharding configuration.  A thrown error carries no metrics. *)
Theorem lookup_and_configuration_errors :
  forall (N : Number) (tpu : TPUv5e.t) (gpu : H100.t) (rnd Id : string),
    (~ registered (TPUv5e.matrices tpu) Id ->
     (forall mN sC, TPUv5e.performanceMetrics tpu rnd Id mN sC = Throw (NotFound Id)) /\
     (forall fuel, TPUv5e.analyze fuel tpu Id = Some (Throw (NotFound Id)))) /\
    (~ registered (H100.matrices gpu) Id ->
     (forall mN sC, H100.performanceMetrics gpu rnd Id mN sC = Throw (NotFound Id)) /\
     (forall fuel, H100.analyze fuel gpu Id = Some (Throw (NotFound Id)))) /\
    (registered (TPUv5e.matrices tpu) Id ->
     TPUv5e.performanceMetrics tpu rnd Id true None = Throw MissingConfiguration) /\
    (registered (H100.matrices gpu) Id ->
     H100.performanceMetrics gpu rnd Id true None = Throw MissingConfiguration).
Proof.
  intros N tpu gpu rnd Id. split; [|split; [|split]].
  - intros Hno. apply find_matrix_unregistered in Hno. split.
    + intros mN sC. unfold TPUv5e.performanceMetrics. rewrite Hno. reflexivity.
    + intros fuel. unfold TPUv5e.analyze. rewrite Hno. reflexivity.
  - intros Hno. apply find_matrix_unregistered in Hno. split.
    + intros mN sC. unfold H100.performanceMetrics. rewrite Hno. reflexivity.
    + intros fuel. unfold H100.analyze. rewrite Hno. reflexivity.
  - intros Hreg. apply find_matrix_registered in Hreg as [mx [Hfind _]].
    unfold TPUv5e.performanceMetrics. rewrite Hfind. reflexivity.
  - intros Hreg. apply find_matrix_registered in Hreg as [mx [Hfind _]].
    unfold H100.performanceMetrics. rewrite Hfind. reflexivity.
Qed.

(* ================================================================== *)
(** * Theorems that hold over every number system                      *)
(* ================================================================== *)

(** Opens a hypothesis [_calculateSingleNodeMetrics this matrix = Ok m] of
    either class: the operation is a matmul, and [m] is the record the
    function builds. *)
Ltac open_single H :=
  unfold TPUv5e._calculateSingleNodeMetrics, H100._calculateSingleNodeMetrics,
         calculateArithmeticIntensity, calculateFLOPs, bind in H;
  let E := fresh "Ematmul" in
  destruct (String.eqb (type _) "matmul") eqn:E in H;
  [ cbn [negb] in H; injection H as H; subst | discriminate H ].

(** Opens a hypothesis [_calculateMultiNodeMetrics this rnd matrix sC = Ok mm]
    of either class. *)
Ltac open_multi H :=
  unfold TPUv5e._calculateMultiNodeMetrics, H100._calculateMultiNodeMetrics in H;
  unfold bind at 1 in H;
  let per := fresh "per" in
  let Eper := fresh "Eper" in
  match type of H with
  | match ?c with _ => _ end = _ => destruct c as [per|] eqn:Eper; [|discriminate H]
  end;
  repeat (unfold bind at 1 in H;
          match type of H with
          | match ?c with _ => _ end = _ =>
              let w := fresh "whole" in
              let Ew := fresh "Ewhole" in
              destruct c as [w|] eqn:Ew; [|discriminate H]
          end);
  injection H as H; subst.


Lemma reduction_sharded_iff {N : Number} (sC : ShardingConfig) :
  reduction_sharded sC = true <->
  (lhsShardDim sC = Some 1%Z \/ rhsShardDim sC = Some 0%Z).
Proof.
  unfold reduction_sharded. rewrite orb_true_iff. split.
  - intros [H | H].
    + left. destruct (lhsShardDim sC) as [[|[p|p|]|]|]; try discriminate H. reflexivity.
    + right. destruct (rhsShardDim sC) as [[| |]|]; try discriminate H. reflexivity.
  - intros [H | H]; rewrite H; [left | right]; reflexivity.
Qed.

(** The communication cost reported by the TPU is the value of [comm_cost],
    and so is the one reported by the H100. *)
Lemma TPU_communicationCost {N : Number} (tpu : TPUv5e.t) (rnd : string)
    (matrix : Matrix) (sC : ShardingConfig) (mm : TPUv5e.TPUMultiNodeMetrics) :
  TPUv5e._calculateMultiNodeMetrics tpu rnd matrix sC = Ok mm ->
  TPUv5e.communicationCost mm = TPUv5e.comm_cost tpu matrix sC.
Proof. intros H. open_multi H. reflexivity. Qed.

Lemma H100_communicationCost {N : Number} (gpu : H100.t) (rnd : string)
    (matrix : Matrix) (sC : ShardingConfig) (mm : H100.GPUMultiNodeMetrics) :
  H100._calculateMultiNodeMetrics gpu rnd matrix sC = Ok mm ->
  H100.communicationCost mm = H100.comm_cost gpu matrix sC.
Proof. intros H. open_multi H. reflexivity. Qed.

(** A matrix multiplication always has single-device metrics. *)
Lemma TPU_single_returns {N : Number} (tpu : TPUv5e.t) (matrix : Matrix) :
  type matrix = matmul ->
  exists m, TPUv5e._calculateSingleNodeMetrics tpu matrix = Ok m.
Proof.
  intros Hty. unfold TPUv5e._calculateSingleNodeMetrics,
    calculateArithmeticIntensity, calculateFLOPs, bind.
  rewrite Hty. cbn. eexists. reflexivity.
Qed.

Lemma H100_single_returns {N : Number} (gpu : H100.t) (matrix : Matrix) :
  type matrix = matmul ->
  exists m, H100._calculateSingleNodeMetrics gpu matrix = Ok m.
Proof.
  intros Hty. unfold H100._calculateSingleNodeMetrics,
    calculateArithmeticIntensity, calculateFLOPs, bind.
  rewrite Hty. cbn. eexists. reflexivity.
Qed.

(** A multi-device request that returns: the identifier is registered, and
    the result holds the single-device metrics of the registered operation
    and the multi-device metrics computed from it. *)
Lemma TPU_multi_request {N : Number} (tpu : TPUv5e.t) (rnd Id : string)
    (sC : ShardingConfig) (res : TPUv5e.Metrics) :
  TPUv5e.performanceMetrics tpu rnd Id true (Some sC) = Ok res ->
  exists matrix mm,
    find_matrix (TPUv5e.matrices tpu) Id = Some matrix
    /\ TPUv5e._calculateSingleNodeMetrics tpu matrix = Ok (TPUv5e.singleNode res)
    /\ TPUv5e._calculateMultiNodeMetrics tpu rnd matrix sC = Ok mm
    /\ TPUv5e.multiNode res = Some mm.
Proof.
  unfold TPUv5e.performanceMetrics. intros H.
  destruct (find_matrix (TPUv5e.matrices tpu) Id) as [matrix|]; [|discriminate H].
  cbn [andb] in H.
  destruct (TPUv5e._calculateSingleNodeMetrics tpu matrix) as [single|] eqn:Esingle;
    [|discriminate H].
  cbn [bind] in H.
  destruct (TPUv5e._calculateMultiNodeMetrics tpu rnd matrix sC) as [mm|] eqn:Emulti;
    [|discriminate H].
  cbn [bind] in H. injection H as H. subst res.
  exists matrix, mm. cbn. auto.
Qed.

Lemma H100_multi_request {N : Number} (gpu : H100.t) (rnd Id : string)
    (sC : ShardingConfig) (res : H100.Metrics) :
  H100.performanceMetrics gpu rnd Id true (Some sC) = Ok res ->
  exists matrix mm,
    find_matrix (H100.matrices gpu) Id = Some matrix
    /\ H100._calculateSingleNodeMetrics gpu matrix = Ok (H100.singleNode res)
    /\ H100._calculateMultiNodeMetrics gpu rnd matrix sC = Ok mm
    /\ H100.multiNode res = Some mm.
Proof.
  unfold H100.performanceMetrics. intros H.
  destruct (find_matrix (H100.matrices gpu) Id) as [matrix|]; [|discriminate H].
  cbn [andb] in H.
  destruct (H100._calculateSingleNodeMetrics gpu matrix) as [single|] eqn:Esingle;
    [|discriminate H].
  cbn [bind] in H.
  destruct (H100._calculateMultiNodeMetrics gpu rnd matrix sC) as [mm|] eqn:Emulti;
    [|discriminate H].
  cbn [bind] in H. injection H as H. subst res.
  exists matrix, mm. cbn. auto.
Qed.

(** A multi-device request on a registered matrix multiplication returns,
    in both classes. *)
Lemma TPU_request_returns {N : Number} (tpu : TPUv5e.t) (rnd Id : string)
    (matrix : Matrix) (sC : ShardingConfig) :
  find_matrix (TPUv5e.matrices tpu) Id = Some matrix ->
  type matrix = matmul ->
  exists res, TPUv5e.performanceMetrics tpu rnd Id true (Some sC) = Ok res.
Proof.
  intros Hfind Hty.
  destruct (TPU_single_returns tpu matrix Hty) as [whole Hwhole].
  destruct (TPU_single_returns tpu (shardedMatrix rnd matrix sC) Hty)
    as [per Hper].
  unfold TPUv5e.performanceMetrics. rewrite Hfind. cbn [andb].
  rewrite Hwhole. cbn [bind].
  unfold TPUv5e._calculateMultiNodeMetrics. rewrite Hper. cbn [bind].
  rewrite Hwhole. cbn [bind]. eexists. reflexivity.
Qed.

Lemma H100_request_returns {N : Number} (gpu : H100.t) (rnd Id : string)
    (matrix : Matrix) (sC : ShardingConfig) :
  find_matrix (H100.matrices gpu) Id = Some matrix ->
  type matrix = matmul ->
  exists res, H100.performanceMetrics gpu rnd Id true (Some sC) = Ok res.
Proof.
  intros Hfind Hty.
  destruct (H100_single_returns gpu matrix Hty) as [whole Hwhole].
  destruct (H100_single_returns gpu (shardedMatrix rnd matrix sC) Hty)
    as [per Hper].
  unfold H100.performanceMetrics. rewrite Hfind. cbn [andb].
  rewrite Hwhole. cbn [bind].
  unfold H100._calculateMultiNodeMetrics. rewrite Hper. cbn [bind].
  rewrite Hwhole. cbn [bind]. eexists. reflexivity.
Qed.

(** C3. In a multi-device request the communication cost is 0 unless the
    configuration shards the columns of the left operand ([lhsShardDim = 1])
    or the rows of the right operand ([rhsShardDim = 0]).  When it does, and
    so whenever the cost is not 0, the cost is
    [(outputBytes / 2) * log2(numDevices) / bandwidth] on the TPU, with the
    ICI bandwidth, and on the H100 with the NVLink bandwidth when
    [numDevices <= maxGpusPerNode]; [outputBytes] is [B * F] times the element
    width, with [B] and [F] read from the registered operation and not from
    its sharded copy.  The request returns for every registered matrix
    multiplication. *)
Theorem communication_cost_only_on_reduction_axis :
  forall (N : Number) (tpu : TPUv5e.t) (gpu : H100.t) (rnd rnd0 Id : string)
         (ty : operation) (B D D' F : number) (dl dr dout : dtype)
         (sC : ShardingConfig),
    let matrix := operation_of rnd0 ty B D D' F dl dr dout in
    let reduction := lhsShardDim sC = Some 1%Z \/ rhsShardDim sC = Some 0%Z in
    let outputBytes :=
      (B * F * (match dout with bf16 => $2 | fp32 => $4 | _ => $1 end))%js in
    (find_matrix (TPUv5e.matrices tpu) Id = Some matrix ->
     (ty = matmul ->
      exists res, TPUv5e.performanceMetrics tpu rnd Id true (Some sC) = Ok res) /\
     forall res,
       TPUv5e.performanceMetrics tpu rnd Id true (Some sC) = Ok res ->
       exists mm,
         TPUv5e.multiNode res = Some mm /\
         (~ reduction -> TPUv5e.communicationCost mm = $0%js) /\
         (reduction ->
          TPUv5e.communicationCost mm
          = ((outputBytes / $2) * Math_log2 (numDevices sC)
             / TPUv5e.iciBidiBandwidth tpu)%js) /\
         (TPUv5e.communicationCost mm <> $0%js ->
          reduction /\
          TPUv5e.communicationCost mm
          = ((outputBytes / $2) * Math_log2 (numDevices sC)
             / TPUv5e.iciBidiBandwidth tpu)%js)) /\
    (find_matrix (H100.matrices gpu) Id = Some matrix ->
     (ty = matmul ->
      exists res, H100.performanceMetrics gpu rnd Id true (Some sC) = Ok res) /\
     forall res,
       H100.performanceMetrics gpu rnd Id true (Some sC) = Ok res ->
       exists mm,
         H100.multiNode res = Some mm /\
         (~ reduction -> H100.communicationCost mm = $0%js) /\
         (reduction ->
          (numDevices sC <=? H100.maxGpusPerNode gpu)%js = true ->
          H100.communicationCost mm
          = ((outputBytes / $2) * Math_log2 (numDevices sC)
             / H100.nvlinkBandwidth gpu)%js) /\
         (H100.communicationCost mm <> $0%js ->
          (numDevices sC <=? H100.maxGpusPerNode gpu)%js = true ->
          reduction /\
          H100.communicationCost mm
          = ((outputBytes / $2) * Math_log2 (numDevices sC)
             / H100.nvlinkBandwidth gpu)%js)).
Proof.
  intros N tpu gpu rnd rnd0 Id ty B D D' F dl dr dout sC matrix reduction outputBytes.
  assert (Hbytes : comm_outputBytes matrix = outputBytes).
  { unfold comm_outputBytes, outputBytes, matrix. cbn. destruct dout; reflexivity. }
  split; intros Hfind; (split; [intros Hty | intros res Hres]).
  - exact (@TPU_request_returns N tpu rnd Id matrix sC Hfind Hty).
  - apply TPU_multi_request in Hres as (matrix' & mm & Hfind' & _ & Hmm & Hmulti).
    rewrite Hfind in Hfind'. injection Hfind' as <-.
    exists mm. split; [exact Hmulti|].
    rewrite (TPU_communicationCost _ _ _ _ Hmm). unfold TPUv5e.comm_cost.
    destruct (reduction_sharded sC) eqn:Hred.
    + rewrite Hbytes. apply reduction_sharded_iff in Hred.
      split; [|split].
      * intros Hno. contradiction.
      * intros _. reflexivity.
      * intros _. split; [exact Hred | reflexivity].
    + split; [|split].
      * intros _. reflexivity.
      * intros Hyes. apply reduction_sharded_iff in Hyes.
        rewrite Hyes in Hred. discriminate Hred.
      * intros Hne. exfalso. apply Hne. reflexivity.
  - exact (@H100_request_returns N gpu rnd Id matrix sC Hfind Hty).
  - apply H100_multi_request in Hres as (matrix' & mm & Hfind' & _ & Hmm & Hmulti).
    rewrite Hfind in Hfind'. injection Hfind' as <-.
    exists mm. split; [exact Hmulti|].
    rewrite (H100_communicationCost _ _ _ _ Hmm). unfold H100.comm_cost.
    destruct (reduction_sharded sC) eqn:Hred.
    + rewrite Hbytes. apply reduction_sharded_iff in Hred.
      split; [|split].
      * intros Hno. contradiction.
      * intros _ Hle. rewrite Hle. reflexivity.
      * intros _ Hle. rewrite Hle. split; [exact Hred | reflexivity].
    + split; [|split].
      * intros _. reflexivity.
      * intros Hyes. apply reduction_sharded_iff in Hyes.
        rewrite Hyes in Hred. discriminate Hred.
      * intros Hne. exfalso. apply Hne. reflexivity.
Qed.

(** C10. In the communication cost of both classes the output bytes are
    [B * F] times a width read from an inline table: 2 for bf16, 4 for fp32
    and 1 for every other output type.  [calculateBytes] takes 0.5 bytes for
    an int4 element, so for an int4 output the communication cost is charged
    [B * F * 1] bytes, which over the rationals is twice the output bytes of
    [calculateBytes]. *)
Theorem communication_width_table :
  (forall (N : Number) (tpu : TPUv5e.t) (gpu : H100.t) (rnd rnd0 : string)
          (ty : operation) (B D D' F : number) (dl dr dout : dtype)
          (sC : ShardingConfig),
     let matrix := operation_of rnd0 ty B D D' F dl dr dout in
     let width := match dout with bf16 => $2 | fp32 => $4 | _ => $1 end%js in
     comm_outputBytes matrix = (B * F * width)%js /\
     (reduction_sharded sC = true ->
      (forall mm, TPUv5e._calculateMultiNodeMetrics tpu rnd matrix sC = Ok mm ->
         TPUv5e.communicationCost mm
         = ((B * F * width / $2) * Math_log2 (numDevices sC)
            / TPUv5e.iciBidiBandwidth tpu)%js) /\
      (forall mm, H100._calculateMultiNodeMetrics gpu rnd matrix sC = Ok mm ->
         (numDevices sC <=? H100.maxGpusPerNode gpu)%js = true ->
         H100.communicationCost mm
         = ((B * F * width / $2) * Math_log2 (numDevices sC)
            / H100.nvlinkBandwidth gpu)%js)) /\
     (dout = int4 ->
      comm_outputBytes matrix = (B * F * $1)%js /\
      outputBytes (calculateBytes matrix) = (B * F * lit 5 (-1))%js)) /\
  (forall (log2 : Q -> Q) (pow : Q -> Q -> Q) (rnd0 : string) (ty : operation)
          (B D D' F : Q) (dl dr : dtype),
     let matrix := @operation_of (exact log2 pow) rnd0 ty B D D' F dl dr int4 in
     (comm_outputBytes matrix == 2 * outputBytes (calculateBytes matrix))%Q).
Proof.
  split.
  - intros N tpu gpu rnd rnd0 ty B D D' F dl dr dout sC matrix width.
    assert (Hbytes : comm_outputBytes matrix = (B * F * width)%js).
    { unfold comm_outputBytes, width, matrix. cbn. destruct dout; reflexivity. }
    split; [exact Hbytes|]. split.
    + intros Hred. split.
      * intros mm Hmm. rewrite (TPU_communicationCost _ _ _ _ Hmm).
        unfold TPUv5e.comm_cost. rewrite Hred, Hbytes. reflexivity.
      * intros mm Hmm Hle. rewrite (H100_communicationCost _ _ _ _ Hmm).
        unfold H100.comm_cost. rewrite Hred, Hle, Hbytes. reflexivity.
    + intros Hdt. subst dout. split; [exact Hbytes | reflexivity].
  - intros log2 pow rnd0 ty B D D' F dl dr matrix.
    unfold comm_outputBytes, calculateBytes, matrix. cbn.
    unfold lit. cbn. field.
Qed.

(** The quantities of a single-device analysis of the operation
    [B x D] times [D' x F], written out. *)
Lemma TPU_single_formulas {N : Number} (tpu : TPUv5e.t) (rnd : string)
    (ty : operation) (B D D' F : number) (dl dr dout : dtype)
    (m : TPUv5e.TPUNodeMetrics) :
  TPUv5e._calculateSingleNodeMetrics tpu (operation_of rnd ty B D D' F dl dr dout)
  = Ok m ->
  let fps := if dtype_eqb dl int8 then TPUv5e.flopsPerSecondINT8 tpu
             else TPUv5e.flopsPerSecondBF16 tpu in
  let total := ($1 * B * D * bytesPerElement dl
                + $1 * D' * F * bytesPerElement dr
                + B * F * bytesPerElement dout)%js in
  ty = matmul /\
  totalBytes (TPUv5e.bytes m) = total /\
  TPUv5e.computeTime m = ($2 * B * D * F / fps)%js /\
  TPUv5e.memoryTime m = (total / TPUv5e.hbmBandwidth tpu)%js /\
  TPUv5e.lowerBoundTime m
  = Math_max (TPUv5e.computeTime m) (TPUv5e.memoryTime m) /\
  TPUv5e.upperBoundTime m = (TPUv5e.computeTime m + TPUv5e.memoryTime m)%js /\
  TPUv5e.mxuUtilization m
  = {| TPUv5e.lhsUtilization := utilization B $(fst (TPUv5e.mxuDimensions tpu));
       TPUv5e.rhsUtilizationRows := utilization D $(fst (TPUv5e.mxuDimensions tpu));
       TPUv5e.rhsUtilizationCols := utilization F $(snd (TPUv5e.mxuDimensions tpu)) |}.
Proof.
  intros Hm. open_single Hm. apply String.eqb_eq in Ematmul. repeat split.
  exact Ematmul.
Qed.

Lemma H100_single_formulas {N : Number} (gpu : H100.t) (rnd : string)
    (ty : operation) (B D D' F : number) (dl dr dout : dtype)
    (m : H100.GPUNodeMetrics) :
  H100._calculateSingleNodeMetrics gpu (operation_of rnd ty B D D' F dl dr dout)
  = Ok m ->
  let fps := H100.flopsPerSecond_of gpu dl in
  let total := ($1 * B * D * bytesPerElement dl
                + $1 * D' * F * bytesPerElement dr
                + B * F * bytesPerElement dout)%js in
  ty = matmul /\
  totalBytes (H100.bytes m) = total /\
  H100.computeTime m = ($2 * B * D * F / fps)%js /\
  H100.memoryTime m = (total / H100.hbmBandwidth gpu)%js /\
  H100.effectiveMemoryTime m
  = (H100.memoryTime m
     / (if ($1 * D' * F * bytesPerElement dr <=? H100.l2CacheSize gpu)
        then lit 15 (-1) else $1))%js /\
  H100.lowerBoundTime m
  = Math_max (H100.computeTime m) (H100.effectiveMemoryTime m) /\
  H100.upperBoundTime m
  = (H100.computeTime m + H100.effectiveMemoryTime m)%js /\
  H100.tensorCoreUtilization m
  = {| H100.mUtilization := utilization B $(fst (fst (H100.tensorCoreConfig gpu)));
       H100.nUtilization := utilization F $(snd (fst (H100.tensorCoreConfig gpu)));
       H100.kUtilization := utilization D $(snd (H100.tensorCoreConfig gpu)) |}.
Proof.
  intros Hm. open_single Hm. apply String.eqb_eq in Ematmul. repeat split.
  exact Ematmul.
Qed.

Lemma push_keeps (c : bool) (s s' : string) (rs : list string) :
  In s rs -> In s (push c s' rs).
Proof.
  intros H. unfold push. destruct c; [|exact H].
  apply in_or_app. left. exact H.
Qed.

Lemma push_adds (s : string) (rs : list string) : In s (push true s rs).
Proof. unfold push. apply in_or_app. right. left. reflexivity. Qed.

(** The TPU advises padding as soon as the utilization of the left operand
    is below 0.9. *)
Lemma TPU_padding_advised {N : Number} (tpu : TPUv5e.t) (matrix : Matrix)
    (metrics : TPUv5e.TPUNodeMetrics) :
  (TPUv5e.lhsUtilization (TPUv5e.mxuUtilization metrics) <? lit 9 (-1))%js = true ->
  In (TPUv5e.padding_advice tpu)
     (TPUv5e._generateRecommendations tpu matrix metrics).
Proof.
  intros Hlow. unfold TPUv5e._generateRecommendations. cbv zeta.
  rewrite Hlow. cbn [orb].
  apply push_keeps. apply push_keeps. apply push_adds.
Qed.

Section PaddingOnDoubles.
Variable log2 : float -> float.
Variable pow : float -> float -> float.
Let N : Number := binary64 log2 pow.
Local Existing Instance N.

(** On doubles, for every operation with B = 100: the utilization of the
    left operand is the double 0.78125, and the TPU advises padding. *)
Lemma padding_advised_on_doubles (ms : list Matrix) (rnd : string)
    (ty : operation) (D D' F : float) (dl dr dout : dtype)
    (m : TPUv5e.TPUNodeMetrics) :
  TPUv5e._calculateSingleNodeMetrics (tpu_of ms)
    (operation_of rnd ty $100%js D D' F dl dr dout) = Ok m ->
  TPUv5e.lhsUtilization (TPUv5e.mxuUtilization m) = 0.78125%float
  /\ In "Consider padding matrix dimensions to multiples of MXU dimensions (128x128) to improve hardware utilization."
        (TPUv5e._generateRecommendations (tpu_of ms)
           (operation_of rnd ty $100%js D D' F dl dr dout) m).
Proof.
  intros Hm.
  pose proof (TPU_single_formulas _ _ _ _ _ _ _ _ _ _ Hm) as Hf. cbv zeta in Hf.
  destruct Hf as (_ & _ & _ & _ & _ & _ & Hu).
  assert (Hval : TPUv5e.lhsUtilization (TPUv5e.mxuUtilization m) = 0.78125%float).
  { rewrite Hu. vm_compute. reflexivity. }
  split; [exact Hval|].
  apply (TPU_padding_advised (tpu_of ms)). rewrite Hval. vm_compute. reflexivity.
Qed.

End PaddingOnDoubles.

(* ================================================================== *)
(** * Doubles: a maximum against a sum                                 *)
(* ================================================================== *)

(** NaN, in the terms of the specification of the primitive floats. *)
Lemma is_nan_iff (x : float) : is_nan x = true <-> Prim2SF x = S754_nan.
Proof.
  unfold is_nan. rewrite FloatAxioms.eqb_spec.
  destruct (Prim2SF x) as [s| s| |s m e]; cbn.
  - split; discriminate.
  - destruct s; split; discriminate.
  - split; reflexivity.
  - rewrite Z.compare_refl, Pos.compare_cont_refl.
    destruct s; split; discriminate.
Qed.

(** The number of binary digits of a positive integer. *)
Lemma digits2_bounds (p : positive) :
  (2 ^ (Zpos (digits2_pos p) - 1) <= Zpos p < 2 ^ Zpos (digits2_pos p))%Z.
Proof.
  induction p as [p IH | p IH |]; cbn [digits2_pos].
  - rewrite Pos2Z.inj_succ.
    replace (Z.succ (Zpos (digits2_pos p)) - 1)%Z
      with (Z.succ (Zpos (digits2_pos p) - 1)) by lia.
    rewrite !Z.pow_succ_r by lia. lia.
  - rewrite Pos2Z.inj_succ.
    replace (Z.succ (Zpos (digits2_pos p)) - 1)%Z
      with (Z.succ (Zpos (digits2_pos p) - 1)) by lia.
    rewrite !Z.pow_succ_r by lia. lia.
  - cbn. lia.
Qed.

(** A positive integer that is at least [p * 2^k] has at least [k] digits
    more than [p]. *)
Lemma digits2_above (p q : positive) (k : Z) :
  (0 <= k -> Zpos p * 2 ^ k <= Zpos q ->
   Zpos (digits2_pos p) + k <= Zpos (digits2_pos q))%Z.
Proof.
  intros Hk Hle.
  destruct (digits2_bounds p) as [Hp _]. destruct (digits2_bounds q) as [_ Hq].
  assert (H : (2 ^ (Zpos (digits2_pos p) - 1 + k) < 2 ^ Zpos (digits2_pos q))%Z).
  { rewrite Z.pow_add_r by lia.
    apply Z.le_lt_trans with (Zpos q); [|exact Hq].
    apply Z.le_trans with (Zpos p * 2 ^ k)%Z; [|exact Hle].
    apply Z.mul_le_mono_nonneg_r; [apply Z.pow_nonneg; lia | exact Hp]. }
  apply Z.pow_lt_mono_r_iff in H; lia.
Qed.

(** One step of the right shift halves a nonnegative mantissa; [p] steps
    divide it by [2^p]. *)
Lemma shr_1_m (mrs : shr_record) :
  (0 <= shr_m mrs -> shr_m (shr_1 mrs) = shr_m mrs / 2)%Z.
Proof.
  destruct mrs as [m r s]. cbn [shr_m]. intros Hm.
  destruct m as [|[q|q|]|q]; cbn [shr_1 shr_m].
  - reflexivity.
  - rewrite Pos2Z.inj_xI. apply Z.div_unique with 1%Z; lia.
  - rewrite Pos2Z.inj_xO. apply Z.div_unique with 0%Z; lia.
  - reflexivity.
  - lia.
Qed.

Lemma iter_shr_1_m (p : positive) (mrs : shr_record) :
  (0 <= shr_m mrs ->
   shr_m (iter_pos shr_1 p mrs) = shr_m mrs / 2 ^ Zpos p)%Z.
Proof.
  revert mrs. induction p as [p IH | p IH |]; intros mrs Hm; cbn [iter_pos].
  - assert (H1 : (0 <= shr_m (shr_1 mrs))%Z).
    { rewrite shr_1_m by exact Hm. apply Z.div_pos; lia. }
    assert (H2 : (0 <= shr_m (iter_pos shr_1 p (shr_1 mrs)))%Z).
    { rewrite IH by exact H1.
      apply Z.div_pos; [exact H1 | apply Z.pow_pos_nonneg; lia]. }
    rewrite IH by exact H2. rewrite IH by exact H1. rewrite shr_1_m by exact Hm.
    rewrite !Z.div_div by (try apply Z.pow_pos_nonneg; lia).
    f_equal. replace (Zpos p~1) with (1 + Zpos p + Zpos p)%Z by lia.
    rewrite !Z.pow_add_r by lia. lia.
  - assert (H2 : (0 <= shr_m (iter_pos shr_1 p mrs))%Z).
    { rewrite IH by exact Hm.
      apply Z.div_pos; [exact Hm | apply Z.pow_pos_nonneg; lia]. }
    rewrite IH by exact H2. rewrite IH by exact Hm.
    rewrite !Z.div_div by (try apply Z.pow_pos_nonneg; lia).
    f_equal. replace (Zpos p~0) with (Zpos p + Zpos p)%Z by lia.
    rewrite !Z.pow_add_r by lia. lia.
  - rewrite shr_1_m by exact Hm. reflexivity.
Qed.

Lemma shr_record_of_loc_m (m : Z) (l : location) :
  shr_m (shr_record_of_loc m l) = m.
Proof. destruct l as [|[| |]]; reflexivity. Qed.

(** The shift that brings a positive mantissa to its canonical exponent:
    the exponent does not decrease, the mantissa is divided by the power of
    two that the exponent gained, and it stays positive. *)
Lemma shr_fexp_spec (n : positive) (e : Z) (l : location) :
  (SpecFloat.emin prec emax <= e)%Z ->
  let e' := Z.max e (fexp prec emax (Zpos (digits2_pos n) + e)) in
  snd (shr_fexp prec emax (Zpos n) e l) = e' /\
  shr_m (fst (shr_fexp prec emax (Zpos n) e l)) = (Zpos n / 2 ^ (e' - e))%Z /\
  (0 < Zpos n / 2 ^ (e' - e))%Z.
Proof.
  intros Hmin e'. unfold shr_fexp, shr. cbn [Zdigits2].
  destruct (digits2_bounds n) as [Hlo Hhi].
  destruct (fexp prec emax (Zpos (digits2_pos n) + e) - e)%Z as [|d|d] eqn:Ed.
  - assert (He : e' = e) by (unfold e'; lia).
    rewrite He, Z.sub_diag. cbn [fst snd]. rewrite shr_record_of_loc_m.
    rewrite Z.div_1_r. repeat split; lia.
  - assert (He : e' = (e + Zpos d)%Z) by (unfold e'; lia).
    rewrite He. replace (e + Zpos d - e)%Z with (Zpos d) by lia.
    cbn [fst snd]. rewrite iter_shr_1_m by (rewrite shr_record_of_loc_m; lia).
    rewrite shr_record_of_loc_m. split; [reflexivity|]. split; [reflexivity|].
    assert (Hd : (Zpos d < Zpos (digits2_pos n))%Z).
    { unfold fexp, SpecFloat.emin, prec, emax in Ed, Hmin. lia. }
    apply Z.div_str_pos. split; [apply Z.pow_pos_nonneg; lia|].
    apply Z.le_trans with (2 ^ (Zpos (digits2_pos n) - 1))%Z; [|exact Hlo].
    apply Z.pow_le_mono_r; lia.
  - assert (He : e' = e) by (unfold e'; lia).
    rewrite He, Z.sub_diag. cbn [fst snd]. rewrite shr_record_of_loc_m.
    rewrite Z.div_1_r. repeat split; lia.
Qed.

Lemma round_nearest_even_bounds (m : Z) (l : location) :
  (m <= round_nearest_even m l <= m + 1)%Z.
Proof.
  destruct l as [|[| |]]; cbn [round_nearest_even]; try lia.
  destruct (Z.even m); lia.
Qed.

(** Rounding to nearest does not fall below a double that the rounded value
    is above: if [m * 2^ez] is at least the positive double [mx * 2^ex], so
    is the double that [m * 2^ez] is rounded to (or it is +infinity). *)
Lemma round_above (mx : positive) (ex : Z) (m : positive) (ez : Z) :
  bounded prec emax mx ex = true ->
  (SpecFloat.emin prec emax <= ez <= ex)%Z ->
  (Zpos mx * 2 ^ (ex - ez) <= Zpos m)%Z ->
  SFleb (S754_finite false mx ex) (binary_normalize prec emax (Zpos m) ez false)
  = true.
Proof.
  intros Hb [Hmin Hez] Hm.
  unfold bounded, canonical_mantissa in Hb.
  apply andb_true_iff in Hb. destruct Hb as [Hcan _]. apply Z.eqb_eq in Hcan.
  pose proof (@digits2_above mx m (ex - ez) ltac:(lia) Hm) as HD.
  assert (He : (ex <= fexp prec emax (Zpos (digits2_pos m) + ez))%Z).
  { unfold fexp in Hcan |- *. lia. }
  cbn [binary_normalize]. unfold binary_round, shl_align.
  assert (Hal : (let '(mz, ez0) :=
                   match (fexp prec emax (Zpos (digits2_pos m) + ez) - ez)%Z with
                   | Z.neg d =>
                       (Pos.iter xO m d, fexp prec emax (Zpos (digits2_pos m) + ez))
                   | _ => (m, ez)
                   end in binary_round_aux prec emax false (Zpos mz) ez0 loc_Exact)
                = binary_round_aux prec emax false (Zpos m) ez loc_Exact).
  { destruct (fexp prec emax (Zpos (digits2_pos m) + ez) - ez)%Z eqn:E;
      try reflexivity. lia. }
  rewrite Hal. clear Hal. unfold binary_round_aux.
  pose proof (@shr_fexp_spec m ez loc_Exact Hmin) as H1. cbv zeta in H1.
  destruct (shr_fexp prec emax (Zpos m) ez loc_Exact) as [mrs1 e1].
  cbn [fst snd] in H1. destruct H1 as (He1 & Hm1 & Hpos1).
  rewrite <- He1 in Hm1, Hpos1.
  pose proof (round_nearest_even_bounds (shr_m mrs1) (loc_of_shr_record mrs1)) as Hr.
  destruct (round_nearest_even (shr_m mrs1) (loc_of_shr_record mrs1)) as [|n|n];
    [lia | | lia].
  assert (Hmin1 : (SpecFloat.emin prec emax <= e1)%Z) by lia.
  pose proof (@shr_fexp_spec n e1 loc_Exact Hmin1) as H2. cbv zeta in H2.
  destruct (shr_fexp prec emax (Zpos n) e1 loc_Exact) as [mrs2 e2].
  cbn [fst snd] in H2. destruct H2 as (He2 & Hm2 & Hpos2).
  rewrite <- He2 in Hm2, Hpos2.
  destruct (shr_m mrs2) as [|k|k]; [lia | | lia].
  destruct (e2 <=? emax - prec)%Z; [|reflexivity].
  unfold SFleb, SFcompare.
  destruct (Z.compare_spec ex e2) as [Heq | Hlt | Hgt]; [|reflexivity|lia].
  assert (Hk : (Zpos mx <= Zpos k)%Z).
  { assert (E1 : e1 = ex) by lia. assert (E2 : e2 = e1) by lia.
    rewrite E2, Z.sub_diag, Z.div_1_r in Hm2.
    rewrite E1 in Hm1.
    assert (Zpos mx <= shr_m mrs1)%Z.
    { rewrite Hm1. apply Z.div_le_lower_bound; [apply Z.pow_pos_nonneg; lia | lia]. }
    lia. }
  change (Pos.compare_cont Eq mx k) with (Pos.compare mx k).
  destruct (Pos.compare_spec mx k); [reflexivity | reflexivity | lia].
Qed.

(** The mantissa that [shl_align] yields at a lower exponent. *)
Lemma shl_align_fst (mx : positive) (ex ez : Z) :
  (ez <= ex)%Z -> Zpos (fst (shl_align mx ex ez)) = (Zpos mx * 2 ^ (ex - ez))%Z.
Proof.
  intros Hle. unfold shl_align.
  destruct (ez - ex)%Z as [|d|d] eqn:E; cbn [fst].
  - replace (ex - ez)%Z with 0%Z by lia. lia.
  - lia.
  - replace (ex - ez)%Z with (Zpos d) by lia.
    change (Pos.iter xO mx d) with (shift_pos d mx).
    rewrite shift_pos_correct. change (Zpower_pos 2 d) with (2 ^ Zpos d)%Z. lia.
Qed.

(** The exponent of a valid finite double is at least [emin]. *)
Lemma bounded_emin (m : positive) (e : Z) :
  bounded prec emax m e = true -> (SpecFloat.emin prec emax <= e)%Z.
Proof.
  unfold bounded, canonical_mantissa. intros H.
  apply andb_true_iff in H. destruct H as [H _]. apply Z.eqb_eq in H.
  unfold fexp in H. lia.
Qed.

(** The sum of two positive finite doubles is at least each of them. *)
Lemma SFadd_above (mx : positive) (ex : Z) (my : positive) (ey : Z) :
  bounded prec emax mx ex = true -> bounded prec emax my ey = true ->
  let sum := SF64add (S754_finite false mx ex) (S754_finite false my ey) in
  SFleb (S754_finite false mx ex) sum = true /\
  SFleb (S754_finite false my ey) sum = true.
Proof.
  intros Hx Hy sum. unfold sum, SF64add, SFadd. cbv zeta. cbn [cond_Zopp].
  pose proof (@bounded_emin mx ex Hx) as Hxmin.
  pose proof (@bounded_emin my ey Hy) as Hymin.
  set (ez := Z.min ex ey).
  pose proof (@shl_align_fst mx ex ez ltac:(unfold ez; lia)) as Hfx.
  pose proof (@shl_align_fst my ey ez ltac:(unfold ez; lia)) as Hfy.
  change (Zpos (fst (shl_align mx ex ez)) + Zpos (fst (shl_align my ey ez)))%Z
    with (Zpos (fst (shl_align mx ex ez) + fst (shl_align my ey ez))).
  split; apply round_above; try assumption; try (unfold ez; lia);
    rewrite Pos2Z.inj_add; lia.
Qed.

Lemma SFleb_refl (x : spec_float) : x <> S754_nan -> SFleb x x = true.
Proof.
  intros Hn. unfold SFleb. destruct x as [s| s| |s m e]; cbn.
  - reflexivity.
  - destruct s; reflexivity.
  - congruence.
  - rewrite Z.compare_refl, Pos.compare_cont_refl. destruct s; reflexivity.
Qed.

(** On doubles, the sum of two nonnegative numbers is at least each of
    them: rounding the sum to nearest does not fall below a summand. *)
Lemma add_above (a b : float) :
  PrimFloat.leb 0 a = true -> PrimFloat.leb 0 b = true ->
  PrimFloat.leb a (a + b) = true /\ PrimFloat.leb b (a + b) = true.
Proof.
  rewrite !FloatAxioms.leb_spec, FloatAxioms.add_spec.
  change (Prim2SF 0) with (S754_zero false).
  pose proof (FloatAxioms.Prim2SF_valid a) as Va.
  pose proof (FloatAxioms.Prim2SF_valid b) as Vb.
  destruct (Prim2SF a) as [sa| [|]| |[|] ma ea]; try discriminate;
    destruct (Prim2SF b) as [sb| [|]| |[|] mb eb]; try discriminate; intros _ _.
  - destruct sa, sb; split; reflexivity.
  - split; reflexivity.
  - split; [reflexivity | apply SFleb_refl; discriminate].
  - split; reflexivity.
  - split; reflexivity.
  - split; reflexivity.
  - split; [apply SFleb_refl; discriminate | reflexivity].
  - split; reflexivity.
  - apply SFadd_above; assumption.
Qed.

Lemma leb_not_nan (a : float) : PrimFloat.leb 0 a = true -> is_nan a = false.
Proof.
  rewrite FloatAxioms.leb_spec. intros H.
  destruct (is_nan a) eqn:E; [|reflexivity].
  apply is_nan_iff in E. rewrite E in H. discriminate H.
Qed.

(** [Math.max] of two numbers is one of them. *)
Lemma max_cases (a b : float) :
  is_nan a = false -> is_nan b = false -> B64.max a b = a \/ B64.max a b = b.
Proof.
  intros Ha Hb. unfold B64.max. rewrite Ha, Hb. cbn [orb].
  destruct (PrimFloat.ltb a b); [right; reflexivity|].
  destruct (PrimFloat.ltb b a); [left; reflexivity|].
  destruct (is_zero a && get_sign a)%bool; [right | left]; reflexivity.
Qed.

(** On doubles, the maximum of two nonnegative numbers is at most their
    sum. *)
Lemma max_le_add (a b : float) :
  PrimFloat.leb 0 a = true -> PrimFloat.leb 0 b = true ->
  PrimFloat.leb (B64.max a b) (a + b) = true.
Proof.
  intros Ha Hb. destruct (@add_above a b Ha Hb) as [H1 H2].
  destruct (@max_cases a b (@leb_not_nan a Ha) (@leb_not_nan b Hb)) as [-> | ->];
    assumption.
Qed.

(** A double is equal to itself unless it is NaN. *)
Lemma eqb_self (x : float) : Prim2SF x <> S754_nan -> PrimFloat.eqb x x = true.
Proof.
  intros Hn. rewrite FloatAxioms.eqb_spec.
  destruct (Prim2SF x) as [s| s| |s m e]; cbn.
  - reflexivity.
  - destruct s; reflexivity.
  - congruence.
  - rewrite Z.compare_refl, Pos.compare_cont_refl. destruct s; reflexivity.
Qed.

(** A double that [===] holds equal to 0 is one of the two zeros. *)
Lemma zero_cases (a : float) :
  PrimFloat.eqb a 0 = true -> a = 0%float \/ a = (-0)%float.
Proof.
  rewrite FloatAxioms.eqb_spec. intros H.
  rewrite <- (FloatAxioms.SF2Prim_Prim2SF a).
  change (Prim2SF 0) with (S754_zero false) in H.
  destruct (Prim2SF a) as [[|]| [|]| |[|] m e]; try discriminate H;
    [right | left]; reflexivity.
Qed.

(** On doubles, the maximum and the sum of a zero and a nonnegative number
    are equal, in either order. *)
Lemma max_with_zero_is_sum (a b : float) :
  PrimFloat.eqb a 0 = true -> PrimFloat.leb 0 b = true ->
  PrimFloat.eqb (B64.max a b) (a + b) = true /\
  PrimFloat.eqb (B64.max b a) (b + a) = true.
Proof.
  intros Ha Hb. rewrite FloatAxioms.leb_spec in Hb.
  change (Prim2SF 0) with (S754_zero false) in Hb.
  destruct (Prim2SF b) as [s| s| |s m e] eqn:Eb; [| | discriminate Hb |].
  - assert (Hb' : b = SF2Prim (S754_zero s)).
    { rewrite <- Eb. symmetry. apply FloatAxioms.SF2Prim_Prim2SF. }
    destruct (@zero_cases a Ha) as [-> | ->]; subst b; destruct s; split; reflexivity.
  - destruct s; [discriminate Hb|].
    assert (Hb' : b = SF2Prim (S754_infinity false)).
    { rewrite <- Eb. symmetry. apply FloatAxioms.SF2Prim_Prim2SF. }
    destruct (@zero_cases a Ha) as [-> | ->]; subst b; split; reflexivity.
  - destruct s; [discriminate Hb|].
    assert (Hnan : is_nan b = false).
    { destruct (is_nan b) eqn:E; [|reflexivity]. apply is_nan_iff in E. congruence. }
    assert (Hself : PrimFloat.eqb b b = true) by (apply eqb_self; congruence).
    assert (Hz : forall z, z = 0%float \/ z = (-0)%float ->
               PrimFloat.ltb z b = true /\ PrimFloat.ltb b z = false /\
               (z + b)%float = b /\ (b + z)%float = b /\ is_nan z = false).
    { intros z Hz. rewrite !FloatAxioms.ltb_spec. repeat split.
      - rewrite Eb. destruct Hz as [-> | ->]; reflexivity.
      - rewrite Eb. destruct Hz as [-> | ->]; reflexivity.
      - apply FloatAxioms.Prim2SF_inj. rewrite FloatAxioms.add_spec, Eb.
        destruct Hz as [-> | ->]; reflexivity.
      - apply FloatAxioms.Prim2SF_inj. rewrite FloatAxioms.add_spec, Eb.
        destruct Hz as [-> | ->]; reflexivity.
      - destruct Hz as [-> | ->]; reflexivity. }
    destruct (Hz a (@zero_cases a Ha)) as (H1 & H2 & H3 & H4 & H5).
    unfold B64.max. rewrite Hnan, H5, H1, H2, H3, H4. cbn [orb].
    split; exact Hself.
Qed.

Section TimesOnDoubles.
Variable log2 : float -> float.
Variable pow : float -> float -> float.
Let N : Number := binary64 log2 pow.
Local Existing Instance N.

(** On doubles, in both classes: when the compute time and the (effective)
    memory time are nonnegative numbers, the lower bound is at most the
    upper bound, and the two are equal when one of the times is zero. *)
Lemma time_bounds_on_doubles (tpu : TPUv5e.t) (gpu : H100.t) (matrix : Matrix) :
  (forall m, TPUv5e._calculateSingleNodeMetrics tpu matrix = Ok m ->
     (0 <=? TPUv5e.computeTime m)%float = true ->
     (0 <=? TPUv5e.memoryTime m)%float = true ->
     (TPUv5e.lowerBoundTime m <=? TPUv5e.upperBoundTime m)%float = true /\
     ((TPUv5e.computeTime m =? 0)%float = true
      \/ (TPUv5e.memoryTime m =? 0)%float = true ->
      (TPUv5e.lowerBoundTime m =? TPUv5e.upperBoundTime m)%float = true)) /\
  (forall m, H100._calculateSingleNodeMetrics gpu matrix = Ok m ->
     (0 <=? H100.computeTime m)%float = true ->
     (0 <=? H100.effectiveMemoryTime m)%float = true ->
     (H100.lowerBoundTime m <=? H100.upperBoundTime m)%float = true /\
     ((H100.computeTime m =? 0)%float = true
      \/ (H100.effectiveMemoryTime m =? 0)%float = true ->
      (H100.lowerBoundTime m =? H100.upperBoundTime m)%float = true)).
Proof.
  assert (Hboth : forall c t : float,
             PrimFloat.leb 0 c = true -> PrimFloat.leb 0 t = true ->
             PrimFloat.leb (B64.max c t) (c + t) = true /\
             (PrimFloat.eqb c 0 = true \/ PrimFloat.eqb t 0 = true ->
              PrimFloat.eqb (B64.max c t) (c + t) = true)).
  { intros c t Hc Ht. split; [apply max_le_add; assumption|].
    intros [Hz | Hz].
    - apply (@max_with_zero_is_sum c t Hz Ht).
    - apply (@max_with_zero_is_sum t c Hz Hc). }
  split; intros m Hm Hc Ht; open_single Hm; exact (Hboth _ _ Hc Ht).
Qed.

End TimesOnDoubles.

(* ================================================================== *)
(** * Theorems over the rationals                                      *)
(* ================================================================== *)

Section Exact.
Variable log2 : Q -> Q.
Variable pow : Q -> Q -> Q.
Let N : Number := exact log2 pow.
Local Existing Instance N.
Local Open Scope Q_scope.

(** The maximum and the sum of two nonnegative times. *)
Lemma max_le_sum (c m : Q) :
  0 <= c -> 0 <= m ->
  Qmax c m <= c + m /\ (Qmax c m == c + m <-> c == 0 \/ m == 0).
Proof.
  intros Hc Hm.
  destruct (Q.max_spec c m) as [[Hlt Heq] | [Hle Heq]]; rewrite Heq;
    (split; [lra | split; [intros; lra | intros [H | H]; lra]]).
Qed.

Lemma Qdiv_nonneg (x y : Q) : 0 <= x -> 0 < y -> 0 <= x / y.
Proof.
  intros Hx Hy. apply Qle_shift_div_l; [exact Hy | lra].
Qed.

Lemma Qdiv_pos (x y : Q) : 0 < x -> 0 < y -> 0 < x / y.
Proof.
  intros Hx Hy. apply Qlt_shift_div_l; [exact Hy | lra].
Qed.

Lemma bytesPerElement_pos (d : dtype) : 0 < bytesPerElement d.
Proof. destruct d; reflexivity. Qed.

Lemma TPU_throughput_pos (ms : list Matrix) (dl : dtype) :
  0 < (if dtype_eqb dl int8 then TPUv5e.flopsPerSecondINT8 (tpu_of ms)
       else TPUv5e.flopsPerSecondBF16 (tpu_of ms)).
Proof. destruct dl; reflexivity. Qed.

Lemma TPU_hbmBandwidth_pos (ms : list Matrix) : 0 < TPUv5e.hbmBandwidth (tpu_of ms).
Proof. reflexivity. Qed.

Lemma H100_throughput_pos (ms : list Matrix) (dl : dtype) :
  0 < H100.flopsPerSecond_of (gpu_of ms) dl.
Proof. destruct dl; reflexivity. Qed.

Lemma H100_hbmBandwidth_pos (ms : list Matrix) : 0 < H100.hbmBandwidth (gpu_of ms).
Proof. reflexivity. Qed.

Lemma l2CacheBenefit_pos (b : bool) : 0 < (if b then lit 15 (-1) else $1)%js.
Proof. destruct b; reflexivity. Qed.

(** FLOPs and bytes of an operation with nonnegative dimensions. *)
Lemma flops_nonneg (B D F : Q) :
  0 <= B -> 0 <= D -> 0 <= F -> 0 <= 2 * B * D * F.
Proof.
  intros HB HD HF.
  assert (0 <= B * D) by (apply Qmult_le_0_compat; assumption).
  assert (0 <= B * D * F) by (apply Qmult_le_0_compat; assumption).
  lra.
Qed.

Lemma bytes_term_nonneg (x y w : Q) : 0 <= x -> 0 <= y -> 0 < w -> 0 <= x * y * w.
Proof.
  intros Hx Hy Hw.
  apply Qmult_le_0_compat; [apply Qmult_le_0_compat; assumption | lra].
Qed.

Lemma total_nonneg (B D D' F : Q) (dl dr dout : dtype) :
  0 <= B -> 0 <= D -> 0 <= D' -> 0 <= F ->
  0 <= 1 * B * D * bytesPerElement dl + 1 * D' * F * bytesPerElement dr
       + B * F * bytesPerElement dout.
Proof.
  intros HB HD HD' HF.
  pose proof (bytes_term_nonneg HB HD (bytesPerElement_pos dl)).
  pose proof (bytes_term_nonneg HD' HF (bytesPerElement_pos dr)).
  pose proof (bytes_term_nonneg HB HF (bytesPerElement_pos dout)).
  lra.
Qed.

(** C2, as the code has it.  In both classes the lower bound is the maximum
    and the upper bound is the sum of the compute time and the effective
    memory time (on the TPU the memory time itself); this holds for every
    operation over every number system.  Hence, over the rationals and for
    an operation with nonnegative dimensions, the lower bound is at most the
    upper bound, and the two are equal exactly when the compute time or the
    effective memory time is zero.  On doubles, whenever the two times are
    nonnegative numbers, the lower bound is at most the upper bound as well,
    and the two are equal when one of the times is zero; that they are equal
    only then does not hold on doubles, where the sum can round to its
    larger term. *)
Theorem time_bounds_max_and_sum :
  (forall (M : Number) (tpu : @TPUv5e.t M) (gpu : @H100.t M) (matrix : @Matrix M),
     (forall m, TPUv5e._calculateSingleNodeMetrics tpu matrix = Ok m ->
        TPUv5e.lowerBoundTime m
        = Math_max (TPUv5e.computeTime m) (TPUv5e.memoryTime m) /\
        TPUv5e.upperBoundTime m
        = (TPUv5e.computeTime m + TPUv5e.memoryTime m)%js) /\
     (forall m, H100._calculateSingleNodeMetrics gpu matrix = Ok m ->
        H100.lowerBoundTime m
        = Math_max (H100.computeTime m) (H100.effectiveMemoryTime m) /\
        H100.upperBoundTime m
        = (H100.computeTime m + H100.effectiveMemoryTime m)%js)) /\
  (forall (ms ms' : list Matrix) (rnd : string) (ty : operation)
          (B D D' F : Q) (dl dr dout : dtype),
     0 <= B -> 0 <= D -> 0 <= D' -> 0 <= F ->
     let op := operation_of rnd ty B D D' F dl dr dout in
     (forall m, TPUv5e._calculateSingleNodeMetrics (tpu_of ms) op = Ok m ->
        TPUv5e.lowerBoundTime m <= TPUv5e.upperBoundTime m /\
        (TPUv5e.lowerBoundTime m == TPUv5e.upperBoundTime m <->
         TPUv5e.computeTime m == 0 \/ TPUv5e.memoryTime m == 0)) /\
     (forall m, H100._calculateSingleNodeMetrics (gpu_of ms') op = Ok m ->
        H100.lowerBoundTime m <= H100.upperBoundTime m /\
        (H100.lowerBoundTime m == H100.upperBoundTime m <->
         H100.computeTime m == 0 \/ H100.effectiveMemoryTime m == 0))) /\
  (forall (l : float -> float) (p : float -> float -> float)
          (tpu : @TPUv5e.t (binary64 l p)) (gpu : @H100.t (binary64 l p))
          (matrix : @Matrix (binary64 l p)),
     (forall m, TPUv5e._calculateSingleNodeMetrics tpu matrix = Ok m ->
        (0 <=? TPUv5e.computeTime m)%float = true ->
        (0 <=? TPUv5e.memoryTime m)%float = true ->
        (TPUv5e.lowerBoundTime m <=? TPUv5e.upperBoundTime m)%float = true /\
        ((TPUv5e.computeTime m =? 0)%float = true
         \/ (TPUv5e.memoryTime m =? 0)%float = true ->
         (TPUv5e.lowerBoundTime m =? TPUv5e.upperBoundTime m)%float = true)) /\
     (forall m, H100._calculateSingleNodeMetrics gpu matrix = Ok m ->
        (0 <=? H100.computeTime m)%float = true ->
        (0 <=? H100.effectiveMemoryTime m)%float = true ->
        (H100.lowerBoundTime m <=? H100.upperBoundTime m)%float = true /\
        ((H100.computeTime m =? 0)%float = true
         \/ (H100.effectiveMemoryTime m =? 0)%float = true ->
         (H100.lowerBoundTime m =? H100.upperBoundTime m)%float = true))).
Proof.
  split; [|split].
  - intros M tpu gpu matrix. split; intros m Hm; open_single Hm; split; reflexivity.
  - intros ms ms' rnd ty B D D' F dl dr dout HB HD HD' HF op.
    split; intros m Hm.
    + apply TPU_single_formulas in Hm. cbv zeta in Hm.
      destruct Hm as (_ & _ & Hc & Hmem & Hlo & Hup & _).
      assert (Hc0 : 0 <= TPUv5e.computeTime m).
      { rewrite Hc. apply Qdiv_nonneg;
          [apply flops_nonneg; assumption | apply TPU_throughput_pos]. }
      assert (Hm0 : 0 <= TPUv5e.memoryTime m).
      { rewrite Hmem. apply Qdiv_nonneg;
          [apply total_nonneg; assumption | apply TPU_hbmBandwidth_pos]. }
      rewrite Hlo, Hup. apply (max_le_sum Hc0 Hm0).
    + apply H100_single_formulas in Hm. cbv zeta in Hm.
      destruct Hm as (_ & _ & Hc & Hmem & Heff & Hlo & Hup & _).
      assert (Hc0 : 0 <= H100.computeTime m).
      { rewrite Hc. apply Qdiv_nonneg;
          [apply flops_nonneg; assumption | apply H100_throughput_pos]. }
      assert (Hm0 : 0 <= H100.effectiveMemoryTime m).
      { rewrite Heff, Hmem. apply Qdiv_nonneg; [|apply l2CacheBenefit_pos].
        apply Qdiv_nonneg;
          [apply total_nonneg; assumption | apply H100_hbmBandwidth_pos]. }
      rewrite Hlo, Hup. apply (max_le_sum Hc0 Hm0).
  - intros l p tpu gpu matrix. apply time_bounds_on_doubles.
Qed.


(** Truncation of a rational that is an integer. *)
Lemma Qtrunc_integer (q : Q) (k : Z) : q == inject_Z k -> Qtrunc q = k.
Proof.
  unfold Qeq, Qtrunc. destruct q as [n d]. cbn. intros H.
  rewrite Z.mul_1_r in H. subst n. apply Z.quot_mul. discriminate.
Qed.

(** [x % unit === 0] tests that [x] is an exact multiple of [unit]. *)
Lemma rem_zero_iff_multiple (x unit : Q) :
  ~ unit == 0 ->
  ((x mod unit === $0)%js = true <-> multiple x unit).
Proof.
  intros Hunit. cbn. rewrite Qeq_bool_iff. unfold Qrem, multiple. split.
  - intros H. exists (Qtrunc (x / unit)).
    set (t := inject_Z (Qtrunc (x / unit))) in *.
    setoid_replace x with (x - unit * t + unit * t) by ring.
    rewrite H. ring.
  - intros [k Hk].
    assert (Hq : x / unit == inject_Z k).
    { rewrite Hk. field. exact Hunit. }
    rewrite (Qtrunc_integer Hq), Hk. ring.
Qed.

Lemma utilization_tiling_law (x unit : Q) :
  ~ unit == 0 -> tiling_law x unit (@utilization N x unit).
Proof.
  intros Hunit. unfold tiling_law, utilization.
  destruct (@eqb N (@rem N x unit) _) eqn:E.
  - split; [reflexivity|]. intros Hno. exfalso. apply Hno.
    apply rem_zero_iff_multiple; assumption.
  - split.
    + intros Hmul. apply (rem_zero_iff_multiple x Hunit) in Hmul. congruence.
    + intros _. cbn.
      set (c := inject_Z (Qceiling (x / unit))).
      unfold Qdiv. rewrite Qinv_mult_distr. ring.
Qed.

(** C4. Each tiling-utilization fraction is 1 when the dimension is an exact
    multiple of the tiling unit of its axis and [dim / (ceil(dim/unit) * unit)]
    otherwise: on the TPU for [B], [D], [F] against the 128 x 128 MXU, on the
    H100 for [B], [F], [D] against the 4 x 4 x 16 tensor-core tile (over the
    rationals).  With [B = 100] on the TPU, [lhsUtilization] is
    100/128 = 0.78125, which is below 0.9, and the recommendations contain the
    advice to pad to multiples of the MXU dimensions, over the rationals and
    on doubles alike. *)
Theorem tiling_utilization_and_padding :
  (forall (ms ms' : list Matrix) (rnd : string) (ty : operation)
          (B D D' F : Q) (dl dr dout : dtype),
     (forall m,
        TPUv5e._calculateSingleNodeMetrics (tpu_of ms)
          (operation_of rnd ty B D D' F dl dr dout) = Ok m ->
        tiling_law B 128 (TPUv5e.lhsUtilization (TPUv5e.mxuUtilization m)) /\
        tiling_law D 128 (TPUv5e.rhsUtilizationRows (TPUv5e.mxuUtilization m)) /\
        tiling_law F 128 (TPUv5e.rhsUtilizationCols (TPUv5e.mxuUtilization m))) /\
     (forall m,
        H100._calculateSingleNodeMetrics (gpu_of ms')
          (operation_of rnd ty B D D' F dl dr dout) = Ok m ->
        tiling_law B 4 (H100.mUtilization (H100.tensorCoreUtilization m)) /\
        tiling_law F 4 (H100.nUtilization (H100.tensorCoreUtilization m)) /\
        tiling_law D 16 (H100.kUtilization (H100.tensorCoreUtilization m))) /\
     (forall m,
        TPUv5e._calculateSingleNodeMetrics (tpu_of ms)
          (operation_of rnd ty 100 D D' F dl dr dout) = Ok m ->
        TPUv5e.lhsUtilization (TPUv5e.mxuUtilization m) == 100 / 128 /\
        100 / 128 == 78125 # 100000 /\
        TPUv5e.lhsUtilization (TPUv5e.mxuUtilization m) < 9 # 10 /\
        In "Consider padding matrix dimensions to multiples of MXU dimensions (128x128) to improve hardware utilization."
           (TPUv5e._generateRecommendations (tpu_of ms)
              (operation_of rnd ty 100 D D' F dl dr dout) m))) /\
  (forall (l : float -> float) (p : float -> float -> float)
          (ms : list (@Matrix (binary64 l p))) (rnd : string) (ty : operation)
          (D D' F : float) (dl dr dout : dtype) m,
     @TPUv5e._calculateSingleNodeMetrics (binary64 l p) (tpu_of ms)
       (@operation_of (binary64 l p) rnd ty (B64.of_Z 100) D D' F dl dr dout)
     = Ok m ->
     TPUv5e.lhsUtilization (TPUv5e.mxuUtilization m) = 0.78125%float
     /\ @ltb (binary64 l p) (TPUv5e.lhsUtilization (TPUv5e.mxuUtilization m))
          (@lit (binary64 l p) 9 (-1)) = true
     /\ In "Consider padding matrix dimensions to multiples of MXU dimensions (128x128) to improve hardware utilization."
          (TPUv5e._generateRecommendations (tpu_of ms)
             (@operation_of (binary64 l p) rnd ty (B64.of_Z 100) D D' F dl dr dout)
             m)).
Proof.
  split.
  - intros ms ms' rnd ty B D D' F dl dr dout.
    split; [|split]; intros m Hm.
    + apply TPU_single_formulas in Hm. cbv zeta in Hm.
      destruct Hm as (_ & _ & _ & _ & _ & _ & Hu). rewrite Hu. cbn.
      repeat split; apply utilization_tiling_law; discriminate.
    + apply H100_single_formulas in Hm. cbv zeta in Hm.
      destruct Hm as (_ & _ & _ & _ & _ & _ & _ & Hu). rewrite Hu. cbn.
      repeat split; apply utilization_tiling_law; discriminate.
    + pose proof (TPU_single_formulas _ _ _ _ _ _ _ _ _ _ Hm) as Hf.
      cbv zeta in Hf. destruct Hf as (_ & _ & _ & _ & _ & _ & Hu).
      assert (Hval : TPUv5e.lhsUtilization (TPUv5e.mxuUtilization m) = 100 # 128).
      { rewrite Hu. reflexivity. }
      split; [rewrite Hval; reflexivity|].
      split; [reflexivity|].
      split; [rewrite Hval; reflexivity|].
      apply (TPU_padding_advised (tpu_of ms)). rewrite Hval. reflexivity.
  - intros l p ms rnd ty D D' F dl dr dout m Hm.
    destruct (@padding_advised_on_doubles l p ms rnd ty D D' F dl dr dout m Hm)
      as [Hval Hin].
    split; [exact Hval|].
    split; [rewrite Hval; vm_compute; reflexivity | exact Hin].
Qed.

(** The deep copy returns a positive number unchanged. *)
Lemma JSON_number_pos (x : Q) : 0 < x -> @JSON_number N x = x.
Proof.
  intros Hx. unfold JSON_number. cbn.
  assert (H0 : Qeq_bool (x * inject_Z 0) (inject_Z 0) = true).
  { apply Qeq_bool_iff. unfold inject_Z. ring. }
  rewrite H0.
  destruct (Qeq_bool x (inject_Z 0)) eqn:E; [|reflexivity].
  apply Qeq_bool_iff in E. unfold inject_Z in E. lra.
Qed.

(** A positive dimension split over at least one device stays positive. *)
Lemma shard_pos (x n : Q) : 0 < x -> 1 <= n -> 0 < inject_Z (Qceiling (x / n)).
Proof.
  intros Hx Hn.
  assert (Hq : 0 < x / n) by (apply Qdiv_pos; lra).
  pose proof (Qle_ceiling (x / n)). lra.
Qed.


Lemma total_pos (B D D' F : Q) (dl dr dout : dtype) :
  0 < B -> 0 < D -> 0 < D' -> 0 < F ->
  0 < 1 * B * D * bytesPerElement dl + 1 * D' * F * bytesPerElement dr
      + B * F * bytesPerElement dout.
Proof.
  intros HB HD HD' HF.
  pose proof (bytesPerElement_pos dl) as Hl.
  pose proof (bytes_term_nonneg (Qlt_le_weak _ _ HD') (Qlt_le_weak _ _ HF)
                (bytesPerElement_pos dr)).
  pose proof (bytes_term_nonneg (Qlt_le_weak _ _ HB) (Qlt_le_weak _ _ HF)
                (bytesPerElement_pos dout)).
  assert (0 < B * D * bytesPerElement dl).
  { apply Qmult_lt_0_compat; [apply Qmult_lt_0_compat|]; assumption. }
  lra.
Qed.

(** With positive dimensions the lower bound of a single device is
    positive, in both classes. *)
Lemma TPU_lowerBoundTime_pos (ms : list Matrix) (rnd : string)
    (B D D' F : Q) (dl dr dout : dtype) :
  0 < B -> 0 < D -> 0 < D' -> 0 < F ->
  exists m,
    TPUv5e._calculateSingleNodeMetrics (tpu_of ms)
      (operation_of rnd matmul B D D' F dl dr dout) = Ok m
    /\ 0 < TPUv5e.lowerBoundTime m.
Proof.
  intros HB HD HD' HF.
  destruct (TPU_single_returns (tpu_of ms)
              (@operation_of N rnd matmul B D D' F dl dr dout) eq_refl) as [m Hm].
  exists m. split; [exact Hm|].
  apply TPU_single_formulas in Hm. cbv zeta in Hm.
  destruct Hm as (_ & _ & _ & Hmem & Hlo & _).
  rewrite Hlo.
  apply Qlt_le_trans with (TPUv5e.memoryTime m); [|apply Q.le_max_r].
  rewrite Hmem. apply Qdiv_pos;
    [apply total_pos; assumption | apply TPU_hbmBandwidth_pos].
Qed.

Lemma H100_lowerBoundTime_pos (ms : list Matrix) (rnd : string)
    (B D D' F : Q) (dl dr dout : dtype) :
  0 < B -> 0 < D -> 0 < D' -> 0 < F ->
  exists m,
    H100._calculateSingleNodeMetrics (gpu_of ms)
      (operation_of rnd matmul B D D' F dl dr dout) = Ok m
    /\ 0 < H100.lowerBoundTime m.
Proof.
  intros HB HD HD' HF.
  destruct (H100_single_returns (gpu_of ms)
              (@operation_of N rnd matmul B D D' F dl dr dout) eq_refl) as [m Hm].
  exists m. split; [exact Hm|].
  apply H100_single_formulas in Hm. cbv zeta in Hm.
  destruct Hm as (_ & _ & _ & Hmem & Heff & Hlo & _).
  rewrite Hlo.
  apply Qlt_le_trans with (H100.effectiveMemoryTime m); [|apply Q.le_max_r].
  rewrite Heff, Hmem. apply Qdiv_pos; [|apply l2CacheBenefit_pos].
  apply Qdiv_pos; [apply total_pos; assumption | apply H100_hbmBandwidth_pos].
Qed.



End Exact.

(* ================================================================== *)
(** * The roofline sampler                                             *)
(* ================================================================== *)

(** More fuel does not change a finished loop. *)
Lemma sample_more_fuel {N : Number} (k fuel : nat) (pk bw ridge i : number)
    (points l : list IntensityPoint) :
  sample fuel pk bw ridge i points = Some l ->
  sample (fuel + k) pk bw ridge i points = Some l.
Proof.
  revert i points. induction fuel as [|fuel IH]; intros i points H.
  - discriminate H.
  - cbn in H |- *. destruct (i <=? $4)%js.
    + apply IH. exact H.
    + exact H.
Qed.

Section Binary64.
Variable log2 : float -> float.
Variable pow : float -> float -> float.
Let N : Number := binary64 log2 pow.
Local Existing Instance N.

Set Warnings "-inexact-float".

(** [lit] yields the double that each decimal literal of the source
    denotes. *)
Lemma binary64_literals :
  lit 197 12 = 1.97e14%float /\ lit 394 12 = 3.94e14%float /\
  lit 81 10 = 8.1e11%float /\ lit 128 6 = 128e6%float /\
  lit 178 11 = 1.78e13%float /\ lit 9 10 = 9e10%float /\
  lit 989 12 = 9.89e14%float /\ lit 67 12 = 6.7e13%float /\
  lit 1979 12 = 1.979e15%float /\ lit 3958 12 = 3.958e15%float /\
  lit 335 10 = 3.35e12%float /\ lit 50 6 = 50e6%float /\
  lit 8 10 = 8e10%float /\ lit 5 (-1) = 0.5%float /\
  lit 15 (-1) = 1.5%float /\ lit 9 (-1) = 0.9%float /\
  lit 1 (-1) = 0.1%float.
Proof. vm_compute. repeat split. Qed.

(** The operations defined in [B64] on values whose JavaScript results are
    well known. *)
Lemma binary64_operations :
  B64.ceil 0.78125 = 1%float /\ B64.ceil (-0.5) = (-0)%float /\
  B64.ceil 4503599627370495.5 = 4503599627370496%float /\
  B64.floor 7.99 = 7%float /\ B64.floor (-0.5) = (-1)%float /\
  B64.rem 100 128 = 100%float /\ B64.rem 256 128 = 0%float /\
  B64.rem 5.5 2 = 1.5%float /\ B64.rem (-4) 2 = (-0)%float /\
  B64.rem 0.3 0.1 = 0.09999999999999998%float /\
  PrimFloat.is_nan (B64.rem 7 0) = true /\
  B64.max (-0) 0 = 0%float /\ B64.min 0 (-0) = (-0)%float /\
  PrimFloat.is_nan (B64.max 1 nan) = true /\
  JSON_number infinity = 0%float /\ JSON_number (-0)%float = 0%float /\
  JSON_number 0.78125%float = 0.78125%float /\
  PrimFloat.is_nan NaN = true.
Proof. vm_compute. repeat split. Qed.

(** The fiftieth sample is taken at the exponent 3.9000000000000021, and the
    variable then steps to 4.0000000000000021, above the bound 4. *)
Lemma loop_variable_overshoots :
  loop_variable 49 = 3.9000000000000021%float /\
  loop_variable 50 = 4.0000000000000021%float /\
  (loop_variable 49 <=? $4)%js = true /\
  (loop_variable 50 <=? $4)%js = false.
Proof. vm_compute. repeat split. Qed.

Lemma sample_binary64 (pk bw ridge : float) :
  option_map (@List.length _) (sample 51 pk bw ridge $(-1)%js [])
  = Some 50%nat.
Proof. vm_compute. reflexivity. Qed.

(** C6, as the code runs.  On doubles the sampler returns 50 points in both
    classes, for every operation and every metrics record, once the fuel
    covers the 51 tests of the loop condition: the loop variable reaches
    4.0000000000000021 instead of 4, and the sample at 10^4 is not taken. *)
Theorem roofline_sampler_returns_50_points :
  forall (k : nat) (tpu : TPUv5e.t) (gpu : H100.t) (matrix : Matrix)
         (mt : TPUv5e.TPUNodeMetrics) (mg : H100.GPUNodeMetrics),
    (exists rd, TPUv5e._generateRooflineData (51 + k) tpu matrix mt = Some rd
                /\ List.length (intensityPoints rd) = 50%nat) /\
    (exists rd, H100._generateRooflineData (51 + k) gpu matrix mg = Some rd
                /\ List.length (intensityPoints rd) = 50%nat).
Proof.
  intros k tpu gpu matrix mt mg.
  assert (Hloop : forall pk bw ridge : float,
             exists l, sample (51 + k) pk bw ridge $(-1)%js [] = Some l
                       /\ List.length l = 50%nat).
  { intros pk bw ridge. pose proof (sample_binary64 pk bw ridge) as H.
    destruct (@sample N 51 pk bw ridge _ []) as [l|] eqn:E; [|discriminate H].
    exists l. split.
    - apply sample_more_fuel. exact E.
    - cbn in H. injection H as H. exact H. }
  split.
  - unfold TPUv5e._generateRooflineData. cbv zeta.
    match goal with
    | |- context [sample _ ?pk ?bw ?ridge _ _] =>
        destruct (Hloop pk bw ridge) as (l & Hl & Hlen)
    end.
    rewrite Hl. eexists. split; [reflexivity | exact Hlen].
  - unfold H100._generateRooflineData. cbv zeta.
    match goal with
    | |- context [sample _ ?pk ?bw ?ridge _ _] =>
        destruct (Hloop pk bw ridge) as (l & Hl & Hlen)
    end.
    rewrite Hl. eexists. split; [reflexivity | exact Hlen].
Qed.

End Binary64.

Section ExactSampler.
Variable log2 : Q -> Q.
Variable pow : Q -> Q -> Q.
Let N : Number := exact log2 pow.
Local Existing Instance N.
Local Open Scope Q_scope.

(** Over the rationals the loop variable reaches 4 exactly, and the loop
    takes the 51 samples that the specification counts. *)
Lemma loop_variable_exact :
  loop_variable 50 == 4 /\ (loop_variable 50 <=? $4)%js = true
  /\ (loop_variable 51 <=? $4)%js = false.
Proof. vm_compute. repeat split. Qed.

Lemma sample_exact (pk bw ridge : Q) :
  option_map (@List.length _) (sample 52 pk bw ridge $(-1)%js [])
  = Some 51%nat.
Proof. vm_compute. reflexivity. Qed.

(** Every sample is capped by the peak throughput. *)
Lemma sample_capped (fuel : nat) (pk bw ridge i : Q)
    (points l : list IntensityPoint) :
  Forall (fun p => achievableFlops p <= peakFlops p) points ->
  sample fuel pk bw ridge i points = Some l ->
  Forall (fun p => achievableFlops p <= peakFlops p
                   /\ achievableFlops p == Qmin (peakFlops p) (bw * intensity p)
                   \/ In p points) l.
Proof.
  revert i points. induction fuel as [|fuel IH]; intros i points Hacc H.
  - discriminate H.
  - cbn in H. destruct (Qle_bool i (inject_Z 4)).
    + apply IH in H.
      * eapply Forall_impl; [|exact H]. cbn. intros p [Hp | Hp].
        -- left. exact Hp.
        -- apply in_app_or in Hp. destruct Hp as [Hp | [Hp | []]].
           ++ right. exact Hp.
           ++ left. subst p. cbn. split; [apply Q.le_min_l | reflexivity].
      * apply Forall_app. split; [exact Hacc|].
        constructor; [|constructor]. cbn. apply Q.le_min_l.
    + injection H as H. subst l.
      apply Forall_forall. intros p Hp. right. exact Hp.
Qed.

Lemma roofline_points_capped (fuel : nat) (tpu : TPUv5e.t) (gpu : H100.t)
    (matrix : Matrix) (mt : TPUv5e.TPUNodeMetrics) (mg : H100.GPUNodeMetrics)
    (rd : RooflineData) :
  TPUv5e._generateRooflineData fuel tpu matrix mt = Some rd \/
  H100._generateRooflineData fuel gpu matrix mg = Some rd ->
  Forall (fun p => achievableFlops p <= peakFlops p) (intensityPoints rd).
Proof.
  assert (Hloop : forall pk bw ridge l,
             @sample N fuel pk bw ridge (inject_Z (-1)) [] = Some l ->
             Forall (fun p => achievableFlops p <= peakFlops p) l).
  { intros pk bw ridge l Hl.
    apply sample_capped in Hl; [|constructor].
    eapply Forall_impl; [|exact Hl]. cbn. intros p [[Hp _] | []]. exact Hp. }
  intros [H | H].
  - unfold TPUv5e._generateRooflineData in H. cbv zeta in H.
    match type of H with
    | match ?c with _ => _ end = _ => destruct c as [l|] eqn:E; [|discriminate H]
    end.
    injection H as H. subst rd. cbn. eapply Hloop. exact E.
  - unfold H100._generateRooflineData in H. cbv zeta in H.
    match type of H with
    | match ?c with _ => _ end = _ => destruct c as [l|] eqn:E; [|discriminate H]
    end.
    injection H as H. subst rd. cbn. eapply Hloop. exact E.
Qed.

End ExactSampler.

(* ================================================================== *)
(** * Worked examples over the rationals                               *)
(* ================================================================== *)

Section ExactExamples.
Local Existing Instance exact0.
Local Open Scope Q_scope.

(** Over the rationals at 256 x 256 x 256; on doubles at 1e21 x 1e21 x 1e21
    on the TPU, and on the H100 at an operation with no rows, whose compute
    time is zero. *)
Lemma time_bounds_max_and_sum_witness :
  (exists m, TPUv5e._calculateSingleNodeMetrics example_tpu square = Ok m
             /\ TPUv5e.lowerBoundTime m <= TPUv5e.upperBoundTime m) /\
  (exists m, @TPUv5e._calculateSingleNodeMetrics binary64_0 (tpu_of [])
               (@cube binary64_0 1e21%float) = Ok m
             /\ (TPUv5e.lowerBoundTime m <=? TPUv5e.upperBoundTime m)%float = true) /\
  (exists m, @H100._calculateSingleNodeMetrics binary64_0 (gpu_of [])
               (@operation_of binary64_0 "m0" matmul 0%float 256%float
                  256%float 256%float bf16 bf16 bf16) = Ok m
             /\ (H100.lowerBoundTime m =? H100.upperBoundTime m)%float = true).
Proof.
  split; [|split].
  - eexists. split; [reflexivity|].
    refine (proj1
      (proj1 (proj1 (proj2 (@time_bounds_max_and_sum Qlog2 Qpow)) example_ops
                example_ops "m1" matmul 256 256 256 256 bf16 bf16 bf16 _ _ _ _)
         _ eq_refl));
      discriminate.
  - eexists. split; [reflexivity|].
    refine (proj1
      (proj1 (proj2 (proj2 (@time_bounds_max_and_sum Qlog2 Qpow))
                (fun x => x) (fun x _ => x) (@tpu_of binary64_0 [])
                (@gpu_of binary64_0 []) (@cube binary64_0 1e21%float))
         _ eq_refl _ _));
      vm_compute; reflexivity.
  - eexists. split; [reflexivity|].
    refine (proj2
      (proj2 (proj2 (proj2 (@time_bounds_max_and_sum Qlog2 Qpow))
                (fun x => x) (fun x _ => x) (@tpu_of binary64_0 [])
                (@gpu_of binary64_0 [])
                (@operation_of binary64_0 "m0" matmul 0%float 256%float
                   256%float 256%float bf16 bf16 bf16))
         _ eq_refl _ _) (or_introl _));
      vm_compute; reflexivity.
Defined.

(** Four devices sharing the reduction axis of 256 x 256 x 256 on the TPU:
    the cost is the formula's value, 128/87890625 seconds with [log2 4 = 2],
    and it is not zero. *)
Lemma communication_cost_only_on_reduction_axis_witness :
  exists res mm,
    TPUv5e.performanceMetrics example_tpu "s1" "m1" true (Some example_sharding)
    = Ok res
    /\ TPUv5e.multiNode res = Some mm
    /\ TPUv5e.communicationCost mm
       = 256 * 256 * 2 / 2 * Qlog2 4 / TPUv5e.iciBidiBandwidth example_tpu
    /\ TPUv5e.communicationCost mm == 128 # 87890625
    /\ ~ TPUv5e.communicationCost mm == 0.
Proof.
  destruct (proj1 (@communication_cost_only_on_reduction_axis exact0
                     example_tpu example_gpu "s1" "m1" "m1" matmul
                     256 256 256 256 bf16 bf16 bf16 example_sharding)
              eq_refl) as [Hreturns Hcost].
  destruct (Hreturns eq_refl) as [res Hres].
  destruct (Hcost res Hres) as (mm & Hmm & _ & Hyes & _).
  pose proof (Hyes (or_introl eq_refl)) as Hval.
  exists res, mm. split; [exact Hres|]. split; [exact Hmm|].
  split; [exact Hval|]. rewrite Hval. split; [reflexivity | discriminate].
Defined.


Lemma lookup_and_configuration_errors_witness :
  TPUv5e.performanceMetrics example_tpu "s1" "zz" true (Some example_sharding)
  = Throw (NotFound "zz")
  /\ H100.analyze 0 example_gpu "zz" = Some (Throw (NotFound "zz"))
  /\ TPUv5e.performanceMetrics example_tpu "s1" "m1" true None
     = Throw MissingConfiguration.
Proof.
  assert (Hno : ~ registered example_ops "zz").
  { intros [mx [[Hmx | [Hmx | [Hmx | []]]] Hid]]; subst mx; discriminate Hid. }
  assert (Hyes : registered example_ops "m1").
  { exists square. split; [left|]; reflexivity. }
  pose proof (@lookup_and_configuration_errors exact0 example_tpu example_gpu
                "s1" "zz") as (Ht & Hg & _).
  pose proof (@lookup_and_configuration_errors exact0 example_tpu example_gpu
                "s1" "m1") as (_ & _ & Hc & _).
  split; [apply (proj1 (Ht Hno))|].
  split; [apply (proj2 (Hg Hno))|].
  apply (Hc Hyes).
Defined.

Lemma communication_width_table_witness :
  exists mm, H100._calculateMultiNodeMetrics example_gpu "s1" square
               example_sharding = Ok mm
             /\ H100.communicationCost mm
                = 256 * 256 * 2 / 2 * Qlog2 4 / H100.nvlinkBandwidth example_gpu.
Proof.
  eexists. split; [reflexivity|].
  refine (proj2 (proj1 (proj2
    (proj1 communication_width_table exact0 example_tpu example_gpu "s1" "m1"
       matmul 256 256 256 256 bf16 bf16 bf16 example_sharding)) eq_refl)
    _ eq_refl eq_refl).
Defined.


Lemma tiling_utilization_and_padding_witness :
  exists m, TPUv5e._calculateSingleNodeMetrics example_tpu
              (operation_of "m2" matmul 100 256 256 256 bf16 bf16 bf16) = Ok m
            /\ TPUv5e.lhsUtilization (TPUv5e.mxuUtilization m) == 78125 # 100000
            /\ tiling_law 256 128 (TPUv5e.rhsUtilizationCols (TPUv5e.mxuUtilization m)).
Proof.
  eexists. split; [reflexivity|].
  pose proof (proj1 (@tiling_utilization_and_padding Qlog2 Qpow) example_ops
                example_ops "m2" matmul 100 256 256 256 bf16 bf16 bf16)
    as (Ht & _ & Hs).
  destruct (Hs _ eq_refl) as (H1 & H2 & _).
  destruct (Ht _ eq_refl) as (_ & _ & H3).
  split; [exact (Qeq_trans _ _ _ H1 H2) | exact H3].
Defined.


End ExactExamples.

(* ================================================================== *)
(** * Worked examples on doubles                                       *)
(* ================================================================== *)

Section Binary64Examples.
Variable log2 : float -> float.
Variable pow : float -> float -> float.
Let N : Number := binary64 log2 pow.
Local Existing Instance N.

Set Warnings "-inexact-float".

(** B = D = F = 256 in bf16 on the TPU: 2 * 256^3 FLOPs and full tiles. *)
Example square_on_TPU :
  match TPUv5e._calculateSingleNodeMetrics example_tpu square with
  | Ok m =>
      TPUv5e.totalFLOPs m = 33554432%float
      /\ TPUv5e.lhsUtilization (TPUv5e.mxuUtilization m) = 1%float
      /\ TPUv5e.rhsUtilizationRows (TPUv5e.mxuUtilization m) = 1%float
      /\ TPUv5e.rhsUtilizationCols (TPUv5e.mxuUtilization m) = 1%float
  | Throw _ => False
  end.
Proof. vm_compute. repeat split. Qed.

(** B = 100 on the TPU, through [analyze]: the utilization of the left
    operand is the double 0.78125, and the padding advice is given. *)
Example ragged_on_TPU :
  match TPUv5e.analyze 51 example_tpu "m2" with
  | Some (Ok a) =>
      TPUv5e.lhsUtilization (TPUv5e.mxuUtilization (TPUv5e.m a)) = 0.78125%float
      /\ In "Consider padding matrix dimensions to multiples of MXU dimensions (128x128) to improve hardware utilization."
            (TPUv5e.r a)
  | _ => False
  end.
Proof. vm_compute. split; [reflexivity | tauto]. Qed.

(** The analysis of a registered operation carries 50 roofline points, on
    the TPU and on the H100. *)
Example analyze_returns_50_points :
  match TPUv5e.analyze 51 example_tpu "m1", H100.analyze 51 example_gpu "m1" with
  | Some (Ok a), Some (Ok a') =>
      List.length (intensityPoints (TPUv5e.d a)) = 50%nat
      /\ List.length (intensityPoints (H100.d a')) = 50%nat
  | _, _ => False
  end.
Proof. vm_compute. split; reflexivity. Qed.

(** On doubles the speedup is the quotient of two rounded times, and can
    differ from the rounded ratio of the bandwidths in the last place. *)
Example vmemSpeedup_rounding :
  match TPUv5e._calculateSingleNodeMetrics example_tpu ragged,
        TPUv5e._calculateSingleNodeMetrics example_tpu tiny with
  | Ok m, Ok m' =>
      TPUv5e.vmemSpeedup (TPUv5e.vmemMetrics m) = 21.97530864197531%float
      /\ TPUv5e.vmemSpeedup (TPUv5e.vmemMetrics m') = 21.975308641975307%float
      /\ (TPUv5e.vmemBandwidth example_tpu / TPUv5e.hbmBandwidth example_tpu)%js
         = 21.97530864197531%float
  | _, _ => False
  end.
Proof. vm_compute. repeat split. Qed.

End Binary64Examples.

(* ================================================================== *)
(** * Where doubles part from the formulas                             *)
(* ================================================================== *)

Set Warnings "-inexact-float".

(** C2, against "equal only when a time is zero" and against "always".  On
    doubles, for the bf16 multiplication of two 1e21 x 1e21 matrices the
    compute time (about 1e49 s on the TPU) exceeds the memory time (about
    7e30 s) by more than a factor 2^53, so their sum rounds to the compute
    time: the two bounds are equal and neither time is zero, in both
    classes.  And a negative dimension, which the engine accepts like any
    other number, makes both times negative and their sum smaller than
    their maximum, on doubles as over the rationals. *)
Lemma equal_bounds_without_a_zero_time :
  (let N := binary64_0 in
   match TPUv5e._calculateSingleNodeMetrics (tpu_of []) (cube (lit 1 21)),
         H100._calculateSingleNodeMetrics (gpu_of []) (cube (lit 1 21)) with
   | Ok m, Ok g =>
       (TPUv5e.lowerBoundTime m === TPUv5e.upperBoundTime m)%js = true /\
       (TPUv5e.computeTime m === $0)%js = false /\
       (TPUv5e.memoryTime m === $0)%js = false /\
       (H100.lowerBoundTime g === H100.upperBoundTime g)%js = true /\
       (H100.computeTime g === $0)%js = false /\
       (H100.effectiveMemoryTime g === $0)%js = false
   | _, _ => False
   end) /\
  (let N := binary64_0 in
   match TPUv5e._calculateSingleNodeMetrics (tpu_of [])
           (operation_of "m0" matmul $(-1) $1 $1 $1 bf16 bf16 bf16) with
   | Ok m => (TPUv5e.upperBoundTime m <? TPUv5e.lowerBoundTime m)%js = true
   | Throw _ => False
   end) /\
  (let N := exact0 in
   match TPUv5e._calculateSingleNodeMetrics (tpu_of [])
           (operation_of "m0" matmul $(-1) $1 $1 $1 bf16 bf16 bf16) with
   | Ok m => (TPUv5e.upperBoundTime m < TPUv5e.lowerBoundTime m)%Q
   | Throw _ => False
   end).
Proof. repeat split; vm_compute; repeat split. Qed.



(* ================================================================== *)
(** * Further properties of the engine                                 *)
(* ================================================================== *)

(** Lookup in a list that [addMatrix] has extended: an earlier entry with
    the identifier wins, the new one is found otherwise. *)
Lemma find_matrix_app {N : Number} (ms : list Matrix) (mx : Matrix) (Id : string) :
  find_matrix (ms ++ [mx]) Id
  = match find_matrix ms Id with
    | Some m => Some m
    | None => if String.eqb (id mx) Id then Some mx else None
    end.
Proof.
  unfold find_matrix. induction ms as [|m0 ms IH]; cbn.
  - reflexivity.
  - destruct (String.eqb (id m0) Id); [reflexivity | exact IH].
Qed.

(** The single-device metrics read the hardware constants and the
    operation, not the list of registered matrices. *)
Lemma TPU_single_frame {N : Number} (tpu : TPUv5e.t) (ms : list Matrix)
    (matrix : Matrix) :
  TPUv5e._calculateSingleNodeMetrics (TPUv5e.with_matrices tpu ms) matrix
  = TPUv5e._calculateSingleNodeMetrics tpu matrix.
Proof. reflexivity. Qed.

Lemma H100_single_frame {N : Number} (gpu : H100.t) (ms : list Matrix)
    (matrix : Matrix) :
  H100._calculateSingleNodeMetrics (H100.with_matrices gpu ms) matrix
  = H100._calculateSingleNodeMetrics gpu matrix.
Proof. reflexivity. Qed.

(** X1. [addMatrix] returns the identifier drawn for the new operation.  When
    no earlier operation carries that identifier, [performanceMetrics] on it
    analyses the operation just registered (so it does not throw the
    not-found error); when an earlier operation carries it, that earlier
    operation is the one analysed. *)
Theorem addMatrix_then_performanceMetrics :
  forall (N : Number) (tpu : TPUv5e.t) (gpu : H100.t) (rnd rnd' : string)
         (ty : operation) (l r : matinfo) (o : outinfo),
    let matrix := new_Matrix rnd ty l r o in
    let tpu' := fst (TPUv5e.addMatrix tpu rnd ty l r o) in
    let gpu' := fst (H100.addMatrix gpu rnd ty l r o) in
    snd (TPUv5e.addMatrix tpu rnd ty l r o) = rnd /\
    snd (H100.addMatrix gpu rnd ty l r o) = rnd /\
    (find_matrix (TPUv5e.matrices tpu) rnd = None ->
     find_matrix (TPUv5e.matrices tpu') rnd = Some matrix /\
     TPUv5e.performanceMetrics tpu' rnd' rnd false None
     = (s <- TPUv5e._calculateSingleNodeMetrics tpu matrix ;;
        Ok {| TPUv5e.singleNode := s; TPUv5e.multiNode := None |})) /\
    (find_matrix (H100.matrices gpu) rnd = None ->
     find_matrix (H100.matrices gpu') rnd = Some matrix /\
     H100.performanceMetrics gpu' rnd' rnd false None
     = (s <- H100._calculateSingleNodeMetrics gpu matrix ;;
        Ok {| H100.singleNode := s; H100.multiNode := None |})) /\
    (forall old, find_matrix (TPUv5e.matrices tpu) rnd = Some old ->
       find_matrix (TPUv5e.matrices tpu') rnd = Some old) /\
    (forall old, find_matrix (H100.matrices gpu) rnd = Some old ->
       find_matrix (H100.matrices gpu') rnd = Some old).
Proof.
  intros N tpu gpu rnd rnd' ty l r o matrix tpu' gpu'.
  split; [reflexivity|]. split; [reflexivity|].
  assert (Hid : String.eqb (id matrix) rnd = true) by apply String.eqb_refl.
  split; [|split; [|split]].
  - intros Hnew.
    assert (Hfind : find_matrix (TPUv5e.matrices tpu') rnd = Some matrix).
    { change (TPUv5e.matrices tpu') with (TPUv5e.matrices tpu ++ [matrix]).
      rewrite find_matrix_app, Hnew, Hid. reflexivity. }
    split; [exact Hfind|].
    unfold TPUv5e.performanceMetrics. rewrite Hfind. reflexivity.
  - intros Hnew.
    assert (Hfind : find_matrix (H100.matrices gpu') rnd = Some matrix).
    { change (H100.matrices gpu') with (H100.matrices gpu ++ [matrix]).
      rewrite find_matrix_app, Hnew, Hid. reflexivity. }
    split; [exact Hfind|].
    unfold H100.performanceMetrics. rewrite Hfind. reflexivity.
  - intros old Hold.
    change (TPUv5e.matrices tpu') with (TPUv5e.matrices tpu ++ [matrix]).
    rewrite find_matrix_app, Hold. reflexivity.
  - intros old Hold.
    change (H100.matrices gpu') with (H100.matrices gpu ++ [matrix]).
    rewrite find_matrix_app, Hold. reflexivity.
Qed.

(** X2. Registering a further operation leaves the analysis of every
    operation registered before as it was: [performanceMetrics] and
    [analyze] return on the extended object what they returned on the
    original one, for every identifier that was registered. *)
Theorem addMatrix_keeps_earlier_analyses :
  forall (N : Number) (tpu : TPUv5e.t) (gpu : H100.t) (rnd rnd' Id : string)
         (ty : operation) (l r : matinfo) (o : outinfo),
    let tpu' := fst (TPUv5e.addMatrix tpu rnd ty l r o) in
    let gpu' := fst (H100.addMatrix gpu rnd ty l r o) in
    (registered (TPUv5e.matrices tpu) Id ->
     (forall mN sC, TPUv5e.performanceMetrics tpu' rnd' Id mN sC
                    = TPUv5e.performanceMetrics tpu rnd' Id mN sC) /\
     (forall fuel, TPUv5e.analyze fuel tpu' Id = TPUv5e.analyze fuel tpu Id)) /\
    (registered (H100.matrices gpu) Id ->
     (forall mN sC, H100.performanceMetrics gpu' rnd' Id mN sC
                    = H100.performanceMetrics gpu rnd' Id mN sC) /\
     (forall fuel, H100.analyze fuel gpu' Id = H100.analyze fuel gpu Id)).
Proof.
  intros N tpu gpu rnd rnd' Id ty l r o tpu' gpu'. split; intros Hreg.
  - apply find_matrix_registered in Hreg as [mx [Hfind _]].
    assert (Hfind' : find_matrix (TPUv5e.matrices tpu') Id = Some mx).
    { change (TPUv5e.matrices tpu')
        with (TPUv5e.matrices tpu ++ [new_Matrix rnd ty l r o]).
      rewrite find_matrix_app, Hfind. reflexivity. }
    split.
    + intros mN sC. unfold TPUv5e.performanceMetrics.
      rewrite Hfind, Hfind'. reflexivity.
    + intros fuel. unfold TPUv5e.analyze. rewrite Hfind, Hfind'. reflexivity.
  - apply find_matrix_registered in Hreg as [mx [Hfind _]].
    assert (Hfind' : find_matrix (H100.matrices gpu') Id = Some mx).
    { change (H100.matrices gpu')
        with (H100.matrices gpu ++ [new_Matrix rnd ty l r o]).
      rewrite find_matrix_app, Hfind. reflexivity. }
    split.
    + intros mN sC. unfold H100.performanceMetrics.
      rewrite Hfind, Hfind'. reflexivity.
    + intros fuel. unfold H100.analyze. rewrite Hfind, Hfind'. reflexivity.
Qed.

(** An operation of another kind has no single-device metrics. *)
Lemma TPU_single_unsupported {N : Number} (tpu : TPUv5e.t) (matrix : Matrix) :
  type matrix <> matmul ->
  TPUv5e._calculateSingleNodeMetrics tpu matrix = Throw UnsupportedOperation.
Proof.
  intros Hty. unfold TPUv5e._calculateSingleNodeMetrics, calculateFLOPs.
  destruct (String.eqb (type matrix) "matmul") eqn:E; [|reflexivity].
  apply String.eqb_eq in E. contradiction.
Qed.

Lemma H100_single_unsupported {N : Number} (gpu : H100.t) (matrix : Matrix) :
  type matrix <> matmul ->
  H100._calculateSingleNodeMetrics gpu matrix = Throw UnsupportedOperation.
Proof.
  intros Hty. unfold H100._calculateSingleNodeMetrics, calculateFLOPs.
  destruct (String.eqb (type matrix) "matmul") eqn:E; [|reflexivity].
  apply String.eqb_eq in E. contradiction.
Qed.

(** X3. A registered operation that is not a matrix multiplication makes
    every analysis throw the unsupported-operation error: the arithmetic
    intensity, [performanceMetrics] for one device and for several devices
    with a configuration, and [analyze], which then produces neither
    recommendations nor roofline data, whatever the fuel. *)
Theorem unsupported_operation_reaches_every_entry_point :
  forall (N : Number) (tpu : TPUv5e.t) (gpu : H100.t) (rnd Id : string)
         (matrix : Matrix),
    type matrix <> matmul ->
    calculateArithmeticIntensity matrix = Throw UnsupportedOperation /\
    (find_matrix (TPUv5e.matrices tpu) Id = Some matrix ->
     (forall sC, TPUv5e.performanceMetrics tpu rnd Id false sC
                 = Throw UnsupportedOperation) /\
     (forall sC, TPUv5e.performanceMetrics tpu rnd Id true (Some sC)
                 = Throw UnsupportedOperation) /\
     (forall fuel, TPUv5e.analyze fuel tpu Id
                   = Some (Throw UnsupportedOperation))) /\
    (find_matrix (H100.matrices gpu) Id = Some matrix ->
     (forall sC, H100.performanceMetrics gpu rnd Id false sC
                 = Throw UnsupportedOperation) /\
     (forall sC, H100.performanceMetrics gpu rnd Id true (Some sC)
                 = Throw UnsupportedOperation) /\
     (forall fuel, H100.analyze fuel gpu Id
                   = Some (Throw UnsupportedOperation))).
Proof.
  intros N tpu gpu rnd Id matrix Hty. split; [|split].
  - unfold calculateArithmeticIntensity, calculateFLOPs.
    destruct (String.eqb (type matrix) "matmul") eqn:E; [|reflexivity].
    apply String.eqb_eq in E. contradiction.
  - intros Hfind. pose proof (TPU_single_unsupported tpu matrix Hty) as Hs.
    split; [|split].
    + intros sC. unfold TPUv5e.performanceMetrics. rewrite Hfind, Hs. reflexivity.
    + intros sC. unfold TPUv5e.performanceMetrics. rewrite Hfind, Hs. reflexivity.
    + intros fuel. unfold TPUv5e.analyze. rewrite Hfind, Hs. reflexivity.
  - intros Hfind. pose proof (H100_single_unsupported gpu matrix Hty) as Hs.
    split; [|split].
    + intros sC. unfold H100.performanceMetrics. rewrite Hfind, Hs. reflexivity.
    + intros sC. unfold H100.performanceMetrics. rewrite Hfind, Hs. reflexivity.
    + intros fuel. unfold H100.analyze. rewrite Hfind, Hs. reflexivity.
Qed.

(** X4. The single-device part of a result does not depend on how the
    request was made.  Without the multi-device flag a configuration is
    ignored and [multiNode] is null; a multi-device request that returns
    carries the single-device metrics of the plain request; and the metrics
    that [analyze] returns are those of [performanceMetrics]. *)
Theorem single_device_part_is_shared :
  forall (N : Number) (tpu : TPUv5e.t) (gpu : H100.t) (rnd Id : string),
    ((forall sC, TPUv5e.performanceMetrics tpu rnd Id false sC
                 = TPUv5e.performanceMetrics tpu rnd Id false None) /\
     (forall sC res, TPUv5e.performanceMetrics tpu rnd Id false sC = Ok res ->
                     TPUv5e.multiNode res = None) /\
     (forall sC res, TPUv5e.performanceMetrics tpu rnd Id true (Some sC) = Ok res ->
        TPUv5e.performanceMetrics tpu rnd Id false None
        = Ok {| TPUv5e.singleNode := TPUv5e.singleNode res;
                TPUv5e.multiNode := None |}) /\
     (forall fuel a, TPUv5e.analyze fuel tpu Id = Some (Ok a) ->
        TPUv5e.performanceMetrics tpu rnd Id false None
        = Ok {| TPUv5e.singleNode := TPUv5e.m a; TPUv5e.multiNode := None |})) /\
    ((forall sC, H100.performanceMetrics gpu rnd Id false sC
                 = H100.performanceMetrics gpu rnd Id false None) /\
     (forall sC res, H100.performanceMetrics gpu rnd Id false sC = Ok res ->
                     H100.multiNode res = None) /\
     (forall sC res, H100.performanceMetrics gpu rnd Id true (Some sC) = Ok res ->
        H100.performanceMetrics gpu rnd Id false None
        = Ok {| H100.singleNode := H100.singleNode res;
                H100.multiNode := None |}) /\
     (forall fuel a, H100.analyze fuel gpu Id = Some (Ok a) ->
        H100.performanceMetrics gpu rnd Id false None
        = Ok {| H100.singleNode := H100.m a; H100.multiNode := None |})).
Proof.
  intros N tpu gpu rnd Id. split.
  - split; [|split; [|split]].
    + intros sC. unfold TPUv5e.performanceMetrics.
      destruct (find_matrix (TPUv5e.matrices tpu) Id); reflexivity.
    + intros sC res. unfold TPUv5e.performanceMetrics.
      destruct (find_matrix (TPUv5e.matrices tpu) Id) as [mx|]; [|discriminate].
      cbn [andb].
      destruct (TPUv5e._calculateSingleNodeMetrics tpu mx); [|discriminate].
      cbn [bind]. intros H. injection H as <-. reflexivity.
    + intros sC res Hres.
      apply TPU_multi_request in Hres as (mx & mm & Hfind & Hsingle & _ & _).
      unfold TPUv5e.performanceMetrics. rewrite Hfind, Hsingle. reflexivity.
    + intros fuel a. unfold TPUv5e.analyze, TPUv5e.performanceMetrics.
      destruct (find_matrix (TPUv5e.matrices tpu) Id) as [mx|]; [|discriminate].
      destruct (TPUv5e._calculateSingleNodeMetrics tpu mx) as [s|]; [|discriminate].
      destruct (TPUv5e._generateRooflineData fuel tpu mx s); [|discriminate].
      intros H. injection H as <-. reflexivity.
  - split; [|split; [|split]].
    + intros sC. unfold H100.performanceMetrics.
      destruct (find_matrix (H100.matrices gpu) Id); reflexivity.
    + intros sC res. unfold H100.performanceMetrics.
      destruct (find_matrix (H100.matrices gpu) Id) as [mx|]; [|discriminate].
      cbn [andb].
      destruct (H100._calculateSingleNodeMetrics gpu mx); [|discriminate].
      cbn [bind]. intros H. injection H as <-. reflexivity.
    + intros sC res Hres.
      apply H100_multi_request in Hres as (mx & mm & Hfind & Hsingle & _ & _).
      unfold H100.performanceMetrics. rewrite Hfind, Hsingle. reflexivity.
    + intros fuel a. unfold H100.analyze, H100.performanceMetrics.
      destruct (find_matrix (H100.matrices gpu) Id) as [mx|]; [|discriminate].
      destruct (H100._calculateSingleNodeMetrics gpu mx) as [s|]; [|discriminate].
      destruct (H100._generateRooflineData fuel gpu mx s); [|discriminate].
      intros H. injection H as <-. reflexivity.
Qed.

(* ================================================================== *)
(** * The recommendations                                              *)
(* ================================================================== *)

Lemma In_push (x : string) (c : bool) (s : string) (rs : list string) :
  In x (push c s rs) <-> In x rs \/ (c = true /\ x = s).
Proof.
  unfold push. destruct c.
  - rewrite in_app_iff. cbn. intuition congruence.
  - intuition congruence.
Qed.

(** The closing statement of [_generateRecommendations]:
    [if (recommendations.length == 0) { recommendations.push(none) }]. *)
Lemma push_when_empty (none : string) (rs : list string) :
  ~ In none rs ->
  let all := push (List.length rs =? 0)%nat none rs in
  all <> [] /\
  (In none all <-> all = [none]) /\
  (forall x, x <> none -> (In x all <-> In x rs)).
Proof.
  intros Hno. destruct rs as [|x0 rs]; cbn.
  - split; [discriminate|]. split; [tauto|]. intros x Hx. split; [|tauto].
    intros [H | []]. congruence.
  - split; [discriminate|]. split; [|tauto]. split.
    + intros H. exfalso. apply Hno. exact H.
    + intros H. injection H as -> ->. left. reflexivity.
Qed.

(** Closes a goal from hypotheses that equate two different pieces of
    advice. *)
Ltac advice_differs :=
  repeat match goal with
         | H : _ \/ _ |- _ => destruct H
         | H : _ /\ _ |- _ => destruct H
         | H : False |- _ => destruct H
         end;
  try congruence;
  match goal with
  | H : _ = _ |- _ =>
      unfold TPUv5e.padding_advice, H100.padding_advice in H; cbn in H;
      discriminate H
  end.

(** Membership in a list built by conditional pushes, when the advice is
    pushed unconditionally at some point. *)
Ltac in_pushes := first [apply push_adds | apply push_keeps; in_pushes].

(** The memory-bound advice is given to every operation that is not flagged
    compute-bound. *)
Lemma TPU_memory_bound_advised {N : Number} (tpu : TPUv5e.t) (matrix : Matrix)
    (metrics : TPUv5e.TPUNodeMetrics) :
  TPUv5e.isComputeBound metrics = false ->
  In "Operation is memory-bound. Consider increasing batch size to improve arithmetic intensity."
     (TPUv5e._generateRecommendations tpu matrix metrics).
Proof.
  intros Hb. unfold TPUv5e._generateRecommendations. cbv zeta.
  rewrite Hb. cbn [negb]. in_pushes.
Qed.

(** The shape of the recommendations of the TPU: the list is not empty,
    "No recommendations!" is in it exactly when it is the whole list, and
    the memory-bound advice is in it exactly when the metrics are not
    flagged compute-bound. *)
Lemma TPU_recommendations_shape {N : Number} (tpu : TPUv5e.t) (matrix : Matrix)
    (mt : TPUv5e.TPUNodeMetrics) :
  let rt := TPUv5e._generateRecommendations tpu matrix mt in
  rt <> [] /\
  (In "No recommendations!" rt <-> rt = ["No recommendations!"]) /\
  (In "Operation is memory-bound. Consider increasing batch size to improve arithmetic intensity." rt
   <-> TPUv5e.isComputeBound mt = false).
Proof.
  intros rt. unfold rt, TPUv5e._generateRecommendations. cbv zeta.
  match goal with
  | |- context [push (Nat.eqb (List.length ?rs) 0) _ ?rs] => set (inner := rs)
  end.
  assert (Hno : ~ In "No recommendations!" inner).
  { unfold inner. destruct (TPUv5e.isComputeBound mt); cbn [negb];
      rewrite !In_push; cbn [In]; intros H; advice_differs. }
  destruct (push_when_empty _ _ Hno) as (Hne & Hnone & Hother).
  split; [exact Hne|]. split; [exact Hnone|].
  rewrite Hother by discriminate.
  unfold inner. destruct (TPUv5e.isComputeBound mt); cbn [negb]; split.
  - rewrite !In_push; cbn [In]; intros H; advice_differs.
  - discriminate.
  - reflexivity.
  - intros _. in_pushes.
Qed.

(** The same on the H100, where the memory-bound advice comes with the
    advice on structured sparsity. *)
Lemma H100_recommendations_shape {N : Number} (gpu : H100.t) (matrix : Matrix)
    (mg : H100.GPUNodeMetrics) :
  let rg := H100._generateRecommendations gpu matrix mg in
  rg <> [] /\
  (In "No recommendations!" rg <-> rg = ["No recommendations!"]) /\
  (In "Operation is memory-bound. Consider increasing batch size to improve arithmetic intensity." rg
   <-> H100.isComputeBound mg = false) /\
  (In "Operation is memory-bound. Consider increasing batch size to improve arithmetic intensity." rg ->
   In "Consider using structured sparsity to potentially double compute throughput." rg).
Proof.
  intros rg. unfold rg, H100._generateRecommendations. cbv zeta.
  match goal with
  | |- context [push (Nat.eqb (List.length ?rs) 0) _ ?rs] => set (inner := rs)
  end.
  assert (Hno : ~ In "No recommendations!" inner).
  { unfold inner. destruct (H100.isComputeBound mg); cbn [negb];
      rewrite !In_push; cbn [In]; intros H; advice_differs. }
  destruct (push_when_empty _ _ Hno) as (Hne & Hnone & Hother).
  split; [exact Hne|]. split; [exact Hnone|].
  rewrite !Hother by discriminate.
  unfold inner. destruct (H100.isComputeBound mg); cbn [negb];
    (split; [split|]).
  - rewrite !In_push; cbn [In]; intros H; advice_differs.
  - discriminate.
  - rewrite !In_push; cbn [In]; intros H; advice_differs.
  - reflexivity.
  - intros _. in_pushes.
  - intros _. in_pushes.
Qed.

(** X5. The list of recommendations is never empty, in both classes, and
    the entry "No recommendations!" is in it exactly when it is the whole
    list.  The memory-bound advice is in it exactly when the metrics are
    not flagged compute-bound, and on the H100 it then comes with the
    advice on structured sparsity. *)
Theorem recommendations_never_empty :
  forall (N : Number) (tpu : TPUv5e.t) (gpu : H100.t) (matrix : Matrix)
         (mt : TPUv5e.TPUNodeMetrics) (mg : H100.GPUNodeMetrics),
    let memory_bound :=
      "Operation is memory-bound. Consider increasing batch size to improve arithmetic intensity." in
    let rt := TPUv5e._generateRecommendations tpu matrix mt in
    let rg := H100._generateRecommendations gpu matrix mg in
    (rt <> [] /\
     (In "No recommendations!" rt <-> rt = ["No recommendations!"]) /\
     (In memory_bound rt <-> TPUv5e.isComputeBound mt = false)) /\
    (rg <> [] /\
     (In "No recommendations!" rg <-> rg = ["No recommendations!"]) /\
     (In memory_bound rg <-> H100.isComputeBound mg = false) /\
     (In memory_bound rg ->
      In "Consider using structured sparsity to potentially double compute throughput." rg)).
Proof.
  intros N tpu gpu matrix mt mg memory_bound rt rg. split.
  - exact (TPU_recommendations_shape tpu matrix mt).
  - exact (H100_recommendations_shape gpu matrix mg).
Qed.

(* ================================================================== *)
(** * The roofline, over the rationals                                 *)
(* ================================================================== *)

(** The quantities of a single-device analysis that place the operation
    against the roofline, in the terms of the operation. *)
Lemma TPU_single_roofline {N : Number} (tpu : TPUv5e.t) (matrix : Matrix)
    (m : TPUv5e.TPUNodeMetrics) :
  TPUv5e._calculateSingleNodeMetrics tpu matrix = Ok m ->
  let fps := if dtype_eqb (mat_dtype (lhs matrix)) int8
             then TPUv5e.flopsPerSecondINT8 tpu
             else TPUv5e.flopsPerSecondBF16 tpu in
  TPUv5e.bytes m = calculateBytes matrix /\
  TPUv5e.arithmeticIntensity m
  = (TPUv5e.totalFLOPs m / totalBytes (calculateBytes matrix))%js /\
  TPUv5e.peakHardwareIntensity m = (fps / TPUv5e.hbmBandwidth tpu)%js /\
  TPUv5e.isComputeBound m
  = (TPUv5e.arithmeticIntensity m >? TPUv5e.peakHardwareIntensity m)%js /\
  TPUv5e.computeTime m = (TPUv5e.totalFLOPs m / fps)%js /\
  TPUv5e.memoryTime m
  = (totalBytes (calculateBytes matrix) / TPUv5e.hbmBandwidth tpu)%js /\
  TPUv5e.lowerBoundTime m
  = Math_max (TPUv5e.computeTime m) (TPUv5e.memoryTime m).
Proof. intros Hm. open_single Hm. repeat split. Qed.

Lemma H100_single_roofline {N : Number} (gpu : H100.t) (matrix : Matrix)
    (m : H100.GPUNodeMetrics) :
  H100._calculateSingleNodeMetrics gpu matrix = Ok m ->
  let fps := H100.flopsPerSecond_of gpu (mat_dtype (lhs matrix)) in
  H100.bytes m = calculateBytes matrix /\
  H100.arithmeticIntensity m
  = (H100.totalFLOPs m / totalBytes (calculateBytes matrix))%js /\
  H100.peakHardwareIntensity m = (fps / H100.hbmBandwidth gpu)%js /\
  H100.isComputeBound m
  = (H100.arithmeticIntensity m >? H100.peakHardwareIntensity m)%js /\
  H100.computeTime m = (H100.totalFLOPs m / fps)%js /\
  H100.memoryTime m
  = (totalBytes (calculateBytes matrix) / H100.hbmBandwidth gpu)%js /\
  H100.effectiveMemoryTime m
  = (H100.memoryTime m
     / (if H100.canFitWeightsInL2 m then lit 15 (-1) else $1))%js /\
  H100.lowerBoundTime m
  = Math_max (H100.computeTime m) (H100.effectiveMemoryTime m).
Proof. intros Hm. open_single Hm. repeat split. Qed.

Section Roofline_exact.
Variable log2 : Q -> Q.
Variable pow : Q -> Q -> Q.
Let N : Number := exact log2 pow.
Local Existing Instance N.
Local Open Scope Q_scope.

Lemma div_lt_cross (a b c d : Q) :
  0 < b -> 0 < d -> (a / b < c / d <-> a * d < c * b).
Proof.
  intros Hb Hd.
  assert (Hbd : 0 < b * d) by (apply Qmult_lt_0_compat; assumption).
  rewrite <- (Qmult_lt_r (a / b) (c / d) (b * d) Hbd).
  setoid_replace (a / b * (b * d)) with (a * d) by (field; intros E; lra).
  setoid_replace (c / d * (b * d)) with (c * b) by (field; intros E; lra).
  reflexivity.
Qed.

(** [x < y] as the engine tests it. *)
Lemma ltb_true_iff (x y : Q) : (x <? y)%js = true <-> x < y.
Proof.
  cbn. rewrite negb_true_iff. split.
  - intros H. apply Qnot_le_lt. intros Hle.
    apply Qle_bool_iff in Hle. congruence.
  - intros H. destruct (Qle_bool y x) eqn:E; [|reflexivity].
    apply Qle_bool_iff in E. lra.
Qed.

(** The comparison behind [isComputeBound], on times instead of
    intensities. *)
Lemma above_ridge_iff (flops total fps bw : Q) :
  0 < total -> 0 < fps -> 0 < bw ->
  (fps / bw < flops / total <-> total / bw < flops / fps).
Proof.
  intros Ht Hf Hb.
  rewrite (div_lt_cross fps flops Hb Ht), (div_lt_cross total flops Hb Hf).
  setoid_replace (fps * total) with (total * fps) by ring. reflexivity.
Qed.

(** X6. Over the rationals, an operation with a positive byte total is
    flagged compute-bound exactly when its compute time exceeds its memory
    time, in both classes.  On the TPU the lower bound is then the compute
    time, and the memory time otherwise.  On the H100 the flag compares
    against the memory time before the L2 benefit, which is never below the
    effective memory time (for a nonnegative byte total); a flagged
    operation has the compute time as its lower bound. *)
Theorem compute_bound_flag_compares_times :
  forall (ms ms' : list Matrix) (matrix : Matrix),
    0 < totalBytes (calculateBytes matrix) ->
    (forall m,
       TPUv5e._calculateSingleNodeMetrics (tpu_of ms) matrix = Ok m ->
       (TPUv5e.isComputeBound m = true <->
        TPUv5e.memoryTime m < TPUv5e.computeTime m) /\
       (TPUv5e.isComputeBound m = true ->
        TPUv5e.lowerBoundTime m == TPUv5e.computeTime m) /\
       (TPUv5e.isComputeBound m = false ->
        TPUv5e.lowerBoundTime m == TPUv5e.memoryTime m)) /\
    (forall m,
       H100._calculateSingleNodeMetrics (gpu_of ms') matrix = Ok m ->
       (H100.isComputeBound m = true <->
        H100.memoryTime m < H100.computeTime m) /\
       H100.effectiveMemoryTime m <= H100.memoryTime m /\
       (H100.isComputeBound m = true ->
        H100.lowerBoundTime m == H100.computeTime m)).
Proof.
  intros ms ms' matrix Htotal. split; intros m Hm.
  - apply TPU_single_roofline in Hm. cbv zeta in Hm.
    destruct Hm as (_ & Hai & Hpeak & Hflag & Hc & Hmem & Hlo).
    assert (Hiff : TPUv5e.isComputeBound m = true <->
                   TPUv5e.memoryTime m < TPUv5e.computeTime m).
    { rewrite Hflag, ltb_true_iff, Hai, Hpeak, Hc, Hmem.
      apply above_ridge_iff;
        [exact Htotal | apply TPU_throughput_pos | apply TPU_hbmBandwidth_pos]. }
    split; [exact Hiff|]. split.
    + intros Hb. apply Hiff in Hb. rewrite Hlo. apply Q.max_l. lra.
    + intros Hb. rewrite Hlo. apply Q.max_r.
      apply Qnot_lt_le. intros Hlt. apply Hiff in Hlt. congruence.
  - apply H100_single_roofline in Hm. cbv zeta in Hm.
    destruct Hm as (_ & Hai & Hpeak & Hflag & Hc & Hmem & Heff & Hlo).
    assert (Hiff : H100.isComputeBound m = true <->
                   H100.memoryTime m < H100.computeTime m).
    { rewrite Hflag, ltb_true_iff, Hai, Hpeak, Hc, Hmem.
      apply above_ridge_iff;
        [exact Htotal | apply H100_throughput_pos | apply H100_hbmBandwidth_pos]. }
    assert (Hle : H100.effectiveMemoryTime m <= H100.memoryTime m).
    { assert (H0 : 0 < H100.memoryTime m).
      { rewrite Hmem. apply Qdiv_pos; [exact Htotal | apply H100_hbmBandwidth_pos]. }
      rewrite Heff. destruct (H100.canFitWeightsInL2 m).
      - apply Qle_shift_div_r; [reflexivity|].
        setoid_replace (@lit N 15 (-1)) with (3 # 2) by reflexivity. lra.
      - apply Qle_shift_div_r; [reflexivity|].
        setoid_replace (@of_Z N 1) with 1 by reflexivity. lra. }
    split; [exact Hiff|]. split; [exact Hle|].
    intros Hb. apply Hiff in Hb. rewrite Hlo. apply Q.max_l. lra.
Qed.

End Roofline_exact.

Section Ridge_exact.
Variable log2 : Q -> Q.
Variable pow : Q -> Q -> Q.
Let N : Number := exact log2 pow.
Local Existing Instance N.
Local Open Scope Q_scope.

(** The arithmetic intensity of a [B x D] by [D x F] multiplication whose
    operands take two bytes per element stays below [B] and below [F]. *)
Lemma intensity_below_batch (B D F w : Q) :
  0 < B -> 0 < D -> 0 < F -> 0 < w ->
  let total := 1 * B * D * 2 + 1 * D * F * 2 + B * F * w in
  0 < total /\ 2 * B * D * F / total < B /\ 2 * B * D * F / total < F.
Proof.
  intros HB HD HF Hw total.
  assert (HBD : 0 < B * D) by (apply Qmult_lt_0_compat; assumption).
  assert (HDF : 0 < D * F) by (apply Qmult_lt_0_compat; assumption).
  assert (HBF : 0 < B * F) by (apply Qmult_lt_0_compat; assumption).
  assert (HBFw : 0 < B * F * w) by (apply Qmult_lt_0_compat; assumption).
  assert (Ht : 0 < total) by (unfold total; lra).
  split; [exact Ht|]. split; apply Qlt_shift_div_r; try exact Ht.
  - assert (H1 : 0 < B * (B * D)) by (apply Qmult_lt_0_compat; assumption).
    assert (H2 : 0 < B * (B * F * w)) by (apply Qmult_lt_0_compat; assumption).
    unfold total.
    setoid_replace (B * (1 * B * D * 2 + 1 * D * F * 2 + B * F * w))
      with (2 * (B * (B * D)) + 2 * B * D * F + B * (B * F * w)) by ring.
    lra.
  - assert (H1 : 0 < F * (D * F)) by (apply Qmult_lt_0_compat; assumption).
    assert (H2 : 0 < F * (B * F * w)) by (apply Qmult_lt_0_compat; assumption).
    unfold total.
    setoid_replace (F * (1 * B * D * 2 + 1 * D * F * 2 + B * F * w))
      with (2 * B * D * F + 2 * (F * (D * F)) + F * (B * F * w)) by ring.
    lra.
Qed.

(** X7. Over the rationals, a multiplication of bf16 operands with positive
    dimensions [B x D] by [D x F] that is flagged compute-bound has [B] and
    [F] above the ridge of the device: 1.97e14 / 8.1e11 = 19700/81 (about
    243.2) on the TPU and 9.89e14 / 3.35e12 = 19780/67 (about 295.2) on the
    H100, whatever the output type.  So the TPU's advice on a batch size
    below 240 is only ever given to an operation that also receives the
    memory-bound advice. *)
Theorem compute_bound_needs_large_batch :
  forall (ms ms' : list Matrix) (rnd : string) (B D F : Q) (dout : dtype),
    0 < B -> 0 < D -> 0 < F ->
    let op := operation_of rnd matmul B D D F bf16 bf16 dout in
    (forall m,
       TPUv5e._calculateSingleNodeMetrics (tpu_of ms) op = Ok m ->
       (TPUv5e.isComputeBound m = true -> (19700 # 81) < B /\ (19700 # 81) < F) /\
       (In "For bf16 matmul on TPU, batch size should be at least 240 to be compute-bound."
           (TPUv5e._generateRecommendations (tpu_of ms) op m) ->
        In "Operation is memory-bound. Consider increasing batch size to improve arithmetic intensity."
           (TPUv5e._generateRecommendations (tpu_of ms) op m))) /\
    (forall m,
       H100._calculateSingleNodeMetrics (gpu_of ms') op = Ok m ->
       H100.isComputeBound m = true -> (19780 # 67) < B /\ (19780 # 67) < F).
Proof.
  intros ms ms' rnd B D F dout HB HD HF op.
  destruct (@intensity_below_batch B D F (@bytesPerElement N dout) HB HD HF
              (bytesPerElement_pos log2 pow dout)) as (Ht & HlB & HlF).
  cbv zeta in HlB, HlF.
  split; intros m Hm.
  - pose proof (TPU_single_roofline _ _ Hm) as Hr. cbv zeta in Hr.
    destruct Hr as (_ & Hai & Hpeak & Hflag & _).
    assert (Hfl : TPUv5e.totalFLOPs m = 2 * B * D * F).
    { open_single Hm. reflexivity. }
    assert (Hridge : TPUv5e.isComputeBound m = true ->
                     (19700 # 81) < B /\ (19700 # 81) < F).
    { intros Hb. rewrite Hflag in Hb. apply ltb_true_iff in Hb.
      rewrite Hai, Hpeak, Hfl in Hb.
      change (totalBytes (calculateBytes op))
        with (1 * B * D * 2 + 1 * D * F * 2 + B * F * bytesPerElement dout) in Hb.
      split;
        [ apply Qle_lt_trans with (2 := Qlt_trans _ _ _ Hb HlB)
        | apply Qle_lt_trans with (2 := Qlt_trans _ _ _ Hb HlF) ];
        vm_compute; discriminate. }
    split; [exact Hridge|].
    intros Hin.
    apply TPU_memory_bound_advised.
    destruct (TPUv5e.isComputeBound m) eqn:Hb; [|reflexivity].
    exfalso. destruct (Hridge eq_refl) as [HBig _].
    unfold TPUv5e._generateRecommendations in Hin. cbv zeta in Hin.
    rewrite Hb in Hin. cbn [negb] in Hin.
    rewrite !In_push in Hin. cbn [In] in Hin.
    destruct Hin as [[[[] | [_ Hpad]] | [Hlow _]] | [_ Hnone]].
    + unfold TPUv5e.padding_advice in Hpad. cbn in Hpad. discriminate Hpad.
    + apply andb_true_iff in Hlow. destruct Hlow as [Hlow _].
      apply ltb_true_iff in Hlow. change (B < 240) in Hlow. lra.
    + discriminate Hnone.
  - pose proof (H100_single_roofline _ _ Hm) as Hr. cbv zeta in Hr.
    destruct Hr as (_ & Hai & Hpeak & Hflag & _).
    assert (Hfl : H100.totalFLOPs m = 2 * B * D * F).
    { open_single Hm. reflexivity. }
    intros Hb. rewrite Hflag in Hb. apply ltb_true_iff in Hb.
    rewrite Hai, Hpeak, Hfl in Hb.
    change (totalBytes (calculateBytes op))
      with (1 * B * D * 2 + 1 * D * F * 2 + B * F * bytesPerElement dout) in Hb.
    split;
      [ apply Qle_lt_trans with (2 := Qlt_trans _ _ _ Hb HlB)
      | apply Qle_lt_trans with (2 := Qlt_trans _ _ _ Hb HlF) ];
      vm_compute; discriminate.
Qed.

End Ridge_exact.

(* ================================================================== *)
(** * The roofline data                                                *)
(* ================================================================== *)

Lemma sample_sampled {N : Number} (fuel : nat) (pk bw ridge i : number)
    (points l : list IntensityPoint) :
  Forall (sampled pk bw ridge) points ->
  sample fuel pk bw ridge i points = Some l ->
  Forall (sampled pk bw ridge) l.
Proof.
  revert i points. induction fuel as [|fuel IH]; intros i points Hacc H.
  - discriminate H.
  - cbn in H. destruct (i <=? $4)%js.
    + apply IH in H; [exact H|].
      apply Forall_app. split; [exact Hacc|].
      constructor; [|constructor]. repeat split.
    + injection H as <-. exact Hacc.
Qed.

(** The roofline data of either class, in the terms of its arguments. *)
Lemma TPU_roofline_data {N : Number} (fuel : nat) (tpu : TPUv5e.t)
    (matrix : Matrix) (metrics : TPUv5e.TPUNodeMetrics) (rd : RooflineData) :
  TPUv5e._generateRooflineData fuel tpu matrix metrics = Some rd ->
  let pk := if dtype_eqb (mat_dtype (lhs matrix)) int8
            then TPUv5e.flopsPerSecondINT8 tpu
            else TPUv5e.flopsPerSecondBF16 tpu in
  rd_peakFlops rd = pk /\
  rd_peakHardwareIntensity rd = TPUv5e.peakHardwareIntensity metrics /\
  mp_intensity (matrixPoint rd) = TPUv5e.arithmeticIntensity metrics /\
  mp_achievableFlops (matrixPoint rd)
  = (if TPUv5e.isComputeBound metrics then pk
     else (TPUv5e.hbmBandwidth tpu * TPUv5e.arithmeticIntensity metrics)%js) /\
  isCurrentMatrix (matrixPoint rd) = true /\
  Forall (sampled pk (TPUv5e.hbmBandwidth tpu)
            (TPUv5e.peakHardwareIntensity metrics))
         (intensityPoints rd).
Proof.
  unfold TPUv5e._generateRooflineData. cbv zeta. intros H.
  match type of H with
  | match ?c with _ => _ end = _ => destruct c as [l|] eqn:E; [|discriminate H]
  end.
  injection H as <-. cbn. repeat split.
  eapply sample_sampled; [|exact E]. constructor.
Qed.

Lemma H100_roofline_data {N : Number} (fuel : nat) (gpu : H100.t)
    (matrix : Matrix) (metrics : H100.GPUNodeMetrics) (rd : RooflineData) :
  H100._generateRooflineData fuel gpu matrix metrics = Some rd ->
  let pk := H100.flopsPerSecond_of gpu (mat_dtype (lhs matrix)) in
  rd_peakFlops rd = pk /\
  rd_peakHardwareIntensity rd = H100.peakHardwareIntensity metrics /\
  mp_intensity (matrixPoint rd) = H100.arithmeticIntensity metrics /\
  mp_achievableFlops (matrixPoint rd)
  = (if H100.isComputeBound metrics then pk
     else (H100.hbmBandwidth gpu * H100.arithmeticIntensity metrics)%js) /\
  isCurrentMatrix (matrixPoint rd) = true /\
  Forall (sampled pk (H100.hbmBandwidth gpu)
            (H100.peakHardwareIntensity metrics))
         (intensityPoints rd).
Proof.
  unfold H100._generateRooflineData. cbv zeta. intros H.
  match type of H with
  | match ?c with _ => _ end = _ => destruct c as [l|] eqn:E; [|discriminate H]
  end.
  injection H as <-. cbn. repeat split.
  eapply sample_sampled; [|exact E]. constructor.
Qed.

(** An analysis that returns, opened: the operation found, its metrics and
    its roofline data. *)
Lemma TPU_analyze_returns {N : Number} (fuel : nat) (tpu : TPUv5e.t)
    (Id : string) (a : TPUv5e.Analysis) :
  TPUv5e.analyze fuel tpu Id = Some (Ok a) ->
  exists matrix,
    find_matrix (TPUv5e.matrices tpu) Id = Some matrix /\
    TPUv5e._calculateSingleNodeMetrics tpu matrix = Ok (TPUv5e.m a) /\
    TPUv5e.r a = TPUv5e._generateRecommendations tpu matrix (TPUv5e.m a) /\
    TPUv5e._generateRooflineData fuel tpu matrix (TPUv5e.m a) = Some (TPUv5e.d a).
Proof.
  unfold TPUv5e.analyze. intros H.
  destruct (find_matrix (TPUv5e.matrices tpu) Id) as [matrix|]; [|discriminate H].
  destruct (TPUv5e._calculateSingleNodeMetrics tpu matrix) as [s|] eqn:Es;
    [|discriminate H].
  destruct (TPUv5e._generateRooflineData fuel tpu matrix s) as [rd|] eqn:Ed;
    [|discriminate H].
  injection H as <-. exists matrix. cbn. auto.
Qed.

Lemma H100_analyze_returns {N : Number} (fuel : nat) (gpu : H100.t)
    (Id : string) (a : H100.Analysis) :
  H100.analyze fuel gpu Id = Some (Ok a) ->
  exists matrix,
    find_matrix (H100.matrices gpu) Id = Some matrix /\
    H100._calculateSingleNodeMetrics gpu matrix = Ok (H100.m a) /\
    H100.r a = H100._generateRecommendations gpu matrix (H100.m a) /\
    H100._generateRooflineData fuel gpu matrix (H100.m a) = Some (H100.d a).
Proof.
  unfold H100.analyze. intros H.
  destruct (find_matrix (H100.matrices gpu) Id) as [matrix|]; [|discriminate H].
  destruct (H100._calculateSingleNodeMetrics gpu matrix) as [s|] eqn:Es;
    [|discriminate H].
  destruct (H100._generateRooflineData fuel gpu matrix s) as [rd|] eqn:Ed;
    [|discriminate H].
  injection H as <-. exists matrix. cbn. auto.
Qed.

Section RooflineData_exact.
Variable log2 : Q -> Q.
Variable pow : Q -> Q -> Q.
Let N : Number := exact log2 pow.
Local Existing Instance N.
Local Open Scope Q_scope.

(** A point of intensity [x] under a roof of peak [pk] and slope [bw]:
    being left of the ridge [pk / bw] and being below the peak are the same,
    and the point chosen by a flag for "right of the ridge" is on the
    roof. *)
Lemma on_the_roof (pk bw x : Q) :
  0 < bw ->
  (x < pk / bw <-> Qmin pk (bw * x) < pk) /\
  (x < pk / bw -> Qmin pk (bw * x) == bw * x) /\
  (~ x < pk / bw -> Qmin pk (bw * x) == pk) /\
  (if (pk / bw <? x)%js then pk else bw * x) == Qmin pk (bw * x).
Proof.
  intros Hbw.
  assert (Hcross : x < pk / bw <-> bw * x < pk).
  { split; intros H.
    - apply (Qmult_lt_l _ _ bw Hbw) in H.
      setoid_replace (bw * (pk / bw)) with pk in H by (field; intros E; lra).
      exact H.
    - apply (Qmult_lt_l _ _ bw Hbw).
      setoid_replace (bw * (pk / bw)) with pk by (field; intros E; lra).
      exact H. }
  assert (Hcross' : pk / bw < x <-> pk < bw * x).
  { split; intros H.
    - apply (Qmult_lt_l _ _ bw Hbw) in H.
      setoid_replace (bw * (pk / bw)) with pk in H by (field; intros E; lra).
      exact H.
    - apply (Qmult_lt_l _ _ bw Hbw).
      setoid_replace (bw * (pk / bw)) with pk by (field; intros E; lra).
      exact H. }
  split; [|split; [|split]].
  - rewrite Hcross. split; intros H.
    + apply Qle_lt_trans with (bw * x); [apply Q.le_min_r | exact H].
    + destruct (Q.min_spec pk (bw * x)) as [[Hlt Heq] | [Hle Heq]];
        rewrite Heq in H; lra.
  - intros H. apply Hcross in H. apply Q.min_r. lra.
  - intros H. apply Q.min_l. apply Qnot_lt_le. intros Hlt. apply H.
    apply Hcross. exact Hlt.
  - match goal with |- context [if ?c then _ else _] => destruct c eqn:E end.
    + apply ltb_true_iff in E. apply Hcross' in E.
      symmetry. apply Q.min_l. lra.
    + symmetry. apply Q.min_r. apply Qnot_lt_le. intros Hlt.
      apply Hcross' in Hlt. apply (ltb_true_iff log2 pow) in Hlt.
      discriminate (eq_trans (eq_sym Hlt) E).
Qed.

Lemma sampled_consistent (pk bw : Q) (p : IntensityPoint) :
  0 < bw ->
  sampled pk bw (pk / bw) p ->
  peakFlops p = pk /\
  achievableFlops p == Qmin (peakFlops p) (bw * intensity p) /\
  (memoryBound p = true <-> achievableFlops p < peakFlops p) /\
  (memoryBound p = true -> achievableFlops p == bw * intensity p) /\
  (memoryBound p = false -> achievableFlops p == peakFlops p).
Proof.
  intros Hbw (Hpk & Hach & Hflag).
  destruct (on_the_roof pk (intensity p) Hbw) as (Hiff & Hleft & Hright & _).
  assert (Hm : memoryBound p = true <-> intensity p < pk / bw).
  { rewrite Hflag. apply (ltb_true_iff log2 pow). }
  rewrite Hm, Hpk, Hach.
  split; [reflexivity|]. split; [reflexivity|].
  split; [exact Hiff|]. split; [exact Hleft|].
  intros Hf. apply Hright. intros Hlt. apply Hm in Hlt. congruence.
Qed.

(** A quotient by a positive divisor, multiplied back. *)
Lemma quotient_times_divisor (q f t : Q) : q = f / t -> 0 < t -> q * t == f.
Proof. intros -> Ht. field. intros E. rewrite E in Ht. discriminate Ht. Qed.

(** X8. Over the rationals, the roofline data that [analyze] returns are
    consistent, in both classes and for every registered operation whose
    byte total is positive (the arithmetic intensity divides by it): the
    ridge is the peak throughput over the HBM bandwidth, the point of the
    operation has its arithmetic intensity and lies on the roof
    [min(peak, bandwidth * intensity)], and every sample lies on the roof,
    carries the same peak, and is flagged memory-bound exactly when its
    achievable throughput is below the peak. *)
Theorem roofline_data_are_consistent :
  forall (ms ms' : list Matrix) (fuel : nat) (Id : string) (matrix : Matrix),
    0 < totalBytes (calculateBytes matrix) ->
    (find_matrix ms Id = Some matrix ->
     forall a, TPUv5e.analyze fuel (tpu_of ms) Id = Some (Ok a) ->
       consistent (TPUv5e.hbmBandwidth (tpu_of ms)) (TPUv5e.d a) /\
       mp_intensity (matrixPoint (TPUv5e.d a))
       = TPUv5e.arithmeticIntensity (TPUv5e.m a) /\
       TPUv5e.arithmeticIntensity (TPUv5e.m a) * totalBytes (calculateBytes matrix)
       == TPUv5e.totalFLOPs (TPUv5e.m a)) /\
    (find_matrix ms' Id = Some matrix ->
     forall a, H100.analyze fuel (gpu_of ms') Id = Some (Ok a) ->
       consistent (H100.hbmBandwidth (gpu_of ms')) (H100.d a) /\
       mp_intensity (matrixPoint (H100.d a))
       = H100.arithmeticIntensity (H100.m a) /\
       H100.arithmeticIntensity (H100.m a) * totalBytes (calculateBytes matrix)
       == H100.totalFLOPs (H100.m a)).
Proof.
  intros ms ms' fuel Id matrix0 Hbytes. split; intros Hfind a Ha.
  - apply TPU_analyze_returns in Ha as (matrix & Hfind' & Hm & _ & Hd).
    cbn [TPUv5e.matrices tpu_of TPUv5e.with_matrices] in Hfind'.
    rewrite Hfind in Hfind'. injection Hfind' as <-.
    apply TPU_single_roofline in Hm. cbv zeta in Hm.
    destruct Hm as (_ & Hai & Hpeak & Hflag & _).
    apply TPU_roofline_data in Hd. cbv zeta in Hd.
    destruct Hd as (Hpk & Hridge & Hint & Hach & _ & Hpoints).
    pose proof (TPU_hbmBandwidth_pos (log2:=log2) (pow:=pow) ms) as Hbw.
    split; [|split; [exact Hint | exact (quotient_times_divisor Hai Hbytes)]].
    unfold consistent. unfold N in *.
    rewrite Hpk, Hridge, Hint, Hach, Hflag, Hpeak.
    split; [reflexivity|]. split.
    + apply (on_the_roof _ _ Hbw).
    + rewrite Hpeak in Hpoints. eapply Forall_impl; [|exact Hpoints].
      intros p Hp. apply sampled_consistent; assumption.
  - apply H100_analyze_returns in Ha as (matrix & Hfind' & Hm & _ & Hd).
    cbn [H100.matrices gpu_of H100.with_matrices] in Hfind'.
    rewrite Hfind in Hfind'. injection Hfind' as <-.
    apply H100_single_roofline in Hm. cbv zeta in Hm.
    destruct Hm as (_ & Hai & Hpeak & Hflag & _).
    apply H100_roofline_data in Hd. cbv zeta in Hd.
    destruct Hd as (Hpk & Hridge & Hint & Hach & _ & Hpoints).
    pose proof (H100_hbmBandwidth_pos (log2:=log2) (pow:=pow) ms') as Hbw.
    split; [|split; [exact Hint | exact (quotient_times_divisor Hai Hbytes)]].
    unfold consistent. unfold N in *.
    rewrite Hpk, Hridge, Hint, Hach, Hflag, Hpeak.
    split; [reflexivity|]. split.
    + apply (on_the_roof _ _ Hbw).
    + rewrite Hpeak in Hpoints. eapply Forall_impl; [|exact Hpoints].
      intros p Hp. apply sampled_consistent; assumption.
Qed.

End RooflineData_exact.

(* ================================================================== *)
(** * Utilization and occupancy, over the rationals                    *)
(* ================================================================== *)

Section Utilization_exact.
Variable log2 : Q -> Q.
Variable pow : Q -> Q -> Q.
Let N : Number := exact log2 pow.
Local Existing Instance N.
Local Open Scope Q_scope.

(** A tiling fraction of a positive dimension lies in (0, 1], and above
    one half once the dimension fills a tile. *)
Lemma utilization_range (x unit : Q) :
  0 < x -> 0 < unit ->
  0 < @utilization N x unit <= 1 /\
  (unit <= x -> 1 # 2 < @utilization N x unit).
Proof.
  intros Hx Hunit. unfold utilization.
  destruct (@eqb N (@rem N x unit) _) eqn:E.
  - split; [split|]; intros; reflexivity || discriminate.
  - cbn.
    set (q := x / unit).
    assert (Hq : 0 < q) by (apply Qdiv_pos; assumption).
    set (c := inject_Z (Qceiling q)).
    assert (Hc : q <= c) by apply Qle_ceiling.
    assert (Hc' : c < q + 1).
    { pose proof (Qceiling_lt q) as H. unfold c.
      unfold Z.sub in H. rewrite inject_Z_plus, inject_Z_opp in H.
      change (inject_Z 1) with 1 in H. lra. }
    assert (Hcpos : 0 < c) by lra.
    assert (Heq : x / c / unit == q / c).
    { unfold q. field. split; intros E0; lra. }
    rewrite Heq. split; [split|].
    + apply Qdiv_pos; assumption.
    + apply Qle_shift_div_r; [exact Hcpos | lra].
    + intros Hle.
      assert (H1 : 1 <= q).
      { unfold q. apply Qle_shift_div_l; [exact Hunit | lra]. }
      apply Qlt_shift_div_l; [exact Hcpos | lra].
Qed.

(** X9. Over the rationals, for an operation with positive dimensions every
    tiling-utilization fraction lies in (0, 1]: the three of the TPU against
    the 128 x 128 MXU and the three of the H100 against the 4 x 4 x 16
    tensor-core tile.  A dimension that fills at least one tile has a
    fraction above one half. *)
Theorem tiling_fractions_in_unit_interval :
  forall (ms ms' : list Matrix) (rnd : string) (ty : operation)
         (B D D' F : Q) (dl dr dout : dtype),
    0 < B -> 0 < D -> 0 < F ->
    let op := operation_of rnd ty B D D' F dl dr dout in
    (forall m, TPUv5e._calculateSingleNodeMetrics (tpu_of ms) op = Ok m ->
       let u := TPUv5e.mxuUtilization m in
       0 < TPUv5e.lhsUtilization u <= 1 /\
       0 < TPUv5e.rhsUtilizationRows u <= 1 /\
       0 < TPUv5e.rhsUtilizationCols u <= 1 /\
       (128 <= B -> 1 # 2 < TPUv5e.lhsUtilization u) /\
       (128 <= D -> 1 # 2 < TPUv5e.rhsUtilizationRows u) /\
       (128 <= F -> 1 # 2 < TPUv5e.rhsUtilizationCols u)) /\
    (forall m, H100._calculateSingleNodeMetrics (gpu_of ms') op = Ok m ->
       let u := H100.tensorCoreUtilization m in
       0 < H100.mUtilization u <= 1 /\
       0 < H100.nUtilization u <= 1 /\
       0 < H100.kUtilization u <= 1 /\
       (4 <= B -> 1 # 2 < H100.mUtilization u) /\
       (4 <= F -> 1 # 2 < H100.nUtilization u) /\
       (16 <= D -> 1 # 2 < H100.kUtilization u)).
Proof.
  intros ms ms' rnd ty B D D' F dl dr dout HB HD HF op.
  split; intros m Hm u.
  - apply TPU_single_formulas in Hm. cbv zeta in Hm.
    destruct Hm as (_ & _ & _ & _ & _ & _ & Hu). unfold u. rewrite Hu. cbn.
    destruct (@utilization_range B 128 HB eq_refl) as [HB1 HB2].
    destruct (@utilization_range D 128 HD eq_refl) as [HD1 HD2].
    destruct (@utilization_range F 128 HF eq_refl) as [HF1 HF2].
    repeat split; first [apply HB1 | apply HD1 | apply HF1
                        | exact HB2 | exact HD2 | exact HF2].
  - apply H100_single_formulas in Hm. cbv zeta in Hm.
    destruct Hm as (_ & _ & _ & _ & _ & _ & _ & Hu). unfold u. rewrite Hu. cbn.
    destruct (@utilization_range B 4 HB eq_refl) as [HB1 HB2].
    destruct (@utilization_range F 4 HF eq_refl) as [HF1 HF2].
    destruct (@utilization_range D 16 HD eq_refl) as [HD1 HD2].
    repeat split; first [apply HB1 | apply HD1 | apply HF1
                        | exact HB2 | exact HD2 | exact HF2].
Qed.

(** A multiple of a multiple. *)
Lemma multiple_of_multiple (x unit : Q) (k : Z) :
  multiple x (inject_Z k * unit) -> multiple x unit.
Proof.
  intros [j Hj]. exists (j * k)%Z. rewrite inject_Z_mult, Hj. ring.
Qed.

(** A dimension that is a multiple of [n] times the tile uses its tiles
    fully. *)
Lemma utilization_full (x unit : Q) (k : Z) :
  ~ unit == 0 -> ~ inject_Z k * unit == 0 ->
  (@eqb N (@rem N x (inject_Z k * unit)) (@of_Z N 0)) = true ->
  @utilization N x unit = 1.
Proof.
  intros Hunit Hk Hrem.
  apply (rem_zero_iff_multiple log2 pow x Hk) in Hrem.
  apply multiple_of_multiple in Hrem.
  apply (rem_zero_iff_multiple log2 pow x Hunit) in Hrem.
  unfold utilization.
  match goal with
  | |- (if ?c then _ else _) = _ =>
      assert (Hc : c = true) by exact Hrem; rewrite Hc
  end.
  reflexivity.
Qed.

(** X10. On the H100, over the rationals: whenever the recommendations hold
    the advice to pad to the tensor-core tile, they also hold the advice on
    CUDA kernel dimensions (multiples of 32 for M and N, of 16 for K), for
    the metrics computed from the operation. *)
Theorem H100_padding_advice_implies_kernel_advice :
  forall (ms : list Matrix) (rnd : string) (ty : operation)
         (B D D' F : Q) (dl dr dout : dtype) (m : H100.GPUNodeMetrics),
    let op := operation_of rnd ty B D D' F dl dr dout in
    H100._calculateSingleNodeMetrics (gpu_of ms) op = Ok m ->
    In "Consider padding matrix dimensions to multiples of tensor core dimensions (4x4x16) to improve hardware utilization."
       (H100._generateRecommendations (gpu_of ms) op m) ->
    In "For optimal CUDA kernel performance, consider using dimensions that are multiples of 32 for M and N, and 16 for K."
       (H100._generateRecommendations (gpu_of ms) op m).
Proof.
  intros ms rnd ty B D D' F dl dr dout m op Hm Hin.
  apply H100_single_formulas in Hm. cbv zeta in Hm.
  destruct Hm as (_ & _ & _ & _ & _ & _ & _ & Hu).
  unfold H100._generateRecommendations in Hin |- *. cbv zeta in Hin |- *.
  rewrite Hu in Hin |- *.
  cbn [H100.mUtilization H100.nUtilization H100.kUtilization] in Hin |- *.
  change (array_get (shape (lhs op)) 0) with B in Hin |- *.
  change (array_get (shape (lhs op)) 1) with D in Hin |- *.
  change (array_get (shape (rhs op)) 1) with F in Hin |- *.
  destruct (negb (@eqb N (@rem N B (@of_Z N 32)) (@of_Z N 0))
            || negb (@eqb N (@rem N F (@of_Z N 32)) (@of_Z N 0))
            || negb (@eqb N (@rem N D (@of_Z N 16)) (@of_Z N 0))) eqn:Ekernel.
  - apply push_keeps. apply push_adds.
  - exfalso.
    apply orb_false_iff in Ekernel. destruct Ekernel as [Ekernel ED].
    apply orb_false_iff in Ekernel. destruct Ekernel as [EB EF].
    apply negb_false_iff in EB, EF, ED.
    assert (HuB : @utilization N B 4 = 1).
    { apply (@utilization_full B 4 8); [discriminate | discriminate | exact EB]. }
    assert (HuF : @utilization N F 4 = 1).
    { apply (@utilization_full F 4 8); [discriminate | discriminate | exact EF]. }
    assert (HuD : @utilization N D 16 = 1).
    { apply (@utilization_full D 16 1); [discriminate | discriminate | exact ED]. }
    change (@utilization N B (@of_Z N (fst (fst (H100.tensorCoreConfig (gpu_of ms))))))
      with (@utilization N B 4) in Hin.
    change (@utilization N F (@of_Z N (snd (fst (H100.tensorCoreConfig (gpu_of ms))))))
      with (@utilization N F 4) in Hin.
    change (@utilization N D (@of_Z N (snd (H100.tensorCoreConfig (gpu_of ms)))))
      with (@utilization N D 16) in Hin.
    rewrite HuB, HuF, HuD in Hin.
    change (@ltb N 1 (@lit N 9 (-1))) with false in Hin.
    cbn [orb] in Hin.
    rewrite !In_push in Hin. cbn [In] in Hin.
    destruct (H100.isComputeBound m); cbn [negb] in Hin;
      rewrite ?In_push in Hin; cbn [In] in Hin; advice_differs.
Qed.

(** X11. On the H100, over the rationals, the SM occupancy of an operation
    is [min(1, ceil(B / 32) * ceil(F / 32) / 1056)]: eight blocks on each of
    the 132 SMs.  It does not depend on [D] or on the element types; for
    nonnegative [B] and [F] it lies in [0, 1], and it is 1 exactly when the
    operation needs at least 1056 blocks. *)
Theorem H100_smOccupancy_law :
  forall (ms : list Matrix) (rnd : string) (ty : operation)
         (B D D' F : Q) (dl dr dout : dtype) (m : H100.GPUNodeMetrics),
    H100._calculateSingleNodeMetrics (gpu_of ms)
      (operation_of rnd ty B D D' F dl dr dout) = Ok m ->
    let blocksNeeded := (Qceiling (B / 32) * Qceiling (F / 32))%Z in
    H100.smOccupancy m == Qmin 1 (inject_Z blocksNeeded / 1056) /\
    (0 <= B -> 0 <= F -> 0 <= H100.smOccupancy m <= 1) /\
    (H100.smOccupancy m == 1 <-> (1056 <= blocksNeeded)%Z).
Proof.
  intros ms rnd ty B D D' F dl dr dout m Hm blocksNeeded.
  assert (Hocc : H100.smOccupancy m == Qmin 1 (inject_Z blocksNeeded / 1056)).
  { open_single Hm. unfold blocksNeeded. rewrite inject_Z_mult. reflexivity. }
  split; [exact Hocc|].
  assert (Hiff : 1 <= inject_Z blocksNeeded / 1056 <-> (1056 <= blocksNeeded)%Z).
  { rewrite (Zle_Qle 1056 blocksNeeded). change (inject_Z 1056) with 1056.
    split; intros H.
    - apply (Qmult_le_r _ _ (1056) ltac:(reflexivity)) in H.
      setoid_replace (inject_Z blocksNeeded / 1056 * 1056)
        with (inject_Z blocksNeeded) in H by field.
      lra.
    - apply Qle_shift_div_l; [reflexivity | lra]. }
  split.
  - intros HB HF. rewrite Hocc. split.
    + apply Q.min_glb; [discriminate|].
      apply Qdiv_nonneg; [|reflexivity].
      unfold blocksNeeded. rewrite inject_Z_mult.
      apply Qmult_le_0_compat.
      * apply Qle_trans with (B / 32); [|apply Qle_ceiling].
        apply Qdiv_nonneg; [exact HB | reflexivity].
      * apply Qle_trans with (F / 32); [|apply Qle_ceiling].
        apply Qdiv_nonneg; [exact HF | reflexivity].
    + apply Q.le_min_l.
  - rewrite Hocc, <- Hiff. split; intros H.
    + rewrite <- H. apply Q.le_min_r.
    + apply Q.min_l. exact H.
Qed.

End Utilization_exact.

(* ================================================================== *)
(** * Sharding, over the rationals                                     *)
(* ================================================================== *)

(** The single-device metrics do not read the identifier of the
    operation. *)
Lemma TPU_single_ignores_id {N : Number} (tpu : TPUv5e.t) (rnd rnd' : string)
    (ty : operation) (B D D' F : number) (dl dr dout : dtype) :
  TPUv5e._calculateSingleNodeMetrics tpu (operation_of rnd ty B D D' F dl dr dout)
  = TPUv5e._calculateSingleNodeMetrics tpu (operation_of rnd' ty B D D' F dl dr dout).
Proof. reflexivity. Qed.

Lemma H100_single_ignores_id {N : Number} (gpu : H100.t) (rnd rnd' : string)
    (ty : operation) (B D D' F : number) (dl dr dout : dtype) :
  H100._calculateSingleNodeMetrics gpu (operation_of rnd ty B D D' F dl dr dout)
  = H100._calculateSingleNodeMetrics gpu (operation_of rnd' ty B D D' F dl dr dout).
Proof. reflexivity. Qed.

Section Sharding_exact.
Variable log2 : Q -> Q.
Variable pow : Q -> Q -> Q.
Let N : Number := exact log2 pow.
Local Existing Instance N.
Local Open Scope Q_scope.

Lemma max_with_zero (l : Q) : 0 < l -> Qmax l 0 == l /\ l / Qmax l 0 == 1.
Proof.
  intros Hl.
  assert (Hmax : Qmax l 0 == l) by (apply Q.max_l; lra).
  split; [exact Hmax|]. rewrite Hmax. field. intros E. lra.
Qed.

(** X12. Over the rationals, a multi-device request whose configuration
    shards neither operand, on a registered matrix multiplication with
    positive dimensions, reports for every device count: no communication
    cost, the single-device metrics as per-device metrics, the single-device
    lower bound as total time, and a speedup and a sharding efficiency of 1.
    On the H100 the scaling efficiency is then 1 / numDevices. *)
Theorem unsharded_request_changes_nothing :
  forall (ms ms' : list Matrix) (rnd rnd0 Id : string)
         (B D D' F n : Q) (dl dr dout : dtype),
    0 < B -> 0 < D -> 0 < D' -> 0 < F ->
    let op := operation_of rnd0 matmul B D D' F dl dr dout in
    (find_matrix ms Id = Some op ->
     exists res mm,
       TPUv5e.performanceMetrics (tpu_of ms) rnd Id true (Some (unsharded n))
       = Ok res /\
       TPUv5e.multiNode res = Some mm /\
       TPUv5e.perDeviceMetrics mm = TPUv5e.singleNode res /\
       TPUv5e.communicationCost mm = 0 /\
       TPUv5e.totalTime mm == TPUv5e.lowerBoundTime (TPUv5e.singleNode res) /\
       TPUv5e.speedupOverSingleDevice mm == 1 /\
       TPUv5e.shardingEfficiency mm == 1) /\
    (find_matrix ms' Id = Some op ->
     exists res mm,
       H100.performanceMetrics (gpu_of ms') rnd Id true (Some (unsharded n))
       = Ok res /\
       H100.multiNode res = Some mm /\
       H100.perDeviceMetrics mm = H100.singleNode res /\
       H100.communicationCost mm = 0 /\
       H100.totalTime mm == H100.lowerBoundTime (H100.singleNode res) /\
       H100.speedupOverSingleDevice mm == 1 /\
       H100.shardingEfficiency mm == 1 /\
       H100.scalingEfficiency mm == 1 / n).
Proof.
  intros ms ms' rnd rnd0 Id B D D' F n dl dr dout HB HD HD' HF op.
  assert (Hsh : shardedMatrix rnd op (unsharded n)
                = operation_of rnd matmul B D D' F dl dr dout).
  { unfold shardedMatrix, op, operation_of, new_Matrix, JSON_matinfo,
      JSON_outinfo, unsharded.
    cbn [lhs rhs id type output shape mat_dtype out_dtype map
         lhsShardDim rhsShardDim].
    rewrite !(JSON_number_pos log2 pow) by assumption. reflexivity. }
  unfold N in *.
  split; intros Hfind.
  - destruct (@TPU_lowerBoundTime_pos log2 pow ms rnd0 B D D' F dl dr dout
                HB HD HD' HF) as (whole & Hwhole & Hpos).
    fold op in Hwhole.
    unfold TPUv5e.performanceMetrics.
    cbn [TPUv5e.matrices tpu_of TPUv5e.with_matrices].
    rewrite Hfind. cbn [andb]. rewrite Hwhole. cbn [bind].
    unfold TPUv5e._calculateMultiNodeMetrics.
    rewrite Hsh, (TPU_single_ignores_id _ rnd rnd0). fold op.
    rewrite Hwhole. cbn [bind].
    eexists. eexists. split; [reflexivity|]. split; [reflexivity|].
    cbn. destruct (max_with_zero Hpos) as [Hmax Hone].
    repeat split; assumption.
  - destruct (@H100_lowerBoundTime_pos log2 pow ms' rnd0 B D D' F dl dr dout
                HB HD HD' HF) as (whole & Hwhole & Hpos).
    fold op in Hwhole.
    unfold H100.performanceMetrics.
    cbn [H100.matrices gpu_of H100.with_matrices].
    rewrite Hfind. cbn [andb]. rewrite Hwhole. cbn [bind].
    unfold H100._calculateMultiNodeMetrics.
    rewrite Hsh, (H100_single_ignores_id _ rnd rnd0). fold op.
    rewrite Hwhole. cbn [bind].
    eexists. eexists. split; [reflexivity|]. split; [reflexivity|].
    cbn. destruct (max_with_zero Hpos) as [Hmax Hone].
    repeat split; try assumption.
    rewrite Hone. reflexivity.
Qed.

(** The per-device size of a whole dimension is positive and not larger
    than the dimension. *)
Lemma shard_le (x : Z) (n : Q) :
  (1 <= x)%Z -> 1 <= n ->
  0 < inject_Z (Qceiling (inject_Z x / n)) <= inject_Z x.
Proof.
  intros Hx Hn.
  assert (Hx' : 0 < inject_Z x).
  { assert (H : (0 < x)%Z) by lia. rewrite Zlt_Qlt in H. exact H. }
  split; [apply shard_pos; assumption|].
  rewrite <- Zle_Qle. rewrite <- (Qceiling_Z x) at 2.
  apply Qceiling_resp_le.
  apply Qle_shift_div_r; [lra|].
  assert (H : 0 <= inject_Z x * (n - 1)) by (apply Qmult_le_0_compat; lra).
  lra.
Qed.

Lemma prod_le (a b a' b' : Q) :
  0 <= a <= a' -> 0 <= b <= b' -> 0 <= a * b <= a' * b'.
Proof.
  intros [Ha Ha'] [Hb Hb']. split; [apply Qmult_le_0_compat; assumption|].
  apply Qle_trans with (a' * b).
  - apply Qmult_le_compat_r; assumption.
  - rewrite (Qmult_comm a' b), (Qmult_comm a' b').
    apply Qmult_le_compat_r; [assumption | lra].
Qed.

Lemma div_le_mono (x y z : Q) : x <= y -> 0 < z -> x / z <= y / z.
Proof.
  intros Hxy Hz. unfold Qdiv. apply Qmult_le_compat_r; [exact Hxy|].
  apply Qinv_le_0_compat. lra.
Qed.

Lemma flops_le (b d f B D F : Q) :
  0 < b <= B -> 0 < d <= D -> 0 < f <= F -> 2 * b * d * f <= 2 * B * D * F.
Proof.
  intros Hb Hd Hf.
  assert (H1 : 0 <= b * d <= B * D) by (apply prod_le; lra).
  assert (H2 : 0 <= b * d * f <= B * D * F) by (apply prod_le; lra).
  setoid_replace (2 * b * d * f) with (2 * (b * d * f)) by ring.
  setoid_replace (2 * B * D * F) with (2 * (B * D * F)) by ring.
  lra.
Qed.

Lemma term_le (x y w X Y : Q) :
  0 < x <= X -> 0 < y <= Y -> 0 < w -> 1 * x * y * w <= 1 * X * Y * w.
Proof.
  intros Hx Hy Hw.
  assert (H1 : 0 <= x * y <= X * Y) by (apply prod_le; lra).
  assert (H2 : 0 <= x * y * w <= X * Y * w) by (apply prod_le; lra).
  setoid_replace (1 * x * y * w) with (x * y * w) by ring.
  setoid_replace (1 * X * Y * w) with (X * Y * w) by ring.
  lra.
Qed.

Lemma total_le (b d d' f B D D' F : Q) (dl dr dout : dtype) :
  0 < b <= B -> 0 < d <= D -> 0 < d' <= D' -> 0 < f <= F ->
  1 * b * d * @bytesPerElement N dl + 1 * d' * f * @bytesPerElement N dr
  + b * f * @bytesPerElement N dout
  <= 1 * B * D * @bytesPerElement N dl + 1 * D' * F * @bytesPerElement N dr
     + B * F * @bytesPerElement N dout.
Proof.
  intros Hb Hd Hd' Hf.
  pose proof (term_le Hb Hd (bytesPerElement_pos log2 pow dl)) as H1.
  pose proof (term_le Hd' Hf (bytesPerElement_pos log2 pow dr)) as H2.
  pose proof (term_le Hb Hf (bytesPerElement_pos log2 pow dout)) as H3.
  setoid_replace (b * f * @bytesPerElement N dout)
    with (1 * b * f * @bytesPerElement N dout) by ring.
  setoid_replace (B * F * @bytesPerElement N dout)
    with (1 * B * F * @bytesPerElement N dout) by ring.
  unfold N in *. lra.
Qed.

(** The sharded copy of an operation with whole positive dimensions has
    positive dimensions that are not larger. *)
Lemma shardedMatrix_shrinks (rnd rnd0 : string) (ty : operation)
    (b d d' f : Z) (dl dr dout : dtype) (sC : ShardingConfig) :
  (1 <= b)%Z -> (1 <= d)%Z -> (1 <= d')%Z -> (1 <= f)%Z ->
  1 <= numDevices sC ->
  names_dimension (lhsShardDim sC) -> names_dimension (rhsShardDim sC) ->
  exists x y y' z,
    shardedMatrix rnd
      (operation_of rnd0 ty (inject_Z b) (inject_Z d) (inject_Z d') (inject_Z f)
         dl dr dout) sC
    = operation_of rnd ty x y y' z dl dr dout
    /\ 0 < x <= inject_Z b /\ 0 < y <= inject_Z d
    /\ 0 < y' <= inject_Z d' /\ 0 < z <= inject_Z f.
Proof.
  intros Hb Hd Hd' Hf Hn Hl Hr.
  pose proof (shard_le Hb Hn) as HsB. pose proof (shard_le Hd Hn) as HsD.
  pose proof (shard_le Hd' Hn) as HsD'. pose proof (shard_le Hf Hn) as HsF.
  assert (HB : 0 < inject_Z b <= inject_Z b) by (split; [lra | apply Qle_refl]).
  assert (HD : 0 < inject_Z d <= inject_Z d) by (split; [lra | apply Qle_refl]).
  assert (HD' : 0 < inject_Z d' <= inject_Z d') by (split; [lra | apply Qle_refl]).
  assert (HF : 0 < inject_Z f <= inject_Z f) by (split; [lra | apply Qle_refl]).
  unfold shardedMatrix, operation_of, new_Matrix, JSON_matinfo, JSON_outinfo.
  cbn [lhs rhs id type output shape mat_dtype out_dtype map].
  rewrite !(JSON_number_pos log2 pow) by apply HB || apply HD || apply HD' || apply HF.
  destruct Hl as [Hl | [Hl | Hl]], Hr as [Hr | [Hr | Hr]]; rewrite Hl, Hr;
    do 4 eexists; (split; [reflexivity|]); cbn; auto.
Qed.

(** Between two operations of the same element types, the one with the
    smaller dimensions has the smaller lower bound, in both classes. *)
Lemma TPU_lowerBound_monotone (ms : list Matrix) (rnd rnd' : string)
    (b d d' f B D D' F : Q) (dl dr dout : dtype)
    (m M : TPUv5e.TPUNodeMetrics) :
  0 < b <= B -> 0 < d <= D -> 0 < d' <= D' -> 0 < f <= F ->
  TPUv5e._calculateSingleNodeMetrics (tpu_of ms)
    (operation_of rnd matmul b d d' f dl dr dout) = Ok m ->
  TPUv5e._calculateSingleNodeMetrics (tpu_of ms)
    (operation_of rnd' matmul B D D' F dl dr dout) = Ok M ->
  TPUv5e.totalFLOPs m <= TPUv5e.totalFLOPs M /\
  totalBytes (TPUv5e.bytes m) <= totalBytes (TPUv5e.bytes M) /\
  TPUv5e.lowerBoundTime m <= TPUv5e.lowerBoundTime M.
Proof.
  intros Hb Hd Hd' Hf Hm HM.
  pose proof (flops_le Hb Hd Hf) as Hflops.
  pose proof (total_le dl dr dout Hb Hd Hd' Hf) as Htotal.
  assert (Hfl : TPUv5e.totalFLOPs m = 2 * b * d * f
                /\ TPUv5e.totalFLOPs M = 2 * B * D * F).
  { split; [open_single Hm | open_single HM]; reflexivity. }
  destruct Hfl as [Hfl HFL].
  apply TPU_single_formulas in Hm, HM. cbv zeta in Hm, HM.
  destruct Hm as (_ & Hby & Hc & Hmem & Hlo & _).
  destruct HM as (_ & HBY & HC & HMEM & HLO & _).
  rewrite Hfl, HFL, Hby, HBY, Hlo, HLO, Hc, HC, Hmem, HMEM.
  split; [exact Hflops|]. split; [exact Htotal|].
  apply Q.max_le_compat.
  - apply div_le_mono; [exact Hflops | apply TPU_throughput_pos].
  - apply div_le_mono; [exact Htotal | apply TPU_hbmBandwidth_pos].
Qed.

Lemma H100_lowerBound_monotone (ms : list Matrix) (rnd rnd' : string)
    (b d d' f B D D' F : Q) (dl dr dout : dtype)
    (m M : H100.GPUNodeMetrics) :
  0 < b <= B -> 0 < d <= D -> 0 < d' <= D' -> 0 < f <= F ->
  H100._calculateSingleNodeMetrics (gpu_of ms)
    (operation_of rnd matmul b d d' f dl dr dout) = Ok m ->
  H100._calculateSingleNodeMetrics (gpu_of ms)
    (operation_of rnd' matmul B D D' F dl dr dout) = Ok M ->
  H100.totalFLOPs m <= H100.totalFLOPs M /\
  totalBytes (H100.bytes m) <= totalBytes (H100.bytes M) /\
  H100.lowerBoundTime m <= H100.lowerBoundTime M.
Proof.
  intros Hb Hd Hd' Hf Hm HM.
  pose proof (flops_le Hb Hd Hf) as Hflops.
  pose proof (total_le dl dr dout Hb Hd Hd' Hf) as Htotal.
  pose proof (term_le Hd' Hf (bytesPerElement_pos log2 pow dr)) as Hrhs.
  assert (Hfl : H100.totalFLOPs m = 2 * b * d * f
                /\ H100.totalFLOPs M = 2 * B * D * F).
  { split; [open_single Hm | open_single HM]; reflexivity. }
  destruct Hfl as [Hfl HFL].
  apply H100_single_formulas in Hm, HM. cbv zeta in Hm, HM.
  destruct Hm as (_ & Hby & Hc & Hmem & Heff & Hlo & _).
  destruct HM as (_ & HBY & HC & HMEM & HEFF & HLO & _).
  assert (Hmem0 : 0 <= H100.memoryTime m).
  { rewrite Hmem. apply Qdiv_nonneg; [|apply H100_hbmBandwidth_pos].
    apply (total_nonneg log2 pow); lra. }
  assert (Hmems : H100.memoryTime m <= H100.memoryTime M).
  { rewrite Hmem, HMEM.
    apply div_le_mono; [exact Htotal | apply H100_hbmBandwidth_pos]. }
  assert (Heffs : H100.effectiveMemoryTime m <= H100.effectiveMemoryTime M).
  { match type of Heff with
    | context [if ?c then _ else _] => set (fits := c) in *
    end.
    match type of HEFF with
    | context [if ?c then _ else _] => set (FITS := c) in *
    end.
    assert (Himp : FITS = true -> fits = true).
    { unfold fits, FITS. intros EL.
      apply Qle_bool_iff. apply Qle_bool_iff in EL.
      eapply Qle_trans; [exact Hrhs | exact EL]. }
    rewrite Heff, HEFF. destruct FITS.
    - rewrite (Himp eq_refl).
      apply div_le_mono; [exact Hmems | reflexivity].
    - destruct fits.
      + apply Qle_trans with (H100.memoryTime m).
        * apply Qle_shift_div_r; [reflexivity|].
          setoid_replace (@lit N 15 (-1)) with (3 # 2) by reflexivity. lra.
        * apply Qle_shift_div_l; [reflexivity|].
          setoid_replace (@of_Z N 1) with 1 by reflexivity. lra.
      + apply div_le_mono; [exact Hmems | reflexivity]. }
  rewrite Hfl, HFL, Hby, HBY, Hlo, HLO.
  split; [exact Hflops|]. split; [exact Htotal|].
  apply Q.max_le_compat; [|exact Heffs].
  rewrite Hc, HC.
  apply div_le_mono; [exact Hflops | apply H100_throughput_pos].
Qed.

(** Ratios over a total time [max(per, cost)], for [0 < per <= whole]. *)
Lemma ratios_ordered (whole per cost : Q) :
  0 < per -> per <= whole ->
  per / Qmax per cost <= whole / Qmax per cost /\
  (cost == 0 -> per / Qmax per cost == 1 /\ 1 <= whole / Qmax per cost).
Proof.
  intros Hper Hle.
  assert (Hmax : 0 < Qmax per cost).
  { apply Qlt_le_trans with per; [exact Hper | apply Q.le_max_l]. }
  split; [apply div_le_mono; assumption|].
  intros Hcost.
  assert (Heq : Qmax per cost == per) by (apply Q.max_l; lra).
  rewrite Heq. split.
  - field. intros E. lra.
  - apply Qle_shift_div_l; lra.
Qed.

(** X13. Over the rationals, for a registered matrix multiplication with
    whole positive dimensions and a configuration of at least one device
    whose shard dimensions name a dimension of their operand (or none):
    each device is charged no more FLOPs and no more bytes than the whole
    operation, and its lower bound is at most the single-device lower bound.
    Hence the sharding efficiency is at most the speedup; and when the
    reduction axis is not sharded the efficiency is 1 and the speedup is at
    least 1. *)
Theorem sharding_never_slows_a_device :
  forall (ms ms' : list Matrix) (rnd rnd0 Id : string)
         (b d d' f : Z) (dl dr dout : dtype) (sC : ShardingConfig),
    (1 <= b)%Z -> (1 <= d)%Z -> (1 <= d')%Z -> (1 <= f)%Z ->
    1 <= numDevices sC ->
    names_dimension (lhsShardDim sC) -> names_dimension (rhsShardDim sC) ->
    let op := operation_of rnd0 matmul (inject_Z b) (inject_Z d) (inject_Z d')
                (inject_Z f) dl dr dout in
    (find_matrix ms Id = Some op ->
     exists res mm,
       TPUv5e.performanceMetrics (tpu_of ms) rnd Id true (Some sC) = Ok res /\
       TPUv5e.multiNode res = Some mm /\
       let per := TPUv5e.perDeviceMetrics mm in
       let whole := TPUv5e.singleNode res in
       TPUv5e.totalFLOPs per <= TPUv5e.totalFLOPs whole /\
       totalBytes (TPUv5e.bytes per) <= totalBytes (TPUv5e.bytes whole) /\
       TPUv5e.lowerBoundTime per <= TPUv5e.lowerBoundTime whole /\
       TPUv5e.shardingEfficiency mm <= TPUv5e.speedupOverSingleDevice mm /\
       (reduction_sharded sC = false ->
        TPUv5e.shardingEfficiency mm == 1 /\
        1 <= TPUv5e.speedupOverSingleDevice mm)) /\
    (find_matrix ms' Id = Some op ->
     exists res mm,
       H100.performanceMetrics (gpu_of ms') rnd Id true (Some sC) = Ok res /\
       H100.multiNode res = Some mm /\
       let per := H100.perDeviceMetrics mm in
       let whole := H100.singleNode res in
       H100.totalFLOPs per <= H100.totalFLOPs whole /\
       totalBytes (H100.bytes per) <= totalBytes (H100.bytes whole) /\
       H100.lowerBoundTime per <= H100.lowerBoundTime whole /\
       H100.shardingEfficiency mm <= H100.speedupOverSingleDevice mm /\
       (reduction_sharded sC = false ->
        H100.shardingEfficiency mm == 1 /\
        1 <= H100.speedupOverSingleDevice mm)).
Proof.
  intros ms ms' rnd rnd0 Id b d d' f dl dr dout sC Hb Hd Hd' Hf Hn Hl Hr op.
  destruct (@shardedMatrix_shrinks rnd rnd0 matmul b d d' f dl dr dout sC
              Hb Hd Hd' Hf Hn Hl Hr)
    as (x & y & y' & z & Hsh & Hx & Hy & Hy' & Hz).
  assert (HB : 0 < inject_Z b).
  { assert (H : (0 < b)%Z) by lia. rewrite Zlt_Qlt in H. exact H. }
  assert (HD : 0 < inject_Z d).
  { assert (H : (0 < d)%Z) by lia. rewrite Zlt_Qlt in H. exact H. }
  assert (HD' : 0 < inject_Z d').
  { assert (H : (0 < d')%Z) by lia. rewrite Zlt_Qlt in H. exact H. }
  assert (HF : 0 < inject_Z f).
  { assert (H : (0 < f)%Z) by lia. rewrite Zlt_Qlt in H. exact H. }
  split; intros Hfind.
  - destruct (@TPU_lowerBoundTime_pos log2 pow ms rnd0 _ _ _ _ dl dr dout
                HB HD HD' HF) as (whole & Hwhole & Hwpos).
    destruct (@TPU_lowerBoundTime_pos log2 pow ms rnd x y y' z dl dr dout
                (proj1 Hx) (proj1 Hy) (proj1 Hy') (proj1 Hz))
      as (per & Hper & Hppos).
    destruct (TPU_lowerBound_monotone Hx Hy Hy' Hz Hper Hwhole) as (Hflops & Hbytes & Hlower).
    unfold N in *. fold op in Hsh, Hwhole.
    unfold TPUv5e.performanceMetrics.
    cbn [TPUv5e.matrices tpu_of TPUv5e.with_matrices].
    rewrite Hfind. cbn [andb]. rewrite Hwhole. cbn [bind].
    unfold TPUv5e._calculateMultiNodeMetrics. rewrite Hsh, Hper. cbn [bind].
    rewrite Hwhole. cbn [bind].
    eexists. eexists. split; [reflexivity|]. split; [reflexivity|].
    cbn.
    destruct (@ratios_ordered (TPUv5e.lowerBoundTime whole)
                (TPUv5e.lowerBoundTime per)
                (TPUv5e.comm_cost (tpu_of ms) op sC) Hppos Hlower)
      as [Hord Hfree].
    split; [exact Hflops|]. split; [exact Hbytes|]. split; [exact Hlower|].
    split; [exact Hord|].
    intros Hred. apply Hfree. unfold TPUv5e.comm_cost. rewrite Hred. reflexivity.
  - destruct (@H100_lowerBoundTime_pos log2 pow ms' rnd0 _ _ _ _ dl dr dout
                HB HD HD' HF) as (whole & Hwhole & Hwpos).
    destruct (@H100_lowerBoundTime_pos log2 pow ms' rnd x y y' z dl dr dout
                (proj1 Hx) (proj1 Hy) (proj1 Hy') (proj1 Hz))
      as (per & Hper & Hppos).
    destruct (H100_lowerBound_monotone Hx Hy Hy' Hz Hper Hwhole) as (Hflops & Hbytes & Hlower).
    unfold N in *. fold op in Hsh, Hwhole.
    unfold H100.performanceMetrics.
    cbn [H100.matrices gpu_of H100.with_matrices].
    rewrite Hfind. cbn [andb]. rewrite Hwhole. cbn [bind].
    unfold H100._calculateMultiNodeMetrics. rewrite Hsh, Hper. cbn [bind].
    rewrite Hwhole. cbn [bind].
    eexists. eexists. split; [reflexivity|]. split; [reflexivity|].
    cbn.
    destruct (@ratios_ordered (H100.lowerBoundTime whole)
                (H100.lowerBoundTime per)
                (H100.comm_cost (gpu_of ms') op sC) Hppos Hlower)
      as [Hord Hfree].
    split; [exact Hflops|]. split; [exact Hbytes|]. split; [exact Hlower|].
    split; [exact Hord|].
    intros Hred. apply Hfree. unfold H100.comm_cost. rewrite Hred. reflexivity.
Qed.

End Sharding_exact.

(* ================================================================== *)
(** * The H100 across nodes                                            *)
(* ================================================================== *)

(** X14. On the H100, in every multi-device request that returns, the
    scaling efficiency is the speedup divided by the number of devices.
    When the reduction axis is sharded and the devices do not fit one node
    ([numDevices <= maxGpusPerNode] fails), the communication cost is the
    sum of an intra-node term over NVLink and an inter-node term over PCIe:
    [(outputBytes / 2) * log2(maxGpusPerNode) / nvlinkBandwidth
     + (outputBytes / nodes) * log2(nodes) / pcieBandwidth]
    with [nodes = ceil(numDevices / maxGpusPerNode)] and [outputBytes]
    computed from the registered operation with the inline width table. *)
Theorem H100_cost_across_nodes :
  forall (N : Number) (gpu : H100.t) (rnd Id : string) (sC : ShardingConfig)
         (res : H100.Metrics),
    H100.performanceMetrics gpu rnd Id true (Some sC) = Ok res ->
    exists matrix mm,
      find_matrix (H100.matrices gpu) Id = Some matrix /\
      H100.multiNode res = Some mm /\
      H100.scalingEfficiency mm
      = (H100.speedupOverSingleDevice mm / numDevices sC)%js /\
      (reduction_sharded sC = true ->
       (numDevices sC <=? H100.maxGpusPerNode gpu)%js = false ->
       let nodes := Math_ceil (numDevices sC / H100.maxGpusPerNode gpu)%js in
       H100.communicationCost mm
       = ((comm_outputBytes matrix / $2) * Math_log2 (H100.maxGpusPerNode gpu)
          / H100.nvlinkBandwidth gpu
          + (comm_outputBytes matrix / nodes) * Math_log2 nodes
            / H100.pcieBandwidth gpu)%js).
Proof.
  intros N gpu rnd Id sC res Hres.
  apply H100_multi_request in Hres
    as (matrix & mm & Hfind & Hsingle & Hmulti & HmultiNode).
  exists matrix, mm. split; [exact Hfind|]. split; [exact HmultiNode|].
  pose proof (H100_communicationCost _ _ _ _ Hmulti) as Hcost.
  split.
  - open_multi Hmulti. reflexivity.
  - intros Hred Hfar nodes. rewrite Hcost. unfold H100.comm_cost.
    rewrite Hred, Hfar. reflexivity.
Qed.

(* ================================================================== *)
(** * The page: displayed durations, over the rationals                *)
(* ================================================================== *)

Section Page_exact.
Variable log2 : Q -> Q.
Variable pow : Q -> Q -> Q.
Let N : Number := exact log2 pow.
Local Existing Instance N.
Let U : Number_ui N := exact_ui log2 pow.
Local Existing Instance U.
Local Open Scope Q_scope.

Lemma nearest_within_half (q : Q) :
  q - (1 # 2) < inject_Z (nearest q) <= q + (1 # 2).
Proof.
  unfold nearest. split.
  - pose proof (Qlt_floor (q + (1 # 2))) as H.
    rewrite inject_Z_plus in H. change (inject_Z 1) with 1 in H. lra.
  - apply Qfloor_le.
Qed.

Lemma nearest_zero_iff (q : Q) :
  inject_Z (nearest q) == 0 <-> - (1 # 2) <= q < 1 # 2.
Proof.
  pose proof (nearest_within_half q) as [Hlo Hhi]. split.
  - intros H. rewrite H in Hlo, Hhi. lra.
  - intros [H1 H2].
    assert (Hz : (nearest q = 0)%Z).
    { assert (Ha : (-1 < nearest q)%Z).
      { rewrite Zlt_Qlt. change (inject_Z (-1)) with (-1). lra. }
      assert (Hb : (nearest q < 1)%Z).
      { rewrite Zlt_Qlt. change (inject_Z 1) with 1. lra. }
      lia. }
    rewrite Hz. reflexivity.
Qed.

Lemma abs_ge (c s : Q) : c <= Qabs.Qabs s -> c <= s \/ s <= - c.
Proof.
  apply (Qabs.Qabs_case s (fun a => c <= a -> c <= s \/ s <= - c)).
  - intros _ H. left. exact H.
  - intros _ H. right. lra.
Qed.

Lemma leb_false_iff (x y : Q) : Qle_bool x y = false <-> y < x.
Proof.
  split.
  - intros H. apply Qnot_le_lt. intros Hle. apply Qle_bool_iff in Hle. congruence.
  - intros H. destruct (Qle_bool x y) eqn:E; [|reflexivity].
    apply Qle_bool_iff in E. lra.
Qed.

(** The branches of [convertSecondsToSmallerOrLargerUnits]. *)
Lemma convert_cases (s : Q) :
  let shown := Page.convertSecondsToSmallerOrLargerUnits s in
  (86400 <= Qabs.Qabs s /\ shown = (inject_Z (nearest (s / 86400)), "days")) \/
  (3600 <= Qabs.Qabs s < 86400 /\ shown = (inject_Z (nearest (s / 3600)), "hrs")) \/
  (60 <= Qabs.Qabs s < 3600 /\ shown = (inject_Z (nearest (s / 60)), "min")) \/
  (1 <= Qabs.Qabs s < 60 /\ shown = (inject_Z (nearest s), "s")) \/
  (Qabs.Qabs s < 1 /\ ~ inject_Z (nearest (s * 1000)) == 0 /\
   shown = (inject_Z (nearest (s * 1000)), "ms")) \/
  (Qabs.Qabs s < 1 /\ inject_Z (nearest (s * 1000)) == 0 /\
   ~ inject_Z (nearest (s * 1000000)) == 0 /\
   shown = (inject_Z (nearest (s * 1000000)), "μs")) \/
  (Qabs.Qabs s < 1 /\ inject_Z (nearest (s * 1000)) == 0 /\
   inject_Z (nearest (s * 1000000)) == 0 /\
   shown = (inject_Z (nearest (s * 1000000000)), "ns")).
Proof.
  intros shown. unfold shown, Page.convertSecondsToSmallerOrLargerUnits.
  cbv zeta.
  change (@Math_abs N U s) with (Qabs.Qabs s).
  change (@leb N (@of_Z N 86400) (Qabs.Qabs s)) with (Qle_bool 86400 (Qabs.Qabs s)).
  change (@leb N (@of_Z N 3600) (Qabs.Qabs s)) with (Qle_bool 3600 (Qabs.Qabs s)).
  change (@leb N (@of_Z N 60) (Qabs.Qabs s)) with (Qle_bool 60 (Qabs.Qabs s)).
  change (@leb N (@of_Z N 1) (Qabs.Qabs s)) with (Qle_bool 1 (Qabs.Qabs s)).
  change (@Math_round N U (@div N s (@of_Z N 86400)))
    with (inject_Z (nearest (s / 86400))).
  change (@Math_round N U (@div N s (@of_Z N 3600)))
    with (inject_Z (nearest (s / 3600))).
  change (@Math_round N U (@div N s (@of_Z N 60)))
    with (inject_Z (nearest (s / 60))).
  change (@Math_round N U s) with (inject_Z (nearest s)).
  change (@Math_round N U (@mul N s (@lit N 1 3)))
    with (inject_Z (nearest (s * 1000))).
  change (@Math_round N U (@mul N s (@lit N 1 6)))
    with (inject_Z (nearest (s * 1000000))).
  change (@Math_round N U (@mul N s (@lit N 1 9)))
    with (inject_Z (nearest (s * 1000000000))).
  change (@eqb N) with Qeq_bool. change (@of_Z N 0) with 0.
  destruct (Qle_bool 86400 (Qabs.Qabs s)) eqn:E1.
  { apply Qle_bool_iff in E1. left. split; [exact E1 | reflexivity]. }
  apply leb_false_iff in E1. right.
  destruct (Qle_bool 3600 (Qabs.Qabs s)) eqn:E2.
  { apply Qle_bool_iff in E2. left. repeat split; assumption. }
  apply leb_false_iff in E2. right.
  destruct (Qle_bool 60 (Qabs.Qabs s)) eqn:E3.
  { apply Qle_bool_iff in E3. left. repeat split; assumption. }
  apply leb_false_iff in E3. right.
  destruct (Qle_bool 1 (Qabs.Qabs s)) eqn:E4.
  { apply Qle_bool_iff in E4. left. repeat split; assumption. }
  apply leb_false_iff in E4. right.
  destruct (Qeq_bool (inject_Z (nearest (s * 1000))) 0) eqn:E5; cbn [negb].
  - apply Qeq_bool_iff in E5. right.
    destruct (Qeq_bool (inject_Z (nearest (s * 1000000))) 0) eqn:E6; cbn [negb].
    + apply Qeq_bool_iff in E6. right. repeat split; assumption.
    + apply Qeq_bool_neq in E6. left. repeat split; assumption.
  - apply Qeq_bool_neq in E5. left. repeat split; assumption.
Qed.

(** X15. Over the rationals, the pair [[value, unit]] under which the page
    displays a duration names one of the seven units days, hrs, min, s, ms,
    μs, ns; its value is a whole number; and the displayed quantity differs
    from the duration by at most half a unit. *)
Theorem displayed_duration_within_half_a_unit :
  forall s : Q,
    let shown := Page.convertSecondsToSmallerOrLargerUnits s in
    In (snd shown) ["days"; "hrs"; "min"; "s"; "ms"; "μs"; "ns"] /\
    (exists k : Z, fst shown = inject_Z k) /\
    Qabs.Qabs (fst shown * seconds_in (snd shown) - s)
    <= seconds_in (snd shown) / 2.
Proof.
  intros s shown.
  destruct (convert_cases s) as
    [[_ H] | [[_ H] | [[_ H] | [[_ H] | [(_ & _ & H) | [(_ & _ & _ & H)
     | (_ & _ & _ & H)]]]]]];
    fold shown in H; rewrite H; cbn [fst snd];
    (split; [cbn; tauto|]); (split; [eexists; reflexivity|]);
    apply Qabs.Qabs_Qle_condition;
    match goal with
    | |- context [seconds_in ?u] =>
        let v := eval vm_compute in (seconds_in u) in
        let h := eval vm_compute in (seconds_in u / 2) in
        change (seconds_in u / 2) with h; change (seconds_in u) with v
    end;
    try match goal with
        | |- context [nearest (?a / ?c)] =>
            set (q := a / c) in *;
            assert (Hq : a == q * c) by (unfold q; field)
        end;
    match goal with
    | |- context [nearest ?q] => pose proof (nearest_within_half q) as [Hlo Hhi]
    end;
    split; lra.
Qed.

(** X16. Over the rationals, which unit is displayed depends on the
    magnitude of the duration alone for one second and more: days from
    86400 s, hrs from 3600 s, min from 60 s, s from 1 s; below one second the
    unit is ms, μs or ns.  The displayed value is 0 exactly when the
    duration, in nanoseconds, lies in [-1/2, 1/2), and the unit is then
    ns: no other duration is displayed as zero. *)
Theorem displayed_unit_and_zero :
  forall s : Q,
    let shown := Page.convertSecondsToSmallerOrLargerUnits s in
    (snd shown = "days" <-> 86400 <= Qabs.Qabs s) /\
    (snd shown = "hrs" <-> 3600 <= Qabs.Qabs s < 86400) /\
    (snd shown = "min" <-> 60 <= Qabs.Qabs s < 3600) /\
    (snd shown = "s" <-> 1 <= Qabs.Qabs s < 60) /\
    (In (snd shown) ["ms"; "μs"; "ns"] <-> Qabs.Qabs s < 1) /\
    (fst shown == 0 <-> - (1 # 2) <= s * 1000000000 < 1 # 2) /\
    (fst shown == 0 -> snd shown = "ns").
Proof.
  intros s shown.
  destruct (convert_cases s) as
    [[A H] | [[[A A'] H] | [[[A A'] H] | [[[A A'] H] | [(A & B & H)
     | [(A & B & C & H) | (A & B & C & H)]]]]]];
    fold shown in H; rewrite H; cbn [fst snd In];
    try (pose proof (@abs_ge _ _ A) as Hs);
    try rewrite nearest_zero_iff in B; try rewrite nearest_zero_iff in C;
    rewrite ?nearest_zero_iff;
    repeat match goal with
           | |- context [Qdiv ?a ?c] =>
               let q := fresh "q" in
               set (q := Qdiv a c) in *;
               assert (a == q * c) by (unfold q; field)
           end;
    repeat match goal with
           | |- _ /\ _ => split
           | |- _ <-> _ => split
           | |- _ -> _ => intro
           | H : _ \/ _ |- _ => destruct H
           | H : _ /\ _ |- _ => destruct H
           | H : False |- _ => destruct H
           end;
    first [ reflexivity | congruence | lra | tauto
          | exfalso; apply B; split; lra
          | exfalso; apply C; split; lra | idtac ].
  all: try (left; reflexivity).
Qed.

End Page_exact.

(* ================================================================== *)
(** * The page: the Analyse button                                     *)
(* ================================================================== *)

(** The identifier that a freshly constructed H100 returns for its first
    operation finds that operation. *)
Lemma H100_first_registration {N : Number} (rnd : string) (ty : operation)
    (l r : matinfo) (o : outinfo) :
  find_matrix
    (H100.matrices (fst (H100.addMatrix H100.constructor rnd ty l r o)))
    (snd (H100.addMatrix H100.constructor rnd ty l r o))
  = Some (new_Matrix rnd ty l r o).
Proof.
  unfold H100.addMatrix. cbn [fst snd H100.matrices H100.with_matrices
                              H100.constructor app id new_Matrix].
  unfold find_matrix. cbn [find id]. rewrite String.eqb_refl. reflexivity.
Qed.

Section Page_binary64.
Variable log2 : float -> float.
Variable pow : float -> float -> float.
Let N : Number := binary64 log2 pow.
Local Existing Instance N.
Let U : Number_ui N := binary64_ui log2 pow.
Local Existing Instance U.

(** On doubles the roofline data of the H100 are returned once the fuel
    covers the 51 tests of the loop condition. *)
Lemma H100_roofline_returns (k : nat) (gpu : H100.t) (matrix : Matrix)
    (metrics : H100.GPUNodeMetrics) :
  exists rd, H100._generateRooflineData (51 + k) gpu matrix metrics = Some rd.
Proof.
  unfold H100._generateRooflineData. cbv zeta. unfold N in *.
  match goal with
  | |- context [sample _ ?pk ?bw ?ridge _ _] =>
      pose proof (sample_binary64 log2 pow pk bw ridge) as H
  end.
  match type of H with
  | option_map _ ?c = _ => destruct c as [l|] eqn:E; [|discriminate H]
  end.
  rewrite (sample_more_fuel k _ _ _ _ _ _ E).
  eexists. reflexivity.
Qed.

(** X17. The handler of the Analyse button never throws, on doubles.  With
    any machine other than "H100" selected it leaves the page as it is.
    With "H100" selected it registers the multiplication of the two shapes
    on a fresh H100 and shows its analysis: the flag [analyseIspressed] is
    set, the FLOP count is [2 * B * D * F], the recommendations are not
    empty, and the inputs of the page are unchanged. *)
Theorem analyse_never_throws :
  forall (k : nat) (rnd : string) (st : Page.state),
    (Page.machine st <> "H100" ->
     forall fuel, Page.analyse fuel rnd st = Some (Ok st)) /\
    (Page.machine st = "H100" ->
     exists st',
       Page.analyse (51 + k) rnd st = Some (Ok st') /\
       Page.analyseIspressed st' = true /\
       Page.totalFLOPs st'
       = ($2 * array_get (Page.aShape st) 0 * array_get (Page.aShape st) 1
          * array_get (Page.bShape st) 1)%js /\
       Page.recommendations st' <> [] /\
       Page.machine st' = Page.machine st /\
       Page.format st' = Page.format st /\
       Page.aShape st' = Page.aShape st /\
       Page.bShape st' = Page.bShape st /\
       Page.numdevices st' = Page.numdevices st /\
       Page.sharddim st' = Page.sharddim st).
Proof.
  intros k rnd st. split.
  - intros Hm fuel. unfold Page.analyse.
    destruct (String.eqb (Page.machine st) "H100") eqn:E; [|reflexivity].
    apply String.eqb_eq in E. contradiction.
  - intros Hm. unfold Page.analyse. rewrite Hm.
    change (String.eqb "H100" "H100") with true. cbv iota.
    set (l := {| shape := Page.aShape st; mat_dtype := Page.format st |}).
    set (r := {| shape := Page.bShape st; mat_dtype := Page.format st |}).
    set (o := {| out_dtype := Page.format st |}).
    pose proof (H100_first_registration rnd matmul l r o) as Hfind.
    destruct (H100.addMatrix H100.constructor rnd matmul l r o)
      as [h100 id'] eqn:Eadd.
    cbn [fst snd] in Hfind.
    unfold H100.analyze. rewrite Hfind.
    destruct (H100_single_returns h100 (new_Matrix rnd matmul l r o) eq_refl)
      as [m Hsingle].
    rewrite Hsingle.
    destruct (H100_roofline_returns k h100 (new_Matrix rnd matmul l r o) m)
      as [rd Hrd].
    rewrite Hrd.
    eexists. split; [reflexivity|].
    cbn [Page.analyseIspressed Page.totalFLOPs Page.recommendations
         Page.machine Page.format Page.aShape Page.bShape Page.numdevices
         Page.sharddim H100.m H100.r].
    split; [reflexivity|]. split.
    + open_single Hsingle. reflexivity.
    + split; [|repeat split; try reflexivity; symmetry; exact Hm].
      apply (H100_recommendations_shape h100 (new_Matrix rnd matmul l r o) m).
Qed.

End Page_binary64.

(* ================================================================== *)
(** * The chart, over the rationals                                    *)
(* ================================================================== *)

Lemma map_index_length {A B : Type} (f : A -> nat -> B) (i : nat) (data : list A) :
  List.length (Chart.map_index f i data) = List.length data.
Proof.
  revert i. induction data as [|v data IH]; intros i; cbn; [reflexivity|].
  rewrite IH. reflexivity.
Qed.

Lemma map_index_nth {A B : Type} (f : A -> nat -> B) (i j : nat) (data : list A)
    (a : A) (b : B) :
  (j < List.length data)%nat ->
  nth j (Chart.map_index f i data) b = f (nth j data a) (i + j)%nat.
Proof.
  revert i j. induction data as [|v data IH]; intros i j Hj; cbn in Hj.
  - lia.
  - destruct j as [|j]; cbn.
    + rewrite Nat.add_0_r. reflexivity.
    + rewrite (IH (S i) j) by lia. f_equal. lia.
Qed.

Lemma map_index_Forall {A B : Type} (P : B -> Prop) (f : A -> nat -> B)
    (i : nat) (data : list A) :
  (forall v j, In v data -> (i <= j < i + List.length data)%nat -> P (f v j)) ->
  Forall P (Chart.map_index f i data).
Proof.
  revert i. induction data as [|v data IH]; intros i H; cbn.
  - constructor.
  - constructor.
    + apply H; [left; reflexivity | cbn; lia].
    + apply IH. intros w j Hw Hj. apply H; [right; exact Hw | cbn; lia].
Qed.

Section Chart_exact.
Variable log2 : Q -> Q.
Variable pow : Q -> Q -> Q.
Let N : Number := exact log2 pow.
Local Existing Instance N.
Let U : Number_ui N := exact_ui log2 pow.
Local Existing Instance U.
Local Open Scope Q_scope.

(** The largest and the smallest of a series bound it, and are values of
    the series. *)
Lemma fold_max_spec (rest : list Q) (x : Q) :
  let mx := fold_left Qmax rest x in
  x <= mx /\ Forall (fun v => v <= mx) rest /\
  exists v, In v (x :: rest) /\ mx == v.
Proof.
  revert x. induction rest as [|a rest IH]; intros x; cbn.
  - split; [apply Qle_refl|]. split; [constructor|].
    exists x. split; [left; reflexivity | reflexivity].
  - destruct (IH (Qmax x a)) as (H1 & H2 & v & Hv & Heq).
    split; [|split].
    + apply Qle_trans with (Qmax x a); [apply Q.le_max_l | exact H1].
    + constructor; [|exact H2].
      apply Qle_trans with (Qmax x a); [apply Q.le_max_r | exact H1].
    + destruct Hv as [Hv | Hv].
      * destruct (Q.max_spec x a) as [[_ Hm] | [_ Hm]].
        -- exists a. split; [right; left; reflexivity|].
           rewrite Heq, <- Hv. exact Hm.
        -- exists x. split; [left; reflexivity|].
           rewrite Heq, <- Hv. exact Hm.
      * exists v. split; [right; right; exact Hv | exact Heq].
Qed.

Lemma fold_min_spec (rest : list Q) (x : Q) :
  let mn := fold_left Qmin rest x in
  mn <= x /\ Forall (fun v => mn <= v) rest /\
  exists v, In v (x :: rest) /\ mn == v.
Proof.
  revert x. induction rest as [|a rest IH]; intros x; cbn.
  - split; [apply Qle_refl|]. split; [constructor|].
    exists x. split; [left; reflexivity | reflexivity].
  - destruct (IH (Qmin x a)) as (H1 & H2 & v & Hv & Heq).
    split; [|split].
    + apply Qle_trans with (Qmin x a); [exact H1 | apply Q.le_min_l].
    + constructor; [|exact H2].
      apply Qle_trans with (Qmin x a); [exact H1 | apply Q.le_min_r].
    + destruct Hv as [Hv | Hv].
      * destruct (Q.min_spec x a) as [[_ Hm] | [_ Hm]].
        -- exists x. split; [left; reflexivity|].
           rewrite Heq, <- Hv. exact Hm.
        -- exists a. split; [right; left; reflexivity|].
           rewrite Heq, <- Hv. exact Hm.
      * exists v. split; [right; right; exact Hv | exact Heq].
Qed.

(** [getMaxValue] and [getMinValue] on a series that is not empty:
    [getMinValue] is the smallest value; [getMaxValue] is the largest one,
    or 1 when the largest one is 0. *)
Lemma getMinValue_spec (data : list Q) :
  data <> [] ->
  Forall (fun v => Chart.getMinValue data <= v) data /\
  exists v, In v data /\ Chart.getMinValue data == v.
Proof.
  destruct data as [|x rest]; [congruence|]. intros _.
  unfold Chart.getMinValue, Chart.Math_min_spread.
  change (@Math_min N) with Qmin.
  destruct (fold_min_spec rest x) as (H1 & H2 & H3).
  split; [constructor; assumption | exact H3].
Qed.

Lemma getMaxValue_spec (data : list Q) :
  data <> [] ->
  exists mx,
    Forall (fun v => v <= mx) data /\
    (exists v, In v data /\ mx == v) /\
    (mx == 0 -> Chart.getMaxValue data = 1) /\
    (~ mx == 0 -> Chart.getMaxValue data = mx) /\
    mx <= Chart.getMaxValue data.
Proof.
  destruct data as [|x rest]; [congruence|]. intros _.
  unfold Chart.getMaxValue, Chart.Math_max_spread.
  destruct (fold_max_spec rest x) as (H1 & H2 & H3).
  set (mx := fold_left Qmax rest x) in *.
  exists mx.
  assert (Hor : Chart.or_1 mx = if Qeq_bool mx 0 then 1 else mx).
  { unfold Chart.or_1. change (@eqb N) with Qeq_bool.
    rewrite Qeq_bool_refl. cbn [negb]. rewrite orb_false_r. reflexivity. }
  split; [constructor; assumption|]. split; [exact H3|].
  change (((mx == 0 -> Chart.or_1 mx = 1) /\
           (~ mx == 0 -> Chart.or_1 mx = mx) /\ mx <= Chart.or_1 mx)).
  rewrite Hor.
  destruct (Qeq_bool mx 0) eqn:E.
  - apply Qeq_bool_iff in E. split; [reflexivity|]. split.
    + intros H. contradiction.
    + rewrite E. discriminate.
  - apply Qeq_bool_neq in E. split; [intros H; contradiction|]. split.
    + reflexivity.
    + apply Qle_refl.
Qed.

Lemma frac_unit (a d : Q) : 0 <= a <= d -> 0 < d -> 0 <= a / d <= 1.
Proof.
  intros [H0 H1] Hd. split.
  - apply Qdiv_nonneg; assumption.
  - apply Qle_shift_div_r; [exact Hd | lra].
Qed.

Lemma unit_scaled (t g : Q) : 0 <= t <= 1 -> 0 <= g -> 0 <= t * g <= g.
Proof.
  intros [H0 H1] Hg. split.
  - apply Qmult_le_0_compat; assumption.
  - assert (H : 0 <= (1 - t) * g) by (apply Qmult_le_0_compat; lra).
    setoid_replace ((1 - t) * g) with (g - t * g) in H by ring. lra.
Qed.

(** The coordinates of a circle, over the rationals. *)
Lemma circle_coordinates (p : Chart.props) (data : list Q) (color : string) :
  data <> [] ->
  Chart.createCircles p data color
  = Chart.map_index
      (fun value i =>
         {| Chart.cx := (Chart.padding p
                         + inject_Z (Z.of_nat i)
                           / (inject_Z (Z.of_nat (List.length data)) - 1)
                           * Chart.graphWidth p)%Q;
            Chart.cy := (Chart.padding p
                         + (Chart.graphHeight p
                            - (value - Chart.getMinValue data)
                              / (Chart.getMaxValue data - Chart.getMinValue data)
                              * Chart.graphHeight p))%Q;
            Chart.r := 4%Q;
            Chart.fill := color |})
      0 data.
Proof.
  intros Hdata. unfold Chart.createCircles.
  destruct data as [|x rest]; [congruence|]. reflexivity.
Qed.

(** X18. Over the rationals, for a chart whose plot area has nonnegative
    width and height and a series of at least two values with
    [getMinValue < getMaxValue]:
    [createCircles] returns one circle for each value, of radius 4 and of
    the given colour, and every circle lies inside the plot area. *)
Theorem circles_lie_inside_the_plot :
  forall (p : Chart.props) (data : list Q) (color : string),
    0 <= Chart.graphWidth p -> 0 <= Chart.graphHeight p ->
    (2 <= List.length data)%nat ->
    Chart.getMinValue data < Chart.getMaxValue data ->
    List.length (Chart.createCircles p data color) = List.length data /\
    Forall (fun c =>
              Chart.padding p <= Chart.cx c
                              <= Chart.padding p + Chart.graphWidth p /\
              Chart.padding p <= Chart.cy c
                              <= Chart.padding p + Chart.graphHeight p /\
              Chart.r c = 4 /\ Chart.fill c = color)
           (Chart.createCircles p data color).
Proof.
  intros p data color Hw Hh Hlen Hrange.
  assert (Hdata : data <> []) by (intros E; subst data; cbn in Hlen; lia).
  rewrite (circle_coordinates p color Hdata).
  split; [apply map_index_length|].
  destruct (getMinValue_spec Hdata) as [Hmin _].
  destruct (getMaxValue_spec Hdata) as (mx & Hmax & _ & _ & _ & Hmx).
  apply map_index_Forall. intros v j Hv Hj. cbn [Chart.cx Chart.cy Chart.r Chart.fill].
  change (@number N) with Q in *.
  rewrite Forall_forall in Hmin, Hmax.
  pose proof (Hmin v Hv) as Hlo. pose proof (Hmax v Hv) as Hhi.
  set (n := inject_Z (Z.of_nat (List.length data))).
  assert (Hn : inject_Z (Z.of_nat j) + 1 <= n).
  { unfold n. change 1 with (inject_Z 1). rewrite <- inject_Z_plus, <- Zle_Qle. lia. }
  assert (Hj0 : 0 <= inject_Z (Z.of_nat j)).
  { change 0 with (inject_Z 0). rewrite <- Zle_Qle. lia. }
  assert (Hn2 : 2 <= n).
  { unfold n. change 2 with (inject_Z 2). rewrite <- Zle_Qle. lia. }
  assert (Hx : 0 <= inject_Z (Z.of_nat j) / (n - 1) <= 1)
    by (apply frac_unit; [split|]; lra).
  assert (Hy : 0 <= (v - Chart.getMinValue data)
                    / (Chart.getMaxValue data - Chart.getMinValue data) <= 1)
    by (apply frac_unit; [split|]; lra).
  pose proof (unit_scaled Hx Hw) as Hxs. pose proof (unit_scaled Hy Hh) as Hys.
  set (tx := inject_Z (Z.of_nat j) / (n - 1)) in *.
  match type of Hy with 0 <= ?t <= 1 => set (ty := t) in * end.
  repeat split; try reflexivity; lra.
Qed.

(** X19. Over the rationals, under the same conditions: the circles are
    spread evenly over the width of the plot area, the first on its left
    edge and the last on its right edge, whatever the values are; and a
    value equal to [getMinValue] is drawn on the bottom edge, a value equal
    to [getMaxValue] on the top edge. *)
Theorem circles_span_the_plot :
  forall (p : Chart.props) (data : list Q) (color : string) (c0 : Chart.circle),
    (2 <= List.length data)%nat ->
    Chart.getMinValue data < Chart.getMaxValue data ->
    let n := List.length data in
    let circles := Chart.createCircles p data color in
    (forall i, (i < n)%nat ->
       Chart.cx (nth i circles c0)
       == Chart.padding p
          + inject_Z (Z.of_nat i) / inject_Z (Z.of_nat (n - 1)) * Chart.graphWidth p) /\
    Chart.cx (nth 0 circles c0) == Chart.padding p /\
    Chart.cx (nth (n - 1) circles c0) == Chart.padding p + Chart.graphWidth p /\
    (forall i, (i < n)%nat ->
       (nth i data 0 == Chart.getMinValue data ->
        Chart.cy (nth i circles c0) == Chart.padding p + Chart.graphHeight p) /\
       (nth i data 0 == Chart.getMaxValue data ->
        Chart.cy (nth i circles c0) == Chart.padding p)).
Proof.
  intros p data color c0 Hlen Hrange n circles.
  assert (Hdata : data <> []) by (intros E; subst data; cbn in Hlen; lia).
  assert (Hn : inject_Z (Z.of_nat n) - 1 == inject_Z (Z.of_nat (n - 1))).
  { replace (Z.of_nat (n - 1)) with (Z.of_nat n - 1)%Z by (unfold n; lia).
    unfold Z.sub. rewrite inject_Z_plus, inject_Z_opp. reflexivity. }
  assert (Hn1 : 0 < inject_Z (Z.of_nat (n - 1))).
  { change 0 with (inject_Z 0). rewrite <- Zlt_Qlt. unfold n. lia. }
  assert (Hcx : forall i, (i < n)%nat ->
            Chart.cx (nth i circles c0)
            == Chart.padding p
               + inject_Z (Z.of_nat i) / inject_Z (Z.of_nat (n - 1))
                 * Chart.graphWidth p).
  { intros i Hi. unfold circles.
    rewrite (circle_coordinates p color Hdata).
    rewrite (map_index_nth _ 0 data 0 c0 Hi). cbn [Chart.cx Nat.add].
    fold n. rewrite Hn. reflexivity. }
  split; [exact Hcx|]. split; [|split].
  - rewrite (Hcx 0%nat) by (unfold n; lia). cbn [Z.of_nat].
    change (inject_Z 0) with 0. field. intros E. lra.
  - rewrite (Hcx (n - 1)%nat) by (unfold n; lia). field. intros E. lra.
  - intros i Hi. unfold circles.
    rewrite (circle_coordinates p color Hdata).
    rewrite (map_index_nth _ 0 data 0 c0 Hi). cbn [Chart.cy].
    split; intros Hv; rewrite Hv; field; intros E; lra.
Qed.

(** X20. Over the rationals, a series of zeros that is not empty is drawn
    along the bottom edge of the plot area: its maximum 0 is replaced by 1
    before the values are scaled, so that no quotient has a zero
    denominator. *)
Theorem zero_series_lies_on_the_bottom_edge :
  forall (p : Chart.props) (data : list Q) (color : string),
    data <> [] ->
    Forall (fun v => v == 0) data ->
    Chart.getMaxValue data = 1 /\
    Forall (fun c => Chart.cy c == Chart.padding p + Chart.graphHeight p)
           (Chart.createCircles p data color).
Proof.
  intros p data color Hdata Hzero.
  rewrite Forall_forall in Hzero.
  destruct (getMinValue_spec Hdata) as [_ (vmin & Hvmin & Hmin)].
  destruct (getMaxValue_spec Hdata) as (mx & _ & (vmax & Hvmax & Hmx) & Hone & _).
  assert (Hmax : Chart.getMaxValue data = 1).
  { apply Hone. rewrite Hmx. apply Hzero. exact Hvmax. }
  split; [exact Hmax|].
  rewrite (circle_coordinates p color Hdata), Hmax.
  apply map_index_Forall. intros v j Hv _. cbn [Chart.cy].
  rewrite (Hzero v Hv), Hmin, (Hzero vmin Hvmin). field.
Qed.

End Chart_exact.

(* ================================================================== *)
(** * The order of the reported times, over the rationals              *)
(* ================================================================== *)

Section Times_exact.
Variable log2 : Q -> Q.
Variable pow : Q -> Q -> Q.
Let N : Number := exact log2 pow.
Local Existing Instance N.
Local Open Scope Q_scope.

Lemma sum_le_twice_max (c m : Q) : c + m <= 2 * Qmax c m.
Proof.
  pose proof (Q.le_max_l c m). pose proof (Q.le_max_r c m). lra.
Qed.

Lemma div_le_anti (t a b : Q) : 0 <= t -> 0 < a -> a <= b -> t / b <= t / a.
Proof.
  intros Ht Ha Hab.
  apply Qle_shift_div_r; [lra|].
  assert (Hq : 0 <= t / a) by (apply Qdiv_nonneg; assumption).
  assert (Heq : t == t / a * a) by (field; intros E; lra).
  assert (Hle : 0 <= t / a * (b - a)) by (apply Qmult_le_0_compat; lra).
  set (q := t / a) in *.
  setoid_replace (q * (b - a)) with (q * b - q * a) in Hle by ring. lra.
Qed.

Lemma le_mult_ge_1 (x c : Q) : 0 <= x -> 1 <= c -> x <= x * c.
Proof.
  intros Hx Hc.
  assert (H : 0 <= x * (c - 1)) by (apply Qmult_le_0_compat; lra).
  setoid_replace (x * (c - 1)) with (x * c - x) in H by ring. lra.
Qed.

(** X21. Over the rationals the upper bound of a single device is at most
    twice its lower bound, in both classes and for every operation.  On the
    TPU, for an operation with a nonnegative byte total, the time with the
    operands in VMEM is at most the lower bound; on the H100 under the same
    condition the lower bound is at most the larger of the compute time and
    the memory time before the L2 benefit. *)
Theorem reported_times_are_ordered :
  forall (ms ms' : list Matrix) (matrix : Matrix),
    (forall m, TPUv5e._calculateSingleNodeMetrics (tpu_of ms) matrix = Ok m ->
       TPUv5e.upperBoundTime m <= 2 * TPUv5e.lowerBoundTime m /\
       (0 <= totalBytes (calculateBytes matrix) ->
        TPUv5e.vmemTotalTime (TPUv5e.vmemMetrics m) <= TPUv5e.lowerBoundTime m)) /\
    (forall m, H100._calculateSingleNodeMetrics (gpu_of ms') matrix = Ok m ->
       H100.upperBoundTime m <= 2 * H100.lowerBoundTime m /\
       (0 <= totalBytes (calculateBytes matrix) ->
        H100.lowerBoundTime m <= Qmax (H100.computeTime m) (H100.memoryTime m))).
Proof.
  intros ms ms' matrix. split; intros m Hm.
  - open_single Hm.
    cbn [TPUv5e.upperBoundTime TPUv5e.lowerBoundTime TPUv5e.vmemTotalTime
         TPUv5e.vmemMetrics TPUv5e.computeTime TPUv5e.memoryTime].
    split; [apply sum_le_twice_max|].
    intros Hbytes. apply Q.max_le_compat_l.
    apply div_le_anti; [exact Hbytes | reflexivity | discriminate].
  - open_single Hm.
    cbn [H100.upperBoundTime H100.lowerBoundTime H100.computeTime
         H100.memoryTime H100.effectiveMemoryTime].
    split; [apply sum_le_twice_max|].
    intros Hbytes. apply Q.max_le_compat_l.
    match goal with
    | |- ?x / _ <= _ => assert (Hmem : 0 <= x)
    end.
    { apply Qdiv_nonneg; [exact Hbytes | reflexivity]. }
    match goal with
    | |- context [if ?c then _ else _] => destruct c
    end.
    + apply Qle_shift_div_r; [reflexivity|].
      apply le_mult_ge_1; [exact Hmem | discriminate].
    + apply Qle_shift_div_r; [reflexivity|].
      apply le_mult_ge_1; [exact Hmem | discriminate].
Qed.

End Times_exact.

(* ================================================================== *)
(** * The chart on doubles: degenerate series                          *)
(* ================================================================== *)

(** NaN is absorbing for the four operations. *)
Lemma nan_mul (x y : float) :
  is_nan x = true \/ is_nan y = true -> is_nan (x * y) = true.
Proof.
  rewrite !is_nan_iff, FloatAxioms.mul_spec. unfold SF64mul, SFmul.
  intros [H | H]; rewrite H; [reflexivity|].
  destruct (Prim2SF x); reflexivity.
Qed.


Lemma nan_add (x y : float) :
  is_nan x = true \/ is_nan y = true -> is_nan (x + y) = true.
Proof.
  rewrite !is_nan_iff, FloatAxioms.add_spec. unfold SF64add, SFadd.
  intros [H | H]; rewrite H; [reflexivity|].
  destruct (Prim2SF x); reflexivity.
Qed.

Lemma nan_sub (x y : float) :
  is_nan x = true \/ is_nan y = true -> is_nan (x - y) = true.
Proof.
  rewrite !is_nan_iff, FloatAxioms.sub_spec. unfold SF64sub, SFsub.
  intros [H | H]; rewrite H; [reflexivity|].
  destruct (Prim2SF x); reflexivity.
Qed.

(** [(v - v) / (v - v)] is NaN for every double [v]: the difference is a
    zero, or NaN when [v] is infinite or NaN. *)
Lemma self_difference_quotient (v : float) :
  is_nan ((v - v) / (v - v)) = true.
Proof.
  rewrite is_nan_iff, FloatAxioms.div_spec, FloatAxioms.sub_spec.
  unfold SF64div, SF64sub, SFsub.
  destruct (Prim2SF v) as [s| s| |s m e].
  - destruct s; reflexivity.
  - destruct s; reflexivity.
  - reflexivity.
  - cbv zeta. rewrite Z.sub_diag. reflexivity.
Qed.

(** [Math.max] and [Math.min] of a double with itself. *)
Lemma max_self (v : float) : is_nan v = false -> B64.max v v = v.
Proof.
  intros Hv. unfold B64.max. rewrite Hv. cbn [orb].
  assert (Hlt : PrimFloat.ltb v v = false).
  { rewrite FloatAxioms.ltb_spec. unfold SFltb.
    assert (Hn : Prim2SF v <> S754_nan).
    { intros E. apply is_nan_iff in E. congruence. }
    destruct (Prim2SF v) as [s| s| |s m e]; cbn.
    - reflexivity.
    - destruct s; reflexivity.
    - congruence.
    - rewrite Z.compare_refl, Pos.compare_cont_refl. destruct s; reflexivity. }
  rewrite Hlt. destruct (is_zero v && get_sign v)%bool; reflexivity.
Qed.

Lemma min_self (v : float) : is_nan v = false -> B64.min v v = v.
Proof.
  intros Hv. unfold B64.min. rewrite Hv. cbn [orb].
  assert (Hlt : PrimFloat.ltb v v = false).
  { rewrite FloatAxioms.ltb_spec. unfold SFltb.
    assert (Hn : Prim2SF v <> S754_nan).
    { intros E. apply is_nan_iff in E. congruence. }
    destruct (Prim2SF v) as [s| s| |s m e]; cbn.
    - reflexivity.
    - destruct s; reflexivity.
    - congruence.
    - rewrite Z.compare_refl, Pos.compare_cont_refl. destruct s; reflexivity. }
  rewrite Hlt. destruct (is_zero v && get_sign v)%bool; reflexivity.
Qed.

Section Chart_binary64.
Variable log2 : float -> float.
Variable pow : float -> float -> float.
Let N : Number := binary64 log2 pow.
Local Existing Instance N.
Let U : Number_ui N := binary64_ui log2 pow.
Local Existing Instance U.

Lemma constant_max (v : float) (k : nat) :
  is_nan v = false -> fold_left B64.max (repeat v k) v = v.
Proof.
  intros Hv. induction k as [|k IH]; cbn; [reflexivity|].
  rewrite (@max_self v Hv). exact IH.
Qed.

Lemma constant_min (v : float) (k : nat) :
  is_nan v = false -> fold_left B64.min (repeat v k) v = v.
Proof.
  intros Hv. induction k as [|k IH]; cbn; [reflexivity|].
  rewrite (@min_self v Hv). exact IH.
Qed.

(** X22. On doubles, the chart cannot place degenerate series.  For a
    series of a single value the horizontal position of its circle is NaN
    (the index is divided by [length - 1 = 0]), whatever the value and the
    dimensions of the chart.  For a series that repeats one number other
    than 0 and NaN, the vertical position of every circle is NaN (the range
    [max - min] is 0), whatever the length of the series. *)
Theorem degenerate_series_have_no_position :
  forall (p : Chart.props) (color : string) (v : float),
    (exists c, Chart.createCircles p [v] color = [c]
               /\ is_nan (Chart.cx c) = true) /\
    (is_nan v = false -> PrimFloat.eqb v 0 = false ->
     forall k : nat,
       List.length (Chart.createCircles p (repeat v (S k)) color) = S k /\
       Forall (fun c => is_nan (Chart.cy c) = true)
              (Chart.createCircles p (repeat v (S k)) color)).
Proof.
  intros p color v. split.
  - eexists. split; [reflexivity|].
    cbn [Chart.cx]. unfold Chart.scaleX.
    apply nan_add. right. apply nan_mul. left. vm_compute. reflexivity.
  - intros Hnan Hzero k.
    unfold Chart.createCircles.
    change (List.length (repeat v (S k)) =? 0)%nat with false. cbv iota zeta.
    split; [rewrite map_index_length; apply repeat_length|].
    assert (Hspread : Chart.Math_max_spread (repeat v (S k)) = v)
      by exact (@constant_max v k Hnan).
    assert (Hmax : Chart.getMaxValue (repeat v (S k)) = v).
    { unfold Chart.getMaxValue. rewrite Hspread. unfold Chart.or_1.
      assert (Hz : @eqb N v (@of_Z N 0) = false) by exact Hzero.
      assert (Hr : @eqb N v v = true).
      { unfold is_nan in Hnan. apply negb_false_iff in Hnan. exact Hnan. }
      rewrite Hz, Hr. reflexivity. }
    assert (Hmin : Chart.getMinValue (repeat v (S k)) = v)
      by exact (@constant_min v k Hnan).
    rewrite Hmax, Hmin.
    apply map_index_Forall. intros w j Hw _.
    apply repeat_spec in Hw. subst w.
    cbn [Chart.cy]. unfold Chart.scaleY.
    apply nan_add. right. apply nan_sub. right. apply nan_mul. left.
    apply self_difference_quotient.
Qed.

End Chart_binary64.

(* ================================================================== *)
(** * Sharding on doubles: a dimension outside the operand             *)
(* ================================================================== *)




Section OffAxis.
Variable log2 : float -> float.
Variable pow : float -> float -> float.
Let N : Number := binary64 log2 pow.
Local Existing Instance N.





End OffAxis.

(* ================================================================== *)
(** * Further worked examples                                          *)
(* ================================================================== *)

(** Over the rationals [analyze] returns for every registered matrix
    multiplication once the fuel covers the 52 tests of the loop
    condition. *)
Lemma TPU_analyze_returns_exact (log2 : Q -> Q) (pow : Q -> Q -> Q)
    (k : nat) (ms : list (@Matrix (exact log2 pow))) (Id : string)
    (matrix : @Matrix (exact log2 pow)) :
  find_matrix ms Id = Some matrix ->
  type matrix = matmul ->
  exists a, TPUv5e.analyze (52 + k) (tpu_of ms) Id = Some (Ok a).
Proof.
  intros Hfind Hty. unfold TPUv5e.analyze.
  cbn [TPUv5e.matrices tpu_of TPUv5e.with_matrices]. rewrite Hfind.
  destruct (TPU_single_returns (tpu_of ms) matrix Hty) as [m Hm]. rewrite Hm.
  unfold TPUv5e._generateRooflineData. cbv zeta.
  match goal with
  | |- context [sample _ ?pk ?bw ?ridge _ _] =>
      pose proof (sample_exact log2 pow pk bw ridge) as H
  end.
  match type of H with
  | option_map _ ?c = _ => destruct c as [l|] eqn:E; [|discriminate H]
  end.
  rewrite (sample_more_fuel k _ _ _ _ _ _ E).
  eexists. reflexivity.
Qed.

Section MoreExactExamples.
Local Existing Instance exact0.
Local Existing Instance exact0_ui.
Local Open Scope Q_scope.

Lemma addMatrix_then_performanceMetrics_witness :
  find_matrix
    (TPUv5e.matrices
       (fst (TPUv5e.addMatrix example_tpu "m9" matmul (lhs square) (rhs square)
               (output square))))
    "m9"
  = Some (new_Matrix "m9" matmul (lhs square) (rhs square) (output square)).
Proof.
  exact (proj1 (proj1 (proj2 (proj2
    (@addMatrix_then_performanceMetrics exact0 example_tpu example_gpu
       "m9" "s1" matmul (lhs square) (rhs square) (output square))))
    eq_refl)).
Defined.

Lemma addMatrix_keeps_earlier_analyses_witness :
  TPUv5e.analyze 0
    (fst (TPUv5e.addMatrix example_tpu "m9" matmul (lhs square) (rhs square)
            (output square))) "m1"
  = TPUv5e.analyze 0 example_tpu "m1".
Proof.
  exact (proj2 (proj1
    (@addMatrix_keeps_earlier_analyses exact0 example_tpu example_gpu
       "m9" "s1" "m1" matmul (lhs square) (rhs square) (output square))
    (ex_intro _ square (conj (or_introl eq_refl) eq_refl))) 0%nat).
Defined.

Lemma unsupported_operation_reaches_every_entry_point_witness :
  let convolution := operation_of "c1" "conv2d" 8 8 8 8 bf16 bf16 bf16 in
  TPUv5e.analyze 0 (tpu_of [convolution]) "c1"
  = Some (Throw UnsupportedOperation)
  /\ H100.performanceMetrics (gpu_of [convolution]) "s1" "c1" true
       (Some example_sharding)
     = Throw UnsupportedOperation.
Proof.
  intros convolution.
  assert (Hty : type convolution <> matmul) by discriminate.
  destruct (@unsupported_operation_reaches_every_entry_point exact0
              (tpu_of [convolution]) (gpu_of [convolution]) "s1" "c1"
              convolution Hty) as (_ & Ht & Hg).
  split.
  - exact (proj2 (proj2 (Ht eq_refl)) 0%nat).
  - exact (proj1 (proj2 (Hg eq_refl)) example_sharding).
Defined.

Lemma single_device_part_is_shared_witness :
  exists res,
    TPUv5e.performanceMetrics example_tpu "s1" "m1" true (Some example_sharding)
    = Ok res
    /\ TPUv5e.performanceMetrics example_tpu "s1" "m1" false None
       = Ok {| TPUv5e.singleNode := TPUv5e.singleNode res;
               TPUv5e.multiNode := None |}.
Proof.
  destruct (@TPU_request_returns exact0 example_tpu "s1" "m1" square
              example_sharding eq_refl eq_refl) as [res Hres].
  exists res. split; [exact Hres|].
  exact (proj1 (proj2 (proj2 (proj1
    (@single_device_part_is_shared exact0 example_tpu example_gpu "s1" "m1"))))
    example_sharding res Hres).
Defined.

Lemma compute_bound_flag_compares_times_witness :
  exists m, TPUv5e._calculateSingleNodeMetrics example_tpu square = Ok m
            /\ (TPUv5e.isComputeBound m = true <->
                TPUv5e.memoryTime m < TPUv5e.computeTime m).
Proof.
  eexists. split; [reflexivity|].
  refine (proj1 (proj1 (@compute_bound_flag_compares_times Qlog2 Qpow
                          example_ops example_ops square _) _ eq_refl)).
  reflexivity.
Defined.

(** At 4096 x 4096 x 4096 the operation is flagged compute-bound on both
    devices, and 4096 is above both ridges; at 100 x 256 x 256 the TPU gives
    the advice on the batch size, and with it the memory-bound advice. *)
Lemma compute_bound_needs_large_batch_witness :
  (exists m, TPUv5e._calculateSingleNodeMetrics example_tpu (cube 4096) = Ok m
             /\ TPUv5e.isComputeBound m = true
             /\ (19700 # 81) < 4096) /\
  (exists m, H100._calculateSingleNodeMetrics example_gpu (cube 4096) = Ok m
             /\ H100.isComputeBound m = true
             /\ (19780 # 67) < 4096) /\
  (exists m, TPUv5e._calculateSingleNodeMetrics example_tpu ragged = Ok m
             /\ In "For bf16 matmul on TPU, batch size should be at least 240 to be compute-bound."
                   (TPUv5e._generateRecommendations example_tpu ragged m)
             /\ In "Operation is memory-bound. Consider increasing batch size to improve arithmetic intensity."
                   (TPUv5e._generateRecommendations example_tpu ragged m)).
Proof.
  pose proof (@compute_bound_needs_large_batch Qlog2 Qpow example_ops
                example_ops "m0" 4096 4096 4096 bf16
                ltac:(reflexivity) ltac:(reflexivity) ltac:(reflexivity))
    as [Htpu Hgpu].
  pose proof (proj1 (@compute_bound_needs_large_batch Qlog2 Qpow example_ops
                       example_ops "m2" 100 256 256 bf16
                       ltac:(reflexivity) ltac:(reflexivity) ltac:(reflexivity)))
    as Hragged.
  split; [|split].
  - eexists. split; [reflexivity|]. split; [reflexivity|].
    exact (proj1 (proj1 (Htpu _ eq_refl) eq_refl)).
  - eexists. split; [reflexivity|]. split; [reflexivity|].
    exact (proj1 (Hgpu _ eq_refl eq_refl)).
  - eexists. split; [reflexivity|].
    match goal with |- ?advised /\ _ => assert (Hin : advised) end.
    { vm_compute. tauto. }
    split; [exact Hin|].
    exact (proj2 (Hragged _ eq_refl) Hin).
Defined.

Lemma roofline_data_are_consistent_witness :
  0 < totalBytes (calculateBytes square)
  /\ exists a, TPUv5e.analyze 52 example_tpu "m1" = Some (Ok a)
               /\ consistent (TPUv5e.hbmBandwidth example_tpu) (TPUv5e.d a).
Proof.
  assert (Hbytes : 0 < totalBytes (calculateBytes square)) by reflexivity.
  split; [exact Hbytes|].
  destruct (@TPU_analyze_returns_exact Qlog2 Qpow 0 example_ops "m1" square
              eq_refl eq_refl) as [a Ha].
  exists a. split; [exact Ha|].
  exact (proj1 (proj1 (@roofline_data_are_consistent Qlog2 Qpow
                         example_ops example_ops 52 "m1" square Hbytes)
                  eq_refl a Ha)).
Defined.

Lemma tiling_fractions_in_unit_interval_witness :
  exists m, TPUv5e._calculateSingleNodeMetrics example_tpu ragged = Ok m
            /\ 0 < TPUv5e.lhsUtilization (TPUv5e.mxuUtilization m) <= 1.
Proof.
  eexists. split; [reflexivity|].
  refine (proj1 (proj1 (@tiling_fractions_in_unit_interval Qlog2 Qpow
                          example_ops example_ops "m2" matmul 100 256 256 256
                          bf16 bf16 bf16 _ _ _) _ eq_refl));
    reflexivity.
Defined.

Lemma H100_padding_advice_implies_kernel_advice_witness :
  exists m, H100._calculateSingleNodeMetrics example_gpu tiny = Ok m
            /\ In "For optimal CUDA kernel performance, consider using dimensions that are multiples of 32 for M and N, and 16 for K."
                  (H100._generateRecommendations example_gpu tiny m).
Proof.
  eexists. split; [reflexivity|].
  refine (@H100_padding_advice_implies_kernel_advice Qlog2 Qpow example_ops
            "m3" matmul 1 1 1 1 bf16 bf16 bf16 _ eq_refl _).
  vm_compute. tauto.
Defined.

Lemma H100_smOccupancy_law_witness :
  exists m, H100._calculateSingleNodeMetrics example_gpu square = Ok m
            /\ H100.smOccupancy m == 64 # 1056.
Proof.
  eexists. split; [reflexivity|].
  refine (Qeq_trans _ _ _
            (proj1 (@H100_smOccupancy_law Qlog2 Qpow example_ops "m1" matmul
                      256 256 256 256 bf16 bf16 bf16 _ eq_refl)) _).
  reflexivity.
Defined.

Lemma unsharded_request_changes_nothing_witness :
  exists res mm,
    TPUv5e.performanceMetrics example_tpu "s1" "m1" true (Some (unsharded 4))
    = Ok res
    /\ TPUv5e.multiNode res = Some mm
    /\ TPUv5e.speedupOverSingleDevice mm == 1.
Proof.
  destruct (proj1 (@unsharded_request_changes_nothing Qlog2 Qpow
                     example_ops example_ops "s1" "m1" "m1"
                     256 256 256 256 4 bf16 bf16 bf16
                     eq_refl eq_refl eq_refl eq_refl) eq_refl)
    as (res & mm & Hres & Hmm & _ & _ & _ & Hspeed & _).
  exists res, mm. split; [exact Hres|]. split; [exact Hmm | exact Hspeed].
Defined.

Lemma sharding_never_slows_a_device_witness :
  exists res mm,
    TPUv5e.performanceMetrics example_tpu "s1" "m1" true (Some example_sharding)
    = Ok res
    /\ TPUv5e.multiNode res = Some mm
    /\ TPUv5e.lowerBoundTime (TPUv5e.perDeviceMetrics mm)
       <= TPUv5e.lowerBoundTime (TPUv5e.singleNode res).
Proof.
  destruct (proj1 (@sharding_never_slows_a_device Qlog2 Qpow
                     example_ops example_ops "s1" "m1" "m1"
                     256 256 256 256 bf16 bf16 bf16 example_sharding
                     ltac:(discriminate) ltac:(discriminate)
                     ltac:(discriminate) ltac:(discriminate)
                     ltac:(discriminate)
                     (or_intror (or_intror eq_refl))
                     (or_intror (or_introl eq_refl))) eq_refl)
    as (res & mm & Hres & Hmm & _ & _ & Hlower & _).
  exists res, mm. split; [exact Hres|]. split; [exact Hmm | exact Hlower].
Defined.

Lemma H100_cost_across_nodes_witness :
  let far := {| numDevices := 512; lhsShardDim := Some 1%Z;
                rhsShardDim := Some 0%Z |} in
  exists res mm,
    H100.performanceMetrics example_gpu "s1" "m1" true (Some far) = Ok res
    /\ H100.multiNode res = Some mm
    /\ H100.scalingEfficiency mm = H100.speedupOverSingleDevice mm / 512.
Proof.
  intros far.
  destruct (@H100_request_returns exact0 example_gpu "s1" "m1" square far
              eq_refl eq_refl) as [res Hres].
  destruct (@H100_cost_across_nodes exact0 example_gpu "s1" "m1" far res Hres)
    as (matrix & mm & _ & Hmm & Hscale & _).
  exists res, mm. split; [exact Hres|]. split; [exact Hmm | exact Hscale].
Defined.

Lemma circles_lie_inside_the_plot_witness :
  List.length (Chart.createCircles Chart.default [1; 3; 2] "#000000") = 3%nat.
Proof.
  exact (proj1 (@circles_lie_inside_the_plot Qlog2 Qpow Chart.default
                  [1; 3; 2] "#000000"
                  ltac:(discriminate) ltac:(discriminate)
                  ltac:(repeat constructor) ltac:(reflexivity))).
Defined.

Lemma circles_span_the_plot_witness :
  Chart.cx (nth 2 (Chart.createCircles Chart.default [1; 3; 2] "#000000")
              {| Chart.cx := 0; Chart.cy := 0; Chart.r := 0; Chart.fill := "" |})
  == Chart.padding Chart.default + Chart.graphWidth Chart.default.
Proof.
  exact (proj1 (proj2 (proj2
    (@circles_span_the_plot Qlog2 Qpow Chart.default [1; 3; 2] "#000000"
       {| Chart.cx := 0; Chart.cy := 0; Chart.r := 0; Chart.fill := "" |}
       ltac:(repeat constructor) ltac:(reflexivity))))).
Defined.

Lemma zero_series_lies_on_the_bottom_edge_witness :
  Chart.getMaxValue [0; 0] = 1.
Proof.
  exact (proj1 (@zero_series_lies_on_the_bottom_edge Qlog2 Qpow Chart.default
                  [0; 0] "#000000" ltac:(discriminate)
                  ltac:(repeat constructor; reflexivity))).
Defined.

Lemma reported_times_are_ordered_witness :
  exists m, TPUv5e._calculateSingleNodeMetrics example_tpu square = Ok m
            /\ TPUv5e.upperBoundTime m <= 2 * TPUv5e.lowerBoundTime m.
Proof.
  eexists. split; [reflexivity|].
  exact (proj1 (proj1 (@reported_times_are_ordered Qlog2 Qpow
                         example_ops example_ops square) _ eq_refl)).
Defined.

End MoreExactExamples.

Lemma analyse_never_throws_witness :
  exists st',
    @Page.analyse (binary64 (fun x => x) (fun x _ => x))
      (binary64_ui (fun x => x) (fun x _ => x)) 51 "m1" Page.initial
    = Some (Ok st')
    /\ Page.analyseIspressed st' = true.
Proof.
  destruct (proj2 (@analyse_never_throws (fun x => x) (fun x _ => x) 0 "m1"
                     Page.initial) eq_refl)
    as (st' & Hst & Hpressed & _).
  exists st'. split; [exact Hst | exact Hpressed].
Defined.

Lemma degenerate_series_have_no_position_witness :
  let N := binary64 (fun x => x) (fun x _ => x) in
  let U := binary64_ui (fun x => x) (fun x _ => x) in
  Forall (fun c : @Chart.circle N => is_nan (@Chart.cy N c) = true)
    (@Chart.createCircles N U (@Chart.default N) (repeat 2%float 2) "#000000").
Proof.
  exact (proj2 (proj2 (@degenerate_series_have_no_position
                         (fun x => x) (fun x _ => x)
                         (@Chart.default (binary64 (fun x => x) (fun x _ => x)))
                         "#000000" 2%float) eq_refl eq_refl 1%nat)).
Defined.

